(** * TasteStack: authorization and social-interaction core

    A shallow embedding of the Django REST backend shown in the project
    guides (docs/backend, docs/development, docs/api): the models of the
    accounts, recipes and interactions apps, the ORM calls the views make,
    and the views themselves.

    Tables are lists of rows in storage order: primary keys and
    [unique_together] constraints are invariants of the store, not of the
    type, so that a duplicate row is something a view could in principle
    produce.  Views are functions from the store and the request to a new
    store and a [Response].  Exceptions raised on the way ([Http404],
    [PermissionDenied], ...) are values of [result] and are turned into
    responses by [exception_handler], as REST framework does.

    The guides call the main entity [Item] in the tutorial code and [Recipe]
    in the TasteStack code; it is one table here, with the TasteStack
    columns. *)

From Stdlib Require Import List Bool Arith ZArith QArith Lia String Ascii.
From Stdlib Require Import Qround Qpower Qabs Permutation Sorted.
Import ListNotations.

Close Scope Q_scope.
Open Scope string_scope.
Open Scope list_scope.
Open Scope nat_scope.

(* ================================================================== *)
(** ** Exceptions and results *)
(* ================================================================== *)

Inductive exn : Type :=
| DoesNotExist
| MultipleObjectsReturned
| IntegrityError
| Http404
| PermissionDenied
| NotAuthenticated
| TypeError.

Inductive result (A : Type) : Type :=
| Ok (a : A)
| Raise (e : exn).

Arguments Ok {A} a.
Arguments Raise {A} e.

(* ================================================================== *)
(** ** HTTP responses *)
(* ================================================================== *)

(** [rest_framework.status] *)
Definition HTTP_200_OK : nat := 200.
Definition HTTP_201_CREATED : nat := 201.
Definition HTTP_204_NO_CONTENT : nat := 204.
Definition HTTP_400_BAD_REQUEST : nat := 400.
Definition HTTP_401_UNAUTHORIZED : nat := 401.
Definition HTTP_403_FORBIDDEN : nat := 403.
Definition HTTP_404_NOT_FOUND : nat := 404.
Definition HTTP_500_INTERNAL_SERVER_ERROR : nat := 500.

(** JSON payloads.  A float is the rational it denotes.  [JErrors] is
    [serializer.errors], the map from the refused fields to the messages of
    REST framework: it is not looked into. *)
#[local] Unset Elimination Schemes.
Inductive json : Type :=
| JNull
| JBool (b : bool)
| JInt (z : Z)
| JNum (q : Q)
| JStr (s : string)
| JArr (l : list json)
| JObj (kv : list (string * json))
| JErrors.
#[local] Set Elimination Schemes.

Record Response : Type := mkResponse {
  response_data : json;
  status_code : nat
}.

(** [Response(data)] without a status is a 200. *)
Definition Response_ok (d : json) : Response := mkResponse d HTTP_200_OK.

(** The error taxonomy of the specification and the status each class is
    surfaced as. *)
Inductive error_class : Type :=
| ValidationError
| AuthError
| PermissionError
| NotFoundError
| ConflictError.

Definition http_status_of (e : error_class) : nat :=
  match e with
  | ValidationError => HTTP_400_BAD_REQUEST
  | AuthError => HTTP_401_UNAUTHORIZED
  | PermissionError => HTTP_403_FORBIDDEN
  | NotFoundError => HTTP_404_NOT_FOUND
  | ConflictError => HTTP_400_BAD_REQUEST
  end.

(** What REST framework's exception handler makes of an exception that
    leaves a view: [Http404], [PermissionDenied] and [NotAuthenticated]
    have their own status, anything else is a server error.
    [NotAuthenticated] is a 401 because the configured authentication
    classes (JWT, token) send a [WWW-Authenticate] header. *)
Definition exception_handler (e : exn) : Response :=
  match e with
  | Http404 =>
      mkResponse (JObj [("detail", JStr "Not found.")]) HTTP_404_NOT_FOUND
  | PermissionDenied =>
      mkResponse
        (JObj [("detail", JStr "You do not have permission to perform this action.")])
        HTTP_403_FORBIDDEN
  | NotAuthenticated =>
      mkResponse
        (JObj [("detail", JStr "Authentication credentials were not provided.")])
        HTTP_401_UNAUTHORIZED
  | DoesNotExist | MultipleObjectsReturned | IntegrityError | TypeError =>
      mkResponse (JObj [("error", JStr "Internal server error")])
        HTTP_500_INTERNAL_SERVER_ERROR
  end.

(* ================================================================== *)
(** ** Models *)
(* ================================================================== *)

(** accounts/models.py.  [user_password] is the stored hash. *)
Record User : Type := mkUser {
  user_pk : nat;
  user_email : string;
  user_username : string;
  user_password : string;
  user_bio : string
}.

(** [request.user]: the account the bearer token resolves to, or
    [AnonymousUser]. *)
Inductive RequestUser : Type :=
| AnonymousUser
| AuthUser (u : User).

Definition is_authenticated (ru : RequestUser) : bool :=
  match ru with
  | AnonymousUser => false
  | AuthUser _ => true
  end.

(** recipes/models.py.  The columns are those of the [Recipe] model of the
    backend guide (title, description, ingredients, prep_time, cook_time,
    difficulty, author) with the timestamps of the tutorial's [Item]; uploads
    are left out.  The [Item] of the tutorial guides has no ingredients and
    no times: its rows have an empty list and zeros there, and the views of
    the tutorial never read or change these three columns.  [recipe_author] is
    the [author_id] column. *)
Record Recipe : Type := mkRecipe {
  recipe_pk : nat;
  recipe_title : string;
  recipe_description : string;
  recipe_ingredients : list string;
  recipe_prep_time : nat;
  recipe_cook_time : nat;
  recipe_difficulty : string;
  recipe_author : nat;
  recipe_created_at : nat;
  recipe_updated_at : nat
}.

(** interactions/models.py.  The value column of Rating is [rating] in the
    tutorial code and [score] in the TasteStack code. *)
Record Rating : Type := mkRating {
  rating_pk : nat;
  rating_user : nat;
  rating_item : nat;
  rating_rating : Z;
  rating_created_at : nat
}.

Record Like : Type := mkLike {
  like_pk : nat;
  like_user : nat;
  like_item : nat;
  like_created_at : nat
}.

Record Comment : Type := mkComment {
  comment_pk : nat;
  comment_user : nat;
  comment_item : nat;
  comment_content : string;
  comment_created_at : nat;
  comment_updated_at : nat
}.

(** The relational store. *)
Record DB : Type := mkDB {
  users : list User;
  recipes : list Recipe;
  ratings : list Rating;
  likes : list Like;
  comments : list Comment
}.

Definition set_recipes (db : DB) (t : list Recipe) : DB :=
  mkDB (users db) t (ratings db) (likes db) (comments db).
Definition set_ratings (db : DB) (t : list Rating) : DB :=
  mkDB (users db) (recipes db) t (likes db) (comments db).
Definition set_likes (db : DB) (t : list Like) : DB :=
  mkDB (users db) (recipes db) (ratings db) t (comments db).
Definition set_comments (db : DB) (t : list Comment) : DB :=
  mkDB (users db) (recipes db) (ratings db) (likes db) t.

(* ================================================================== *)
(** ** The ORM calls the views use *)
(* ================================================================== *)

Section Manager.
Context {A : Type} (pk : A -> nat).

(** [Model.objects.get(...)]: exactly one row, or an exception. *)
Definition objects_get (p : A -> bool) (table : list A) : result A :=
  match filter p table with
  | [] => Raise DoesNotExist
  | [x] => Ok x
  | _ :: _ :: _ => Raise MultipleObjectsReturned
  end.

(** [get_object_or_404] *)
Definition get_object_or_404 (p : A -> bool) (table : list A) : result A :=
  match objects_get p table with
  | Ok x => Ok x
  | Raise DoesNotExist => Raise Http404
  | Raise e => Raise e
  end.

(** [queryset.exists()], [.count()], [.first()] *)
Definition qs_exists (qs : list A) : bool :=
  match qs with
  | [] => false
  | _ :: _ => true
  end.

Definition qs_count (qs : list A) : nat := List.length qs.

Definition qs_first (qs : list A) : option A :=
  match qs with
  | [] => None
  | x :: _ => Some x
  end.

(** The primary key of a new row: a key above every stored one.  (An
    [AutoField] draws from a sequence, which also stays above the keys of
    the rows that were deleted; what the views and the statements below rely
    on is that the key is not in use.) *)
Definition next_pk (table : list A) : nat :=
  S (fold_right (fun x m => Nat.max (pk x) m) 0 table).

(** [obj.save()] on a row that has a primary key: UPDATE ... WHERE id. *)
Definition save (x : A) (table : list A) : list A :=
  map (fun y => if pk y =? pk x then x else y) table.

(** [obj.delete()]: DELETE ... WHERE id. *)
Definition delete (x : A) (table : list A) : list A :=
  filter (fun y => negb (pk y =? pk x)) table.
End Manager.

(** The reverse foreign keys [item.ratings], [item.likes], [item.comments]
    before any ordering is applied. *)
Definition ratings_of (db : DB) (item_id : nat) : list Rating :=
  filter (fun r => rating_item r =? item_id) (ratings db).

Definition likes_of (db : DB) (item_id : nat) : list Like :=
  filter (fun l => like_item l =? item_id) (likes db).

(** The columns of [unique_together = ('user', 'item')]. *)
Definition rating_pair (r : Rating) : nat * nat := (rating_user r, rating_item r).

Definition like_pair (l : Like) : nat * nat := (like_user l, like_item l).

(** Lookup by the pair of a [unique_together = ('user', 'item')]. *)
Definition rating_key (user_id item_id : nat) (r : Rating) : bool :=
  (rating_user r =? user_id) && (rating_item r =? item_id).

Definition like_key (user_id item_id : nat) (l : Like) : bool :=
  (like_user l =? user_id) && (like_item l =? item_id).

(* ================================================================== *)
(** ** Derived values of a recipe *)
(* ================================================================== *)

(** Python's builtin [sum]: a left fold from 0. *)
Definition py_sum (l : list Z) : Z := fold_left Z.add l 0%Z.

(** A float is a double: a rational [m * 2^e] with [|m| < 2^53].  The
    result of an operation is the double nearest to the exact result, the
    one with the even [m] when two are equally near. *)

(** The integer nearest to a rational, ties to the even one. *)
Definition round_half_even (x : Q) : Z :=
  let f := Qfloor x in
  match Qcompare (x - inject_Z f) (1 # 2) with
  | Lt => f
  | Eq => if Z.even f then f else (f + 1)%Z
  | Gt => (f + 1)%Z
  end.

(** The binary order of magnitude of a positive rational: the [k] with
    [2^k <= x < 2^(k+1)]. *)
Definition ilog2 (x : Q) : Z :=
  let k := (Z.log2 (Qnum x) - Z.log2 (Z.pos (Qden x)))%Z in
  if Qle_bool (2 ^ k) x then k else (k - 1)%Z.

(** The double nearest to a rational: 53 significant bits.  The exponent is
    not bounded: an integer column holds 64 bits at most, so that a quotient
    of a sum over a table by its number of rows is far inside the range of a
    double, where there is no overflow and no loss of precision towards
    zero. *)
Definition round_to_double (x : Q) : Q :=
  if Qeq_bool x 0 then 0%Q
  else
    let e := (ilog2 (Qabs x) - 52)%Z in
    (inject_Z (round_half_even (x / 2 ^ e)) * 2 ^ e)%Q.

(** True division of two integers, [a / b]: the float nearest to the
    quotient. *)
Definition py_truediv (a b : Z) : Q :=
  round_to_double (inject_Z a / inject_Z b).

(** [Item.average_rating] (core_app/models.py):
[[
    ratings = self.ratings.all()
    if ratings.exists():
        return sum(rating.rating for rating in ratings) / ratings.count()
    return 0
]] *)
Definition Item_average_rating (db : DB) (self : Recipe) : Q :=
  let ratings := ratings_of db (recipe_pk self) in
  if qs_exists ratings then
    py_truediv (py_sum (map rating_rating ratings))
               (Z.of_nat (qs_count ratings))
  else 0%Q.

(** SQL [AVG] of an integer column: NULL over no rows, else the sum over
    the count as a float (SQLite divides the sum by the count in double
    precision; a sum below [2^53] is a double itself). *)
Definition Avg (col : list Z) : option Q :=
  match col with
  | [] => None
  | _ :: _ => Some (py_truediv (py_sum col) (Z.of_nat (List.length col)))
  end.

(** [x or 0] on an optional number: [None] and zero are falsy. *)
Definition or_0 (x : option Q) : Q :=
  match x with
  | None => 0%Q
  | Some q => if Qeq_bool q 0 then 0%Q else q
  end.

(** [Recipe.average_rating] (recipes/models.py):
[[
    return self.ratings.aggregate(models.Avg('score'))['score__avg'] or 0
]] *)
Definition Recipe_average_rating (db : DB) (self : Recipe) : Q :=
  or_0 (Avg (map rating_rating (ratings_of db (recipe_pk self)))).

(** [rating_count] and [likes_count] *)
Definition rating_count (db : DB) (self : Recipe) : nat :=
  qs_count (ratings_of db (recipe_pk self)).

Definition likes_count (db : DB) (self : Recipe) : nat :=
  qs_count (likes_of db (recipe_pk self)).

(** The arithmetic mean as the specification words it: the sum of the scores
    over their number. *)
Definition total (scores : list Z) : Z := fold_right Z.add 0%Z scores.

Definition mean (scores : list Z) : Q :=
  (inject_Z (total scores) / inject_Z (Z.of_nat (List.length scores)))%Q.

(** The scores of the Rating records whose recipe is [r]. *)
Definition scores_of (db : DB) (r : Recipe) : list Z :=
  map rating_rating (filter (fun x => rating_item x =? recipe_pk r) (ratings db)).

(* ================================================================== *)
(** ** Views as store transformers that may raise *)
(* ================================================================== *)

Definition M (A : Type) : Type := DB -> result (A * DB).

Definition ret {A : Type} (a : A) : M A := fun db => Ok (a, db).

Definition raise {A : Type} (e : exn) : M A := fun _ => Raise e.

Definition bind {A B : Type} (m : M A) (k : A -> M B) : M B :=
  fun db =>
    match m db with
    | Ok (a, db') => k a db'
    | Raise e => Raise e
    end.

(** A read-only query against the store. *)
Definition query {A : Type} (q : DB -> result A) : M A :=
  fun db =>
    match q db with
    | Ok a => Ok (a, db)
    | Raise e => Raise e
    end.

Definition write (f : DB -> DB) : M unit := fun db => Ok (tt, f db).

Declare Scope view_scope.
Delimit Scope view_scope with view.
Notation "x <- m ;; k" := (bind m (fun x => k))
  (at level 61, m at next level, right associativity) : view_scope.
Notation "m ;; k" := (bind m (fun _ => k))
  (at level 61, right associativity) : view_scope.
Open Scope view_scope.

(** The request: the resolved caller and the parsed body. *)
Record Request (D : Type) : Type := mkRequest {
  user : RequestUser;
  data : D
}.

Arguments mkRequest {D} user data.
Arguments user {D} r.
Arguments data {D} r.

(** What leaves the server: the view's response, or the exception handler's
    when the view raised; the store is the one the view left. *)
Definition as_view (view : M Response) (db : DB) : Response * DB :=
  match view db with
  | Ok (response, db') => (response, db')
  | Raise e => (exception_handler e, db)
  end.

(* ================================================================== *)
(** ** Permissions *)
(* ================================================================== *)

Inductive http_method : Type := GET | HEAD | OPTIONS | POST | PUT | PATCH | DELETE.

Definition SAFE_METHODS (m : http_method) : bool :=
  match m with
  | GET | HEAD | OPTIONS => true
  | POST | PUT | PATCH | DELETE => false
  end.

Inductive permission : Type :=
| AllowAny
| IsAuthenticated
| IsAuthenticatedOrReadOnly
| IsOwnerOrReadOnly.

(** [obj.author == request.user]: model instances are equal when their
    primary keys are; [AnonymousUser] equals no account. *)
Definition author_is_user (obj : Recipe) (ru : RequestUser) : bool :=
  match ru with
  | AnonymousUser => false
  | AuthUser u => recipe_author obj =? user_pk u
  end.

(** [has_permission]; a permission class that does not define it allows. *)
Definition has_permission (p : permission) (method : http_method)
    (ru : RequestUser) : bool :=
  match p with
  | AllowAny => true
  | IsAuthenticated => is_authenticated ru
  | IsAuthenticatedOrReadOnly =>
      if SAFE_METHODS method then true else is_authenticated ru
  | IsOwnerOrReadOnly => true
  end.

(** [has_object_permission], same default. *)
Definition has_object_permission (p : permission) (method : http_method)
    (ru : RequestUser) (obj : Recipe) : bool :=
  match p with
  | IsOwnerOrReadOnly =>
      if SAFE_METHODS method then true else author_is_user obj ru
  | AllowAny | IsAuthenticated | IsAuthenticatedOrReadOnly => true
  end.

(** [APIView.permission_denied]: a caller whose credentials were not
    accepted is not authenticated, any other is forbidden. *)
Definition permission_denied (ru : RequestUser) : exn :=
  if is_authenticated ru then PermissionDenied else NotAuthenticated.

Definition check_permissions (permission_classes : list permission)
    (method : http_method) (ru : RequestUser) : M unit :=
  if forallb (fun p => has_permission p method ru) permission_classes
  then ret tt
  else raise (permission_denied ru).

Definition check_object_permissions (permission_classes : list permission)
    (method : http_method) (ru : RequestUser) (obj : Recipe) : M unit :=
  if forallb (fun p => has_object_permission p method ru obj) permission_classes
  then ret tt
  else raise (permission_denied ru).

(** [@api_view(['POST'])] with [@permission_classes(...)]: the permissions
    are checked before the function body runs. *)
Definition api_view {D : Type} (method : http_method)
    (permission_classes : list permission)
    (view : Request D -> M Response) (request : Request D) : M Response :=
  check_permissions permission_classes method (user request) ;;
  view request.

(** The account behind an authenticated request; passing [AnonymousUser]
    where the ORM expects a [User] is a [TypeError]. *)
Definition request_user {D : Type} (request : Request D) : M User :=
  match user request with
  | AuthUser u => ret u
  | AnonymousUser => raise TypeError
  end.

(* ================================================================== *)
(** ** accounts: serializer and login *)
(* ================================================================== *)

(** [UserSerializer(user).data]: the password is write-only; uploads are
    outside this model, so [profile_picture] is always null. *)
Definition UserSerializer_data (u : User) : json :=
  JObj [("id", JInt (Z.of_nat (user_pk u)));
        ("username", JStr (user_username u));
        ("email", JStr (user_email u));
        ("bio", JStr (user_bio u));
        ("profile_picture", JNull)].

(** Body of [POST /api/auth/login/]; a key absent from the JSON is [None]. *)
Record LoginData : Type := mkLoginData {
  email : option string;
  password : option string
}.

(** Truthiness of [request.data.get(key)] for a string field. *)
Definition truthy (x : option string) : bool :=
  match x with
  | None => false
  | Some s => negb (String.eqb s "")
  end.

Definition invalid_credentials : Response :=
  mkResponse (JObj [("error", JStr "Invalid credentials")]) HTTP_400_BAD_REQUEST.

Definition credentials_required : Response :=
  mkResponse (JObj [("error", JStr "Email and password are required")])
    HTTP_400_BAD_REQUEST.

Section Accounts.

(** The password hasher's verification of a raw password against a stored
    hash, and the access token of [RefreshToken.for_user(user)]. *)
Variable check_password_hash : string -> string -> bool.
Variable access_token : User -> string.

(** [user.check_password(raw)] *)
Definition check_password (u : User) (raw : string) : bool :=
  check_password_hash raw (user_password u).

(** [login] (accounts/views.py), [@permission_classes([AllowAny])]:
[[
    email = request.data.get('email')
    password = request.data.get('password')
    if email and password:
        try:
            user = User.objects.get(email=email)
        except User.DoesNotExist:
            return Response({'error': 'Invalid credentials'}, status=400)
        if user.check_password(password):
            refresh = RefreshToken.for_user(user)
            return Response({'user': UserSerializer(user).data,
                             'token': str(refresh.access_token)})
        else:
            return Response({'error': 'Invalid credentials'}, status=400)
    else:
        return Response({'error': 'Email and password are required'}, status=400)
]] *)
Definition login_body (request : Request LoginData) : M Response :=
  match email (data request), password (data request) with
  | Some email, Some password =>
      if truthy (Some email) && truthy (Some password) then
        fun db =>
          match objects_get (fun u => String.eqb (user_email u) email) (users db) with
          | Raise DoesNotExist => ret invalid_credentials db
          | Raise e => Raise e
          | Ok user =>
              if check_password user password then
                ret (Response_ok
                       (JObj [("user", UserSerializer_data user);
                              ("token", JStr (access_token user))])) db
              else ret invalid_credentials db
          end
      else ret credentials_required
  | _, _ => ret credentials_required
  end.

Definition login (request : Request LoginData) (db : DB) : Response * DB :=
  as_view (api_view POST [AllowAny] login_body request) db.

End Accounts.

(* ================================================================== *)
(** ** interactions: writes on Rating and Like *)
(* ================================================================== *)

(** A NULL in a NOT NULL column is refused by the store. *)
Definition not_null {A : Type} (x : option A) : M A :=
  match x with
  | Some a => ret a
  | None => raise IntegrityError
  end.

(** [Rating.objects.create(...)]: a fresh primary key; the
    [unique_together] index refuses a second row for the pair. *)
Definition Rating_objects_create (user_id item_id : nat) (rating : option Z)
    (now : nat) : M Rating :=
  value <- not_null rating ;;
  fun db =>
    if existsb (rating_key user_id item_id) (ratings db) then Raise IntegrityError
    else
      let row := mkRating (next_pk rating_pk (ratings db)) user_id item_id value now in
      Ok (row, set_ratings db (ratings db ++ [row])).

(** [rating.save()] on a stored row. *)
Definition Rating_save (row : Rating) : M unit :=
  write (fun db => set_ratings db (save rating_pk row (ratings db))).

Definition set_rating (row : Rating) (value : Z) : Rating :=
  mkRating (rating_pk row) (rating_user row) (rating_item row) value
    (rating_created_at row).

(** [Rating.objects.get_or_create(user=, recipe=, defaults={'score': s})] *)
Definition Rating_objects_get_or_create (user_id item_id : nat)
    (defaults : option Z) (now : nat) : M (Rating * bool) :=
  fun db =>
    match objects_get (rating_key user_id item_id) (ratings db) with
    | Ok row => Ok ((row, false), db)
    | Raise DoesNotExist =>
        (row <- Rating_objects_create user_id item_id defaults now ;;
         ret (row, true)) db
    | Raise e => Raise e
    end.

(** [Rating.objects.update_or_create(user=, item_id=, defaults={'rating': r})] *)
Definition Rating_objects_update_or_create (user_id item_id : nat)
    (defaults : option Z) (now : nat) : M (Rating * bool) :=
  fun db =>
    match objects_get (rating_key user_id item_id) (ratings db) with
    | Ok row =>
        (value <- not_null defaults ;;
         let row' := set_rating row value in
         Rating_save row' ;;
         ret (row', false)) db
    | Raise DoesNotExist =>
        (row <- Rating_objects_create user_id item_id defaults now ;;
         ret (row, true)) db
    | Raise e => Raise e
    end.

(** [Like.objects.create(...)] *)
Definition Like_objects_create (user_id item_id : nat) (now : nat) : M Like :=
  fun db =>
    if existsb (like_key user_id item_id) (likes db) then Raise IntegrityError
    else
      let row := mkLike (next_pk like_pk (likes db)) user_id item_id now in
      Ok (row, set_likes db (likes db ++ [row])).

(** [Like.objects.get_or_create(user=, recipe=)] *)
Definition Like_objects_get_or_create (user_id item_id : nat) (now : nat)
    : M (Like * bool) :=
  fun db =>
    match objects_get (like_key user_id item_id) (likes db) with
    | Ok row => Ok ((row, false), db)
    | Raise DoesNotExist =>
        (row <- Like_objects_create user_id item_id now ;; ret (row, true)) db
    | Raise e => Raise e
    end.

(** [like.delete()] *)
Definition Like_delete (row : Like) : M unit :=
  write (fun db => set_likes db (delete like_pk row (likes db))).

(* ================================================================== *)
(** ** Serializers *)
(* ================================================================== *)

(** [user=request.user] in a filter: [AnonymousUser] matches no row. *)
Definition like_of_user (ru : RequestUser) (item_id : nat) (l : Like) : bool :=
  match ru with
  | AuthUser u => like_key (user_pk u) item_id l
  | AnonymousUser => false
  end.

Definition rating_of_user (ru : RequestUser) (item_id : nat) (r : Rating) : bool :=
  match ru with
  | AuthUser u => rating_key (user_pk u) item_id r
  | AnonymousUser => false
  end.

Section ItemSerializer.

Context {D : Type}.

(** [self.context.get('request')] *)
Variable context_request : option (Request D).

(** [ItemSerializer.get_is_liked]:
[[
    request = self.context.get('request')
    if request and request.user.is_authenticated:
        return Like.objects.filter(user=request.user, item=obj).exists()
    return False
]] *)
Definition get_is_liked (db : DB) (obj : Recipe) : bool :=
  match context_request with
  | Some request =>
      if is_authenticated (user request) then
        qs_exists (filter (like_of_user (user request) (recipe_pk obj)) (likes db))
      else false
  | None => false
  end.

(** [ItemSerializer.get_user_rating]:
[[
    request = self.context.get('request')
    if request and request.user.is_authenticated:
        rating = Rating.objects.filter(user=request.user, item=obj).first()
        return rating.rating if rating else None
    return None
]] *)
Definition get_user_rating (db : DB) (obj : Recipe) : option Z :=
  match context_request with
  | Some request =>
      if is_authenticated (user request) then
        match qs_first (filter (rating_of_user (user request) (recipe_pk obj))
                               (ratings db)) with
        | Some rating => Some (rating_rating rating)
        | None => None
        end
      else None
  | None => None
  end.

Definition json_of_option_Z (x : option Z) : json :=
  match x with
  | Some z => JInt z
  | None => JNull
  end.

(** The nested [author = UserSerializer(read_only=True)]. *)
Definition author_data (db : DB) (obj : Recipe) : json :=
  match find (fun u => user_pk u =? recipe_author obj) (users db) with
  | Some u => UserSerializer_data u
  | None => JNull
  end.

(** [ItemSerializer(obj, context=...).data] *)
Definition ItemSerializer_data (db : DB) (obj : Recipe) : json :=
  JObj [("id", JInt (Z.of_nat (recipe_pk obj)));
        ("title", JStr (recipe_title obj));
        ("description", JStr (recipe_description obj));
        ("difficulty", JStr (recipe_difficulty obj));
        ("image", JNull);
        ("author", author_data db obj);
        ("created_at", JInt (Z.of_nat (recipe_created_at obj)));
        ("updated_at", JInt (Z.of_nat (recipe_updated_at obj)));
        ("average_rating", JNum (Item_average_rating db obj));
        ("likes_count", JInt (Z.of_nat (likes_count db obj)));
        ("is_liked", JBool (get_is_liked db obj));
        ("user_rating", json_of_option_Z (get_user_rating db obj))].

End ItemSerializer.

(** Lookup of a key of a JSON object. *)
Definition json_get (key : string) (j : json) : option json :=
  match j with
  | JObj kv =>
      match find (fun p => String.eqb (fst p) key) kv with
      | Some p => Some (snd p)
      | None => None
      end
  | _ => None
  end.

(** [RecipeSerializer(obj).data] of the TasteStack code. *)
Definition RecipeSerializer_data (db : DB) (obj : Recipe) : json :=
  JObj [("id", JInt (Z.of_nat (recipe_pk obj)));
        ("title", JStr (recipe_title obj));
        ("description", JStr (recipe_description obj));
        ("author", JInt (Z.of_nat (recipe_author obj)));
        ("author_name",
          match find (fun u => user_pk u =? recipe_author obj) (users db) with
          | Some u => JStr (user_username u)
          | None => JNull
          end);
        ("images", JArr []);
        ("average_rating", JNum (Recipe_average_rating db obj));
        ("rating_count", JInt (Z.of_nat (rating_count db obj)));
        ("created_at", JInt (Z.of_nat (recipe_created_at obj)))].

(** Body of [POST .../rate/]: [request.data.get('rating')]. *)
Record RateData : Type := mkRateData {
  rating : option Z
}.

(** [RatingSerializer.is_valid()]: the field is required and its choices
    are [[(i, i) for i in range(1, 6)]]. *)
Definition RatingSerializer_is_valid (d : RateData) : option Z :=
  match rating d with
  | Some z => if ((1 <=? z) && (z <? 6))%Z then Some z else None
  | None => None
  end.

(** [RatingSerializer.create]:
[[
    user = self.context['request'].user
    item_id = self.context['view'].kwargs['pk']
    rating, created = Rating.objects.update_or_create(
        user=user, item_id=item_id,
        defaults={'rating': validated_data['rating']})
    return rating
]] *)
Definition RatingSerializer_create {D : Type} (request : Request D) (pk : nat)
    (validated_rating : Z) (now : nat) : M Rating :=
  user <- request_user request ;;
  rc <- Rating_objects_update_or_create (user_pk user) pk (Some validated_rating) now ;;
  ret (fst rc).

(* ================================================================== *)
(** ** Text *)
(* ================================================================== *)

(** A [str] is modelled by its UTF-8 encoding. *)

(** [len(s)]: the number of characters, that is of the bytes that do not
    continue a character. *)
Definition is_continuation_byte (c : ascii) : bool :=
  let n := nat_of_ascii c in (128 <=? n) && (n <? 192).

Fixpoint py_len (s : string) : nat :=
  match s with
  | EmptyString => 0
  | String c s' => if is_continuation_byte c then py_len s' else S (py_len s')
  end.

(** The characters [str.isspace] holds for, by the bytes of their encoding:
    U+0009 to U+000D and U+001C to U+0020; U+0085 and U+00A0; U+1680,
    U+2000 to U+200A, U+2028, U+2029, U+202F, U+205F and U+3000. *)
Definition isspace1 (a : ascii) : bool :=
  let a := nat_of_ascii a in
  ((9 <=? a) && (a <=? 13)) || ((28 <=? a) && (a <=? 32)).

Definition isspace2 (a b : ascii) : bool :=
  let a := nat_of_ascii a in
  let b := nat_of_ascii b in
  (a =? 194) && ((b =? 133) || (b =? 160)).

Definition isspace3 (a b c : ascii) : bool :=
  let a := nat_of_ascii a in
  let b := nat_of_ascii b in
  let c := nat_of_ascii c in
  ((a =? 225) && (b =? 154) && (c =? 128))
  || ((a =? 226) && (b =? 128)
      && (((128 <=? c) && (c <=? 138)) || (c =? 168) || (c =? 169) || (c =? 175)))
  || ((a =? 226) && (b =? 129) && (c =? 159))
  || ((a =? 227) && (b =? 128) && (c =? 128)).

(** Removal of the leading whitespace; [backwards] when the bytes come in
    reverse order. *)
Fixpoint lstrip (backwards : bool) (s : string) : string :=
  match s with
  | EmptyString => EmptyString
  | String a s1 =>
      if isspace1 a then lstrip backwards s1
      else
        match s1 with
        | EmptyString => s
        | String b s2 =>
            if (if backwards then isspace2 b a else isspace2 a b)
            then lstrip backwards s2
            else
              match s2 with
              | EmptyString => s
              | String c s3 =>
                  if (if backwards then isspace3 c b a else isspace3 a b c)
                  then lstrip backwards s3
                  else s
              end
        end
  end.

Fixpoint rev_append (s acc : string) : string :=
  match s with
  | EmptyString => acc
  | String c s' => rev_append s' (String c acc)
  end.

Definition reversed (s : string) : string := rev_append s EmptyString.

(** [s.strip()] *)
Definition py_strip (s : string) : string :=
  reversed (lstrip true (reversed (lstrip false s))).

(** ['\x00' in s] *)
Fixpoint has_null (s : string) : bool :=
  match s with
  | EmptyString => false
  | String c s' => (nat_of_ascii c =? 0) || has_null s'
  end.

(** [CharField.run_validation] of REST framework: a value that is blank
    once trimmed is refused ([allow_blank] is off); the value is trimmed
    ([trim_whitespace] is on) and goes through the validators, which bound
    its length in characters and refuse a null character. *)
Definition CharField_run_validation (min_length max_length : option nat)
    (data : string) : option string :=
  let value := py_strip data in
  if String.eqb value "" then None
  else if match max_length with
          | Some n => n <? py_len value
          | None => false
          end then None
  else if match min_length with
          | Some n => py_len value <? n
          | None => false
          end then None
  else if has_null value then None
  else Some value.

(** [ChoiceField.run_validation]: the value, as it comes, is one of the
    choices. *)
Definition ChoiceField_run_validation (choices : list string) (data : string)
    : option string :=
  if existsb (String.eqb data) choices then Some data else None.

(** A field of a serializer: required, unless the update is partial, and
    then an absent field leaves the column of the instance as it is. *)
Definition validate_field (partial : bool) (run_validation : string -> option string)
    (current : string) (x : option string) : option string :=
  match x with
  | None => if partial then Some current else None
  | Some data => run_validation data
  end.

(* ================================================================== *)
(** ** Text search: [__icontains] *)
(* ================================================================== *)

(** Case folding of the ASCII letters, as the LIKE operator does. *)
Definition lower_ascii (c : ascii) : ascii :=
  let n := nat_of_ascii c in
  if (65 <=? n) && (n <=? 90) then ascii_of_nat (n + 32) else c.

Fixpoint lower (s : string) : string :=
  match s with
  | EmptyString => EmptyString
  | String c s' => String (lower_ascii c) (lower s')
  end.

Fixpoint starts_with (p s : string) : bool :=
  match p, s with
  | EmptyString, _ => true
  | String _ _, EmptyString => false
  | String a p', String b s' => Ascii.eqb a b && starts_with p' s'
  end.

Fixpoint contains (s p : string) : bool :=
  starts_with p s ||
  match s with
  | EmptyString => false
  | String _ s' => contains s' p
  end.

(** [field__icontains=q] *)
Definition icontains (field q : string) : bool :=
  contains (lower field) (lower q).

(** "[q] is a case-insensitive substring of [t]", as the specification
    words it. *)
Definition ci_substring (q t : string) : Prop :=
  exists before after : string,
    lower t = String.append before (String.append (lower q) after).

(* ================================================================== *)
(** ** core_app/views.py *)
(* ================================================================== *)

(** Query string of [GET /api/items/]. *)
Record ListParams : Type := mkListParams {
  q : option string;
  difficulty : option string
}.

(** [ItemListCreateView.get_queryset]:
[[
    queryset = Item.objects.select_related('author').all()
    search = self.request.query_params.get('q', None)
    if search:
        queryset = queryset.filter(
            models.Q(title__icontains=search) |
            models.Q(description__icontains=search))
    difficulty = self.request.query_params.get('difficulty', None)
    if difficulty:
        queryset = queryset.filter(difficulty=difficulty)
    return queryset
]] *)
Definition ItemListCreateView_get_queryset (request : Request ListParams)
    (db : DB) : list Recipe :=
  let queryset := recipes db in
  let queryset :=
    match q (data request) with
    | Some search =>
        if truthy (Some search) then
          filter (fun i => icontains (recipe_title i) search
                           || icontains (recipe_description i) search) queryset
        else queryset
    | None => queryset
    end in
  let queryset :=
    match difficulty (data request) with
    | Some d =>
        if truthy (Some d) then
          filter (fun i => String.eqb (recipe_difficulty i) d) queryset
        else queryset
    | None => queryset
    end in
  queryset.

(** Body of [PUT/PATCH /api/items/<pk>/]. *)
Record ItemData : Type := mkItemData {
  title : option string;
  description : option string;
  item_difficulty : option string
}.

Definition DIFFICULTY_CHOICES : list string := ["Easy"; "Medium"; "Hard"].

(** [ItemSerializer(instance, data=..., partial=...).is_valid()] and the row
    [serializer.save()] writes.  The writable fields are those of the model:
    [title] is a [CharField(max_length=200)], [description] a [TextField],
    [difficulty] a [CharField] with choices; [updated_at] is [auto_now]. *)
Definition ItemSerializer_is_valid (partial : bool) (instance : Recipe)
    (d : ItemData) (now : nat) : option Recipe :=
  match validate_field partial (CharField_run_validation None (Some 200))
          (recipe_title instance) (title d),
        validate_field partial (CharField_run_validation None None)
          (recipe_description instance) (description d),
        validate_field partial (ChoiceField_run_validation DIFFICULTY_CHOICES)
          (recipe_difficulty instance) (item_difficulty d) with
  | Some t, Some de, Some di =>
      Some (mkRecipe (recipe_pk instance) t de (recipe_ingredients instance)
              (recipe_prep_time instance) (recipe_cook_time instance) di
              (recipe_author instance) (recipe_created_at instance) now)
  | _, _, _ => None
  end.

(** [RecipeSerializer.validate_title]:
[[
    if len(value) < 3:
        raise serializers.ValidationError("Title must be at least 3 characters long.")
    return value
]] *)
Definition validate_title (value : string) : option string :=
  if py_len value <? 3 then None else Some value.

(** [RecipeSerializer(instance, data=..., partial=...).is_valid()] of the
    TasteStack code: of its fields, [title] and [description] are writable;
    [validate_title] runs on the validated title. *)
Definition RecipeSerializer_is_valid (partial : bool) (instance : Recipe)
    (d : ItemData) (now : nat) : option Recipe :=
  match validate_field partial
          (fun data =>
             match CharField_run_validation None (Some 200) data with
             | Some value => validate_title value
             | None => None
             end)
          (recipe_title instance) (title d),
        validate_field partial (CharField_run_validation None None)
          (recipe_description instance) (description d) with
  | Some t, Some de =>
      Some (mkRecipe (recipe_pk instance) t de (recipe_ingredients instance)
              (recipe_prep_time instance) (recipe_cook_time instance)
              (recipe_difficulty instance)
              (recipe_author instance) (recipe_created_at instance) now)
  | _, _ => None
  end.

(** [instance.delete()] with the [on_delete=CASCADE] of the foreign keys of
    Rating, Like and Comment. *)
Definition delete_cascade (obj : Recipe) (db : DB) : DB :=
  mkDB (users db)
       (delete recipe_pk obj (recipes db))
       (filter (fun r => negb (rating_item r =? recipe_pk obj)) (ratings db))
       (filter (fun l => negb (like_item l =? recipe_pk obj)) (likes db))
       (filter (fun c => negb (comment_item c =? recipe_pk obj)) (comments db)).

Definition Recipe_delete (obj : Recipe) : M unit := write (delete_cascade obj).

Definition Recipe_save (obj : Recipe) : M unit :=
  write (fun db => set_recipes db (save recipe_pk obj (recipes db))).

(** [GenericAPIView.get_object]: 404 when the row is missing, then the
    object-level permissions. *)
Definition get_object {D : Type} (permission_classes : list permission)
    (method : http_method) (request : Request D) (pk : nat) : M Recipe :=
  obj <- query (fun db => get_object_or_404 (fun i => recipe_pk i =? pk) (recipes db)) ;;
  check_object_permissions permission_classes method (user request) obj ;;
  ret obj.

(** [UpdateModelMixin.update] and [DestroyModelMixin.destroy], the
    [super()] of the views below; [is_valid] and [serializer_data] are those
    of the [serializer_class] of the view.
[[
    partial = kwargs.pop('partial', False)
    instance = self.get_object()
    serializer = self.get_serializer(instance, data=request.data, partial=partial)
    serializer.is_valid(raise_exception=True)
    self.perform_update(serializer)
    return Response(serializer.data)
]] *)
Definition super_update (permission_classes : list permission)
    (is_valid : bool -> Recipe -> ItemData -> nat -> option Recipe)
    (serializer_data : DB -> Recipe -> json)
    (method : http_method) (request : Request ItemData) (pk : nat) (now : nat)
    : M Response :=
  instance <- get_object permission_classes method request pk ;;
  match is_valid (match method with PATCH => true | _ => false end)
          instance (data request) now with
  | Some updated =>
      Recipe_save updated ;;
      fun db => ret (Response_ok (serializer_data db updated)) db
  | None => ret (mkResponse JErrors HTTP_400_BAD_REQUEST)
  end.

Definition super_destroy {D : Type} (permission_classes : list permission)
    (request : Request D) (pk : nat) : M Response :=
  instance <- get_object permission_classes DELETE request pk ;;
  Recipe_delete instance ;;
  ret (mkResponse JNull HTTP_204_NO_CONTENT).

(** [ItemDetailView]: [permission_classes = [AllowAny]] *)
Definition ItemDetailView_permission_classes : list permission := [AllowAny].

(** [ItemDetailView.update]:
[[
    instance = self.get_object()
    if instance.author != request.user:
        return Response({'error': 'You do not have permission to edit this item'},
                        status=status.HTTP_403_FORBIDDEN)
    return super().update(request, *args, **kwargs)
]] *)
Definition ItemDetailView_update (method : http_method)
    (request : Request ItemData) (pk : nat) (now : nat) : M Response :=
  instance <- get_object ItemDetailView_permission_classes method request pk ;;
  if negb (author_is_user instance (user request)) then
    ret (mkResponse
           (JObj [("error", JStr "You do not have permission to edit this item")])
           HTTP_403_FORBIDDEN)
  else super_update ItemDetailView_permission_classes ItemSerializer_is_valid
         (ItemSerializer_data (Some request)) method request pk now.

(** [ItemDetailView.destroy]:
[[
    instance = self.get_object()
    if instance.author != request.user:
        return Response({'error': 'You do not have permission to delete this item'},
                        status=status.HTTP_403_FORBIDDEN)
    return super().destroy(request, *args, **kwargs)
]] *)
Definition ItemDetailView_destroy {D : Type} (request : Request D) (pk : nat)
    : M Response :=
  instance <- get_object ItemDetailView_permission_classes DELETE request pk ;;
  if negb (author_is_user instance (user request)) then
    ret (mkResponse
           (JObj [("error", JStr "You do not have permission to delete this item")])
           HTTP_403_FORBIDDEN)
  else super_destroy ItemDetailView_permission_classes request pk.

(** The view class behind [PUT] and [DELETE /api/items/<pk>/]: the
    class-level permissions run before the handler. *)
Definition ItemDetailView_put (request : Request ItemData) (pk now : nat)
    (db : DB) : Response * DB :=
  as_view (check_permissions ItemDetailView_permission_classes PUT (user request) ;;
           ItemDetailView_update PUT request pk now) db.

Definition ItemDetailView_delete {D : Type} (request : Request D) (pk : nat)
    (db : DB) : Response * DB :=
  as_view (check_permissions ItemDetailView_permission_classes DELETE (user request) ;;
           ItemDetailView_destroy request pk) db.

(** [rate_item], [@api_view(['POST'])], [@permission_classes([IsAuthenticated])]:
[[
    try:
        item = Item.objects.get(pk=pk)
    except Item.DoesNotExist:
        return Response({'error': 'Item not found'}, status=404)
    serializer = RatingSerializer(data={'rating': request.data.get('rating')}, ...)
    if serializer.is_valid():
        serializer.save()
        item_serializer = ItemSerializer(item, context={'request': request})
        return Response(item_serializer.data, status=201)
    return Response(serializer.errors, status=400)
]] *)
Definition rate_item_body (pk now : nat) (request : Request RateData) : M Response :=
  fun db =>
    match objects_get (fun i => recipe_pk i =? pk) (recipes db) with
    | Raise DoesNotExist =>
        ret (mkResponse (JObj [("error", JStr "Item not found")]) HTTP_404_NOT_FOUND) db
    | Raise e => Raise e
    | Ok item =>
        match RatingSerializer_is_valid (data request) with
        | Some validated =>
            (RatingSerializer_create request pk validated now ;;
             fun db' =>
               ret (mkResponse (ItemSerializer_data (Some request) db' item)
                      HTTP_201_CREATED) db') db
        | None => ret (mkResponse JErrors HTTP_400_BAD_REQUEST) db
        end
    end.

Definition rate_item (request : Request RateData) (pk now : nat) (db : DB)
    : Response * DB :=
  as_view (api_view POST [IsAuthenticated] (rate_item_body pk now) request) db.

(* ================================================================== *)
(** ** recipes/views.py of the TasteStack code *)
(* ================================================================== *)

(** Body of [POST /<recipe_id>/rate/]: [request.data.get('score')]. *)
Record ScoreData : Type := mkScoreData {
  score : option Z
}.

(** [rate_recipe]:
[[
    recipe = get_object_or_404(Recipe, id=recipe_id)
    score = request.data.get('score')
    rating, created = Rating.objects.get_or_create(
        user=request.user, recipe=recipe, defaults={'score': score})
    if not created:
        rating.score = score
        rating.save()
    return Response({'success': True, 'average': recipe.average_rating})
]] *)
Definition rate_recipe_body (recipe_id now : nat) (request : Request ScoreData)
    : M Response :=
  recipe <- query (fun db =>
              get_object_or_404 (fun r => recipe_pk r =? recipe_id) (recipes db)) ;;
  let score := score (data request) in
  user <- request_user request ;;
  rc <- Rating_objects_get_or_create (user_pk user) (recipe_pk recipe) score now ;;
  let (rating, created) := (rc : Rating * bool) in
  (if negb created then
     value <- not_null score ;;
     Rating_save (set_rating rating value)
   else ret tt) ;;
  fun db =>
    ret (Response_ok (JObj [("success", JBool true);
                            ("average", JNum (Recipe_average_rating db recipe))])) db.

Definition rate_recipe (request : Request ScoreData) (recipe_id now : nat)
    (db : DB) : Response * DB :=
  as_view (rate_recipe_body recipe_id now request) db.

(** [like_recipe], [@api_view(['POST'])], [@permission_classes([IsAuthenticated])]:
[[
    recipe = get_object_or_404(Recipe, id=recipe_id)
    like, created = Like.objects.get_or_create(user=request.user, recipe=recipe)
    if not created:
        like.delete()
        return Response({'liked': False})
    return Response({'liked': True})
]] *)
Definition like_recipe_body (recipe_id now : nat) (request : Request unit)
    : M Response :=
  recipe <- query (fun db =>
              get_object_or_404 (fun r => recipe_pk r =? recipe_id) (recipes db)) ;;
  user <- request_user request ;;
  lc <- Like_objects_get_or_create (user_pk user) (recipe_pk recipe) now ;;
  let (like, created) := (lc : Like * bool) in
  if negb created then
    Like_delete like ;;
    ret (Response_ok (JObj [("liked", JBool false)]))
  else ret (Response_ok (JObj [("liked", JBool true)])).

Definition like_recipe (request : Request unit) (recipe_id now : nat) (db : DB)
    : Response * DB :=
  as_view (api_view POST [IsAuthenticated] (like_recipe_body recipe_id now) request) db.

(** [RecipeViewSet]: [serializer_class = RecipeSerializer],
    [permission_classes = [IsAuthenticatedOrReadOnly, IsOwnerOrReadOnly]] *)
Definition RecipeViewSet_permission_classes : list permission :=
  [IsAuthenticatedOrReadOnly; IsOwnerOrReadOnly].

(** [RecipeViewSet.update]:
[[
    recipe = self.get_object()
    if recipe.author != request.user:
        raise PermissionDenied("You can only edit your own recipes.")
    return super().update(request, *args, **kwargs)
]] *)
Definition RecipeViewSet_update (method : http_method)
    (request : Request ItemData) (pk : nat) (now : nat) : M Response :=
  recipe <- get_object RecipeViewSet_permission_classes method request pk ;;
  if negb (author_is_user recipe (user request)) then raise PermissionDenied
  else super_update RecipeViewSet_permission_classes RecipeSerializer_is_valid
         RecipeSerializer_data method request pk now.

(** [RecipeViewSet.destroy]:
[[
    recipe = self.get_object()
    if recipe.author != request.user:
        raise PermissionDenied("You can only delete your own recipes.")
    return super().destroy(request, *args, **kwargs)
]] *)
Definition RecipeViewSet_destroy {D : Type} (request : Request D) (pk : nat)
    : M Response :=
  recipe <- get_object RecipeViewSet_permission_classes DELETE request pk ;;
  if negb (author_is_user recipe (user request)) then raise PermissionDenied
  else super_destroy RecipeViewSet_permission_classes request pk.

Definition RecipeViewSet_put (request : Request ItemData) (pk now : nat)
    (db : DB) : Response * DB :=
  as_view (check_permissions RecipeViewSet_permission_classes PUT (user request) ;;
           RecipeViewSet_update PUT request pk now) db.

Definition RecipeViewSet_delete {D : Type} (request : Request D) (pk : nat)
    (db : DB) : Response * DB :=
  as_view (check_permissions RecipeViewSet_permission_classes DELETE (user request) ;;
           RecipeViewSet_destroy request pk) db.

(** [author__username__icontains=query]: the join with the author's row. *)
Definition author_username_icontains (db : DB) (r : Recipe) (query : string) : bool :=
  existsb (fun u => (user_pk u =? recipe_author r) && icontains (user_username u) query)
          (users db).

(** [search_recipes]:
[[
    query = request.GET.get('q', '')
    if not query:
        return Response({'results': []})
    recipes = Recipe.objects.filter(
        Q(title__icontains=query) |
        Q(description__icontains=query) |
        Q(author__username__icontains=query)
    ).select_related('author').prefetch_related('images')[:20]
    serializer = RecipeSerializer(recipes, many=True)
    return Response({'results': serializer.data})
]] *)
Definition search_recipes_queryset (request : Request ListParams) (db : DB)
    : list Recipe :=
  let query := match q (data request) with Some s => s | None => "" end in
  if negb (truthy (Some query)) then []
  else
    firstn 20
      (filter (fun r => icontains (recipe_title r) query
                        || icontains (recipe_description r) query
                        || author_username_icontains db r query)
              (recipes db)).

Definition search_recipes (request : Request ListParams) (db : DB) : Response :=
  Response_ok
    (JObj [("results",
            JArr (map (RecipeSerializer_data db) (search_recipes_queryset request db)))]).

(* ================================================================== *)
(** ** Comments *)
(* ================================================================== *)

(** [ORDER BY created_at DESC], the [ordering = ['-created_at']] of
    [Comment.Meta]: an insertion of each row before the first row that is
    not newer. *)
Fixpoint insert_newest_first (c : Comment) (l : list Comment) : list Comment :=
  match l with
  | [] => [c]
  | x :: l' =>
      if comment_created_at x <=? comment_created_at c then c :: x :: l'
      else x :: insert_newest_first c l'
  end.

Definition order_by_created_at_desc (l : list Comment) : list Comment :=
  fold_right insert_newest_first [] l.

(** [item.comments.all()]: the comments of a recipe under the default
    ordering of the model; the listing endpoint returns them in this order. *)
Definition comments_all (db : DB) (item_id : nat) : list Comment :=
  order_by_created_at_desc (filter (fun c => comment_item c =? item_id) (comments db)).

(** [CommentSerializer.create]:
[[
    user = self.context['request'].user
    item_id = self.context.get('item_id')
    comment = Comment.objects.create(user=user, item_id=item_id, **validated_data)
    return comment
]] *)
Definition CommentSerializer_create {D : Type} (request : Request D)
    (item_id : nat) (content : string) (now : nat) : M Comment :=
  user <- request_user request ;;
  fun db =>
    let row := mkComment (next_pk comment_pk (comments db)) (user_pk user) item_id
                 content now now in
    Ok (row, set_comments db (comments db ++ [row])).

(** "Newest first". *)
Definition newest_first (l : list Comment) : Prop :=
  StronglySorted (fun a b => comment_created_at b <= comment_created_at a) l.

(* ================================================================== *)
(** ** Parts of the API that the guides only document *)
(* ================================================================== *)

(** Modelled from the spec: the [max_time] filter of [listRecipes]
    (the list view of recipes/views is not among the sources; the API
    reference only lists the query parameter).  The specification reads
    "max total time (prep+cook)". *)
Definition listRecipes_max_time (max_time : nat) (queryset : list Recipe)
    : list Recipe :=
  filter (fun r => recipe_prep_time r + recipe_cook_time r <=? max_time) queryset.

(** Modelled from the spec: [likeRecipe], the view behind
    [POST /api/interactions/recipes/<id>/like/] (interactions/views.py is
    not among the sources; the API reference gives the endpoint and its
    answer, 201 with a message).  The specification reads "idempotent
    creation of the Like record; liking twice is a no-op (not an error)",
    for an authenticated caller and an existing recipe. *)
Definition likeRecipe_body (recipe_id now : nat) (request : Request unit)
    : M Response :=
  recipe <- query (fun db =>
              get_object_or_404 (fun r => recipe_pk r =? recipe_id) (recipes db)) ;;
  user <- request_user request ;;
  Like_objects_get_or_create (user_pk user) (recipe_pk recipe) now ;;
  ret (mkResponse (JObj [("message", JStr "Recipe liked successfully")])
         HTTP_201_CREATED).

Definition likeRecipe (request : Request unit) (recipe_id now : nat) (db : DB)
    : Response * DB :=
  as_view (api_view POST [IsAuthenticated] (likeRecipe_body recipe_id now) request) db.

(** Modelled from the spec: [unlikeRecipe], the view behind
    [POST /api/interactions/recipes/<id>/unlike/] (interactions/views.py is
    not among the sources).  The specification reads "idempotent removal of
    the Like record; unliking a non-existent like is a no-op"; the API
    reference gives the response as 204 without content. *)
Definition unlikeRecipe_body (recipe_id : nat) (request : Request unit)
    : M Response :=
  recipe <- query (fun db =>
              get_object_or_404 (fun r => recipe_pk r =? recipe_id) (recipes db)) ;;
  user <- request_user request ;;
  write (fun db =>
    set_likes db
      (filter (fun l => negb (like_key (user_pk user) (recipe_pk recipe) l)) (likes db))) ;;
  ret (mkResponse JNull HTTP_204_NO_CONTENT).

Definition unlikeRecipe (request : Request unit) (recipe_id : nat) (db : DB)
    : Response * DB :=
  as_view (api_view POST [IsAuthenticated] (unlikeRecipe_body recipe_id) request) db.

(* ================================================================== *)
(** ** Integrity of the store *)
(* ================================================================== *)

(** The constraints the database enforces: primary keys are unique in each
    table, and so are the pairs of the [unique_together] of Rating and Like
    and the [unique=True] email of User. *)
Record integrity (db : DB) : Prop := mkIntegrity {
  recipe_pk_unique : NoDup (map recipe_pk (recipes db));
  rating_pk_unique : NoDup (map rating_pk (ratings db));
  like_pk_unique : NoDup (map like_pk (likes db));
  rating_unique_together : NoDup (map rating_pair (ratings db));
  like_unique_together : NoDup (map like_pair (likes db));
  email_unique : NoDup (map user_email (users db))
}.

(** Every mutating request of the sources that addresses a recipe by its
    primary key, and its dispatch to the view. *)
Inductive mutation : Type :=
| UpdateItem (d : ItemData) (now : nat)
| DestroyItem
| RateItem (d : RateData) (now : nat)
| UpdateRecipe (d : ItemData) (now : nat)
| DestroyRecipe
| RateRecipe (d : ScoreData) (now : nat)
| LikeRecipe (now : nat).

Definition perform (op : mutation) (caller : RequestUser) (pk : nat) (db : DB)
    : Response * DB :=
  match op with
  | UpdateItem d now => ItemDetailView_put (mkRequest caller d) pk now db
  | DestroyItem => ItemDetailView_delete (mkRequest caller tt) pk db
  | RateItem d now => rate_item (mkRequest caller d) pk now db
  | UpdateRecipe d now => RecipeViewSet_put (mkRequest caller d) pk now db
  | DestroyRecipe => RecipeViewSet_delete (mkRequest caller tt) pk db
  | RateRecipe d now => rate_recipe (mkRequest caller d) pk now db
  | LikeRecipe now => like_recipe (mkRequest caller tt) pk now db
  end.

(* ================================================================== *)
(** ** A small store to run the views on *)
(* ================================================================== *)

Definition alice : User := mkUser 1 "alice@example.com" "alice" "hash:pw-alice" "".
Definition bob : User := mkUser 2 "bob@example.com" "bob" "hash:pw-bob" "".

(** The scenario recipe of the specification: "Pasta", 10 minutes of
    preparation and 20 of cooking, owned by alice. *)
Definition pasta : Recipe :=
  mkRecipe 1 "Pasta" "Quick dinner" ["spaghetti"; "Garlic"] 10 20 "Easy" 1 100 100.

Definition sample_db : DB :=
  mkDB [alice; bob] [pasta]
       [mkRating 1 2 1 4%Z 110]
       [mkLike 1 2 1 120]
       [mkComment 1 2 1 "Nice" 130 130; mkComment 2 1 1 "Thanks" 140 140].

(** A hasher for the examples: the stored hash is the password behind a
    fixed prefix. *)
Definition sample_check_password_hash (raw encoded : string) : bool :=
  String.eqb (String.append "hash:" raw) encoded.

Definition sample_access_token (u : User) : string :=
  String.append "token-of-" (user_username u).



(** The match on the two text columns the list view filters on. *)
Definition matches_title_description (query : string) (r : Recipe) : Prop :=
  ci_substring query (recipe_title r) \/ ci_substring query (recipe_description r).

(** [GET /api/items/?q=...] *)
Definition list_request (caller : RequestUser) (search : string)
    : Request ListParams :=
  mkRequest caller (mkListParams (Some search) None).

(** [POST /api/auth/login/] with both fields present. *)
Definition login_request (e p : string) : Request LoginData :=
  mkRequest AnonymousUser (mkLoginData (Some e) (Some p)).

(** The body of a successful login. *)
Definition login_success (access_token : User -> string) (u : User) : Response :=
  Response_ok (JObj [("user", UserSerializer_data u);
                     ("token", JStr (access_token u))]).

(** The effect of an upsert on the Rating table, written out: the one row
    of the pair gets the new value, or a row is appended when there is none. *)
Definition upsert_rating (user_id item_id : nat) (value : Z) (now : nat)
    (table : list Rating) : list Rating :=
  match filter (rating_key user_id item_id) table with
  | [] => table ++ [mkRating (next_pk rating_pk table) user_id item_id value now]
  | [row] => save rating_pk (set_rating row value) table
  | _ :: _ :: _ => table
  end.

(** [POST .../rate/] by an authenticated caller. *)
Definition score_request (u : User) (s : Z) : Request ScoreData :=
  mkRequest (AuthUser u) (mkScoreData (Some s)).

Definition rating_request (u : User) (s : Z) : Request RateData :=
  mkRequest (AuthUser u) (mkRateData (Some s)).

(** The effect of [like_recipe] on the Like table, written out: the row of
    the pair is deleted when there is one and appended when there is none. *)
Definition toggle_like (user_id item_id : nat) (now : nat) (table : list Like)
    : list Like :=
  match filter (like_key user_id item_id) table with
  | [] => table ++ [mkLike (next_pk like_pk table) user_id item_id now]
  | [row] => delete like_pk row table
  | _ :: _ :: _ => table
  end.

(** [POST .../like/] and [.../unlike/] by an authenticated caller. *)
Definition like_request (u : User) : Request unit := mkRequest (AuthUser u) tt.

Definition liked (b : bool) : Response := Response_ok (JObj [("liked", JBool b)]).

(** Which requests pass through a permission class that wants a login:
    [IsAuthenticated] on [rate_item] and [like_recipe],
    [IsAuthenticatedOrReadOnly] on [RecipeViewSet]; [ItemDetailView] has
    [AllowAny] and [rate_recipe] is not decorated. *)
Definition requires_authentication (op : mutation) : bool :=
  match op with
  | RateItem _ _ | LikeRecipe _ | UpdateRecipe _ _ | DestroyRecipe => true
  | UpdateItem _ _ | DestroyItem | RateRecipe _ _ => false
  end.

(* ================================================================== *)
(** ** Further entry points of the views *)
(* ================================================================== *)

(** [PATCH /api/items/<pk>/]: [partial_update] sets [partial] and calls the
    same [update]. *)
Definition ItemDetailView_patch (request : Request ItemData) (pk now : nat)
    (db : DB) : Response * DB :=
  as_view (check_permissions ItemDetailView_permission_classes PATCH (user request) ;;
           ItemDetailView_update PATCH request pk now) db.

(** [ItemListCreateView.get_permissions]:
[[
    if self.request.method == 'POST':
        return [IsAuthenticated()]
    return [AllowAny()]
]] *)
Definition ItemListCreateView_get_permissions (method : http_method)
    : list permission :=
  match method with
  | POST => [IsAuthenticated]
  | _ => [AllowAny]
  end.

(** [ItemCreateSerializer]: [fields = ('title', 'description', 'difficulty',
    'image')], all of the text columns required. *)
Definition ItemCreateSerializer_is_valid (d : ItemData)
    : option (string * string * string) :=
  match validate_field false (CharField_run_validation None (Some 200)) "" (title d),
        validate_field false (CharField_run_validation None None) "" (description d),
        validate_field false (ChoiceField_run_validation DIFFICULTY_CHOICES) ""
          (item_difficulty d) with
  | Some t, Some de, Some di => Some (t, de, di)
  | _, _, _ => None
  end.

(** [ItemCreateSerializer.create]:
[[
    user = self.context['request'].user
    item = Item.objects.create(author=user, **validated_data)
    return item
]]
    The columns the tutorial model does not have start empty. *)
Definition ItemCreateSerializer_create {D : Type} (request : Request D)
    (validated_data : string * string * string) (now : nat) : M Recipe :=
  user <- request_user request ;;
  fun db =>
    let '(t, de, di) := validated_data in
    let row := mkRecipe (next_pk recipe_pk (recipes db)) t de [] 0 0 di
                 (user_pk user) now now in
    Ok (row, set_recipes db (recipes db ++ [row])).

Definition ItemCreateSerializer_data (obj : Recipe) : json :=
  JObj [("title", JStr (recipe_title obj));
        ("description", JStr (recipe_description obj));
        ("difficulty", JStr (recipe_difficulty obj));
        ("image", JNull)].

(** [POST /api/items/]: the [create] of [ListCreateAPIView] with the
    serializer [get_serializer_class] picks for [POST]. *)
Definition ItemListCreateView_post (request : Request ItemData) (now : nat)
    (db : DB) : Response * DB :=
  as_view
    (check_permissions (ItemListCreateView_get_permissions POST) POST (user request) ;;
     match ItemCreateSerializer_is_valid (data request) with
     | Some validated_data =>
         row <- ItemCreateSerializer_create request validated_data now ;;
         ret (mkResponse (ItemCreateSerializer_data row) HTTP_201_CREATED)
     | None => ret (mkResponse JErrors HTTP_400_BAD_REQUEST)
     end) db.

(** [order_by('-created_at')] on recipes. *)
Fixpoint insert_recipe_newest_first (r : Recipe) (l : list Recipe) : list Recipe :=
  match l with
  | [] => [r]
  | x :: l' =>
      if recipe_created_at x <=? recipe_created_at r then r :: x :: l'
      else x :: insert_recipe_newest_first r l'
  end.

Definition recipes_order_by_created_at_desc (l : list Recipe) : list Recipe :=
  fold_right insert_recipe_newest_first [] l.

(** [my_items], [@api_view(['GET'])], [@permission_classes([IsAuthenticated])]:
[[
    items = Item.objects.filter(author=request.user).order_by('-created_at')
    serializer = ItemSerializer(items, many=True, context={'request': request})
    return Response({'results': serializer.data, 'count': items.count()})
]] *)
Definition my_items_queryset {D : Type} (request : Request D) (db : DB)
    : list Recipe :=
  recipes_order_by_created_at_desc
    (filter (fun i => author_is_user i (user request)) (recipes db)).

Definition my_items_body (request : Request unit) : M Response :=
  fun db =>
    let items := my_items_queryset request db in
    ret (Response_ok
           (JObj [("results", JArr (map (ItemSerializer_data (Some request) db) items));
                  ("count", JInt (Z.of_nat (qs_count items)))])) db.

Definition my_items (request : Request unit) (db : DB) : Response * DB :=
  as_view (api_view GET [IsAuthenticated] my_items_body request) db.

Definition recipes_newest_first (l : list Recipe) : Prop :=
  StronglySorted (fun a b => recipe_created_at b <= recipe_created_at a) l.

(** The match [search_recipes] filters on. *)
Definition matches_title_description_author (db : DB) (query : string) (r : Recipe)
    : Prop :=
  matches_title_description query r
  \/ exists u, In u (users db) /\ user_pk u = recipe_author r
               /\ ci_substring query (user_username u).

(** Body of [POST /api/auth/register/]. *)
Record RegisterData : Type := mkRegisterData {
  register_username : option string;
  register_email : option string;
  register_password : option string;
  register_password_confirm : option string
}.

Definition set_users (db : DB) (t : list User) : DB :=
  mkDB t (recipes db) (ratings db) (likes db) (comments db).

Section Registration.

(** What the framework brings: the validators of the [username] column of
    [AbstractUser] (its length, its characters, and its uniqueness among the
    stored accounts), the length and format checks of [EmailField], the
    password hasher behind [set_password], and the access token of
    [RefreshToken.for_user]. *)
Variable valid_username : list User -> string -> bool.
Variable valid_email : string -> bool.
Variable make_password : string -> string.
Variable access_token : User -> string.

(** [UserRegistrationSerializer.is_valid()]: the four fields are required
    character fields, validated as such (and so trimmed); [email] is
    [unique=True]; [password] has [min_length=8]; then, on the validated
    values,
[[
    def validate(self, data):
        if data['password'] != data['password_confirm']:
            raise serializers.ValidationError("Passwords do not match.")
        return data
]] *)
Definition UserRegistrationSerializer_is_valid (db : DB) (d : RegisterData)
    : option (string * string * string) :=
  match validate_field false (CharField_run_validation None None) ""
          (register_username d),
        validate_field false (CharField_run_validation None None) ""
          (register_email d),
        validate_field false (CharField_run_validation (Some 8) None) ""
          (register_password d),
        validate_field false (CharField_run_validation None None) ""
          (register_password_confirm d) with
  | Some un, Some em, Some pw, Some pc =>
      if valid_username (users db) un
         && valid_email em
         && negb (existsb (fun u => String.eqb (user_email u) em) (users db))
      then if negb (String.eqb pw pc) then None else Some (un, em, pw)
      else None
  | _, _, _, _ => None
  end.

(** [User.objects.create( **validated_data )]: a fresh primary key, no
    password yet; the unique index on [email] refuses a second row. *)
Definition User_objects_create (un em : string) : M User :=
  fun db =>
    if existsb (fun u => String.eqb (user_email u) em) (users db)
    then Raise IntegrityError
    else
      let row := mkUser (next_pk user_pk (users db)) em un "" "" in
      Ok (row, set_users db (users db ++ [row])).

(** [user.set_password(raw)] *)
Definition set_password (u : User) (raw : string) : User :=
  mkUser (user_pk u) (user_email u) (user_username u) (make_password raw) (user_bio u).

Definition User_save (row : User) : M unit :=
  write (fun db => set_users db (save user_pk row (users db))).

(** [UserRegistrationSerializer.create]:
[[
    validated_data.pop('password_confirm')
    password = validated_data.pop('password')
    user = User.objects.create( **validated_data )
    user.set_password(password)
    user.save()
    return user
]] *)
Definition UserRegistrationSerializer_create
    (validated_data : string * string * string) : M User :=
  let '(un, em, password) := validated_data in
  user <- User_objects_create un em ;;
  let user := set_password user password in
  User_save user ;;
  ret user.

(** [register], [@permission_classes([AllowAny])]:
[[
    serializer = UserRegistrationSerializer(data=request.data)
    if serializer.is_valid():
        user = serializer.save()
        refresh = RefreshToken.for_user(user)
        return Response({'user': UserSerializer(user).data,
                         'token': str(refresh.access_token)}, status=201)
    return Response(serializer.errors, status=400)
]] *)
Definition register_body (request : Request RegisterData) : M Response :=
  fun db =>
    match UserRegistrationSerializer_is_valid db (data request) with
    | Some validated_data =>
        (user <- UserRegistrationSerializer_create validated_data ;;
         ret (mkResponse
                (JObj [("user", UserSerializer_data user);
                       ("token", JStr (access_token user))])
                HTTP_201_CREATED)) db
    | None => ret (mkResponse JErrors HTTP_400_BAD_REQUEST) db
    end.

Definition register (request : Request RegisterData) (db : DB) : Response * DB :=
  as_view (api_view POST [AllowAny] register_body request) db.

End Registration.

(** [POST /api/auth/register/] with the four fields present. *)
Definition register_request (un em pw pc : string) : Request RegisterData :=
  mkRequest AnonymousUser (mkRegisterData (Some un) (Some em) (Some pw) (Some pc)).

(** Validators for the examples. *)
Definition sample_valid_username (stored : list User) (un : string) : bool :=
  negb (existsb (fun u => String.eqb (user_username u) un) stored).

Definition sample_valid_email (em : string) : bool := contains em "@".

Definition sample_make_password (raw : string) : string := String.append "hash:" raw.

(** [user_profile], [@api_view(['GET'])], [@permission_classes([IsAuthenticated])]:
[[
    serializer = UserSerializer(request.user)
    return Response(serializer.data)
]] *)
Definition user_profile_body (request : Request unit) : M Response :=
  user <- request_user request ;;
  ret (Response_ok (UserSerializer_data user)).

Definition user_profile (request : Request unit) (db : DB) : Response * DB :=
  as_view (api_view GET [IsAuthenticated] user_profile_body request) db.

(* ================================================================== *)
(** ** Cookbooks *)
(* ================================================================== *)

(** recipes/models.py, [Cookbook]; [recipes] is a many-to-many field, kept
    as the pairs (cookbook, recipe) of its join table. *)
Record Cookbook : Type := mkCookbook {
  cookbook_pk : nat;
  cookbook_name : string;
  cookbook_description : string;
  cookbook_owner : nat;
  cookbook_is_public : bool;
  cookbook_created_at : nat
}.

Record CookbookDB : Type := mkCookbookDB {
  base : DB;
  cookbooks : list Cookbook;
  cookbook_recipes : list (nat * nat)
}.

Definition set_cookbook_recipes (cdb : CookbookDB) (t : list (nat * nat))
    : CookbookDB :=
  mkCookbookDB (base cdb) (cookbooks cdb) t.

Section OrderBy.

Context {A : Type}.
Variable created_at : A -> nat.

(** [ordering = ['-created_at']] for any model. *)
Fixpoint insert_newest (x : A) (l : list A) : list A :=
  match l with
  | [] => [x]
  | y :: l' =>
      if created_at y <=? created_at x then x :: y :: l'
      else y :: insert_newest x l'
  end.

Definition order_by_newest (l : list A) : list A := fold_right insert_newest [] l.

End OrderBy.

(** [cookbook.owner == request.user] *)
Definition owner_is_user (c : Cookbook) (ru : RequestUser) : bool :=
  match ru with
  | AnonymousUser => false
  | AuthUser u => cookbook_owner c =? user_pk u
  end.

(** [CookbookViewSet.get_queryset]:
[[
    if self.request.user.is_authenticated:
        return Cookbook.objects.filter(
            models.Q(owner=self.request.user) | models.Q(is_public=True))
    return Cookbook.objects.filter(is_public=True)
]] *)
Definition CookbookViewSet_get_queryset {D : Type} (request : Request D)
    (cdb : CookbookDB) : list Cookbook :=
  order_by_newest cookbook_created_at
    (if is_authenticated (user request) then
       filter (fun c => owner_is_user c (user request) || cookbook_is_public c)
              (cookbooks cdb)
     else filter cookbook_is_public (cookbooks cdb)).

(** Body of the [add_recipe] and [remove_recipe] actions:
    [request.data.get('recipe_id')]. *)
Record CookbookRecipeData : Type := mkCookbookRecipeData {
  recipe_id : option nat
}.

(** [cookbook.recipes.add(recipe)]: a pair that is there is not added again;
    [cookbook.recipes.remove(recipe)]. *)
Definition pair_eqb (a b : nat * nat) : bool :=
  (fst a =? fst b) && (snd a =? snd b).

Definition m2m_add (cookbook_id recipe_id : nat) (t : list (nat * nat))
    : list (nat * nat) :=
  if existsb (pair_eqb (cookbook_id, recipe_id)) t then t
  else t ++ [(cookbook_id, recipe_id)].

Definition m2m_remove (cookbook_id recipe_id : nat) (t : list (nat * nat))
    : list (nat * nat) :=
  filter (fun p => negb (pair_eqb (cookbook_id, recipe_id) p)) t.

(** [Recipe.objects.get(id=recipe_id)]; a null id selects no row. *)
Definition Recipe_objects_get_id (id : option nat) (db : DB) : result Recipe :=
  match id with
  | Some n => objects_get (fun r => recipe_pk r =? n) (recipes db)
  | None => Raise DoesNotExist
  end.

(** The two actions differ in what they do to the join table and in their
    message. *)
Definition cookbook_action {D : Type} (request : Request D) (pk : nat)
    (id : option nat) (change : nat -> nat -> list (nat * nat) -> list (nat * nat))
    (message : string) (cdb : CookbookDB) : Response * CookbookDB :=
  if negb (forallb (fun p => has_permission p POST (user request)) [IsAuthenticated])
  then (exception_handler (permission_denied (user request)), cdb)
  else
    match get_object_or_404 (fun c => cookbook_pk c =? pk)
            (CookbookViewSet_get_queryset request cdb) with
    | Raise e => (exception_handler e, cdb)
    | Ok cookbook =>
        if negb (owner_is_user cookbook (user request)) then
          (mkResponse (JObj [("error", JStr "Permission denied")]) HTTP_403_FORBIDDEN,
           cdb)
        else
          match Recipe_objects_get_id id (base cdb) with
          | Raise DoesNotExist =>
              (mkResponse (JObj [("error", JStr "Recipe not found")])
                 HTTP_404_NOT_FOUND, cdb)
          | Raise e => (exception_handler e, cdb)
          | Ok recipe =>
              (Response_ok (JObj [("success", JBool true); ("message", JStr message)]),
               set_cookbook_recipes cdb
                 (change (cookbook_pk cookbook) (recipe_pk recipe)
                    (cookbook_recipes cdb)))
          end
    end.

(** [CookbookViewSet.add_recipe],
    [@action(detail=True, methods=['post'], permission_classes=[IsAuthenticated])]:
[[
    cookbook = self.get_object()
    if cookbook.owner != request.user:
        return Response({'error': 'Permission denied'}, status=403)
    recipe_id = request.data.get('recipe_id')
    try:
        recipe = Recipe.objects.get(id=recipe_id)
        cookbook.recipes.add(recipe)
        return Response({'success': True, 'message': 'Recipe added to cookbook'})
    except Recipe.DoesNotExist:
        return Response({'error': 'Recipe not found'}, status=404)
]] *)
Definition CookbookViewSet_add_recipe (request : Request CookbookRecipeData)
    (pk : nat) (cdb : CookbookDB) : Response * CookbookDB :=
  cookbook_action request pk (recipe_id (data request)) m2m_add
    "Recipe added to cookbook" cdb.

(** [CookbookViewSet.remove_recipe], the same with
    [cookbook.recipes.remove(recipe)] and its own message. *)
Definition CookbookViewSet_remove_recipe (request : Request CookbookRecipeData)
    (pk : nat) (cdb : CookbookDB) : Response * CookbookDB :=
  cookbook_action request pk (recipe_id (data request)) m2m_remove
    "Recipe removed from cookbook" cdb.

(** [Cookbook.recipe_count]: [self.recipes.count()] *)
Definition recipe_count (cdb : CookbookDB) (c : Cookbook) : nat :=
  List.length (filter (fun p => fst p =? cookbook_pk c) (cookbook_recipes cdb)).

(** [CookbookViewSet.my_cookbooks]:
[[
    if not request.user.is_authenticated:
        return Response({'error': 'Authentication required'}, status=401)
    cookbooks = Cookbook.objects.filter(owner=request.user)
    serializer = CookbookListSerializer(cookbooks, many=True)
    return Response(serializer.data)
]] *)
Definition my_cookbooks_queryset {D : Type} (request : Request D) (cdb : CookbookDB)
    : list Cookbook :=
  order_by_newest cookbook_created_at
    (filter (fun c => owner_is_user c (user request)) (cookbooks cdb)).

Definition CookbookListSerializer_data (cdb : CookbookDB) (c : Cookbook) : json :=
  JObj [("id", JInt (Z.of_nat (cookbook_pk c)));
        ("name", JStr (cookbook_name c));
        ("description", JStr (cookbook_description c));
        ("owner_name",
          match find (fun u => user_pk u =? cookbook_owner c) (users (base cdb)) with
          | Some u => JStr (user_username u)
          | None => JNull
          end);
        ("recipe_count", JInt (Z.of_nat (recipe_count cdb c)));
        ("is_public", JBool (cookbook_is_public c));
        ("created_at", JInt (Z.of_nat (cookbook_created_at c)))].

Definition CookbookViewSet_my_cookbooks {D : Type} (request : Request D)
    (cdb : CookbookDB) : Response :=
  if negb (is_authenticated (user request)) then
    mkResponse (JObj [("error", JStr "Authentication required")]) HTTP_401_UNAUTHORIZED
  else
    Response_ok
      (JArr (map (CookbookListSerializer_data cdb) (my_cookbooks_queryset request cdb))).

(** Who sees a cookbook. *)
Definition visible_to (c : Cookbook) (ru : RequestUser) : bool :=
  owner_is_user c ru || cookbook_is_public c.

(** Primary keys of cookbooks are unique, and so are those of the recipes
    underneath. *)
Definition cookbook_integrity (cdb : CookbookDB) : Prop :=
  integrity (base cdb) /\ NoDup (map cookbook_pk (cookbooks cdb)).

(** A cookbook store over the sample store: a private and a public cookbook
    of alice, the public one holding the pasta. *)
Definition sample_cookbooks : CookbookDB :=
  mkCookbookDB sample_db
    [mkCookbook 1 "Secret" "" 1 false 500; mkCookbook 2 "Weeknights" "" 1 true 510]
    [(2, 1)].

Definition cookbook_request (caller : RequestUser) (id : nat)
    : Request CookbookRecipeData :=
  mkRequest caller (mkCookbookRecipeData (Some id)).

(* ================================================================== *)
(** ** Token authentication *)
(* ================================================================== *)

(** [rest_framework.authtoken.models.Token]: the key is the primary key, the
    user a one-to-one field. *)
Record Token : Type := mkToken {
  token_key : string;
  token_user : nat
}.

Record TokenDB : Type := mkTokenDB {
  token_base : DB;
  tokens : list Token
}.

(** What [authenticate] gives back or raises. *)
Inductive authentication : Type :=
| NoCredentials
| Authenticated (u : User) (t : Token)
| AuthenticationFailed (detail : string)
| IndexError
| Raised (e : exn).

Section TokenAuthentication.

(** [user.is_active], a column of [AbstractUser]. *)
Variable is_active : User -> bool.

(** [TokenAuthentication.authenticate_credentials]:
[[
    try:
        token = Token.objects.get(key=key)
    except Token.DoesNotExist:
        raise AuthenticationFailed('Invalid token')
    if not token.user.is_active:
        raise AuthenticationFailed('User inactive')
    return (token.user, token)
]] *)
Definition authenticate_credentials (key : string) (tdb : TokenDB) : authentication :=
  match objects_get (fun t => String.eqb (token_key t) key) (tokens tdb) with
  | Raise DoesNotExist => AuthenticationFailed "Invalid token"
  | Raise e => Raised e
  | Ok token =>
      match objects_get (fun u => user_pk u =? token_user token)
              (users (token_base tdb)) with
      | Raise e => Raised e
      | Ok user =>
          if negb (is_active user) then AuthenticationFailed "User inactive"
          else Authenticated user token
      end
  end.

(** [TokenAuthentication.authenticate], on the words of the authorization
    header:
[[
    auth = get_authorization_header(request).split()
    if not auth or auth[0].lower() != b'token':
        return None
    token = auth[1].decode()
    return self.authenticate_credentials(token)
]] *)
Definition authenticate (auth : list string) (tdb : TokenDB) : authentication :=
  match auth with
  | [] => NoCredentials
  | scheme :: rest =>
      if negb (String.eqb (lower scheme) "token") then NoCredentials
      else
        match rest with
        | [] => IndexError
        | token :: _ => authenticate_credentials token tdb
        end
  end.

End TokenAuthentication.

(** [create_auth_token], the [post_save] receiver of [User]:
[[
    if created:
        Token.objects.create(user=instance)
]]
    [key] is the key the new token draws; both columns are unique. *)
Definition create_auth_token (instance : User) (created : bool) (key : string)
    (tdb : TokenDB) : result TokenDB :=
  if created then
    if existsb (fun t => String.eqb (token_key t) key
                         || (token_user t =? user_pk instance)) (tokens tdb)
    then Raise IntegrityError
    else Ok (mkTokenDB (token_base tdb) (tokens tdb ++ [mkToken key (user_pk instance)]))
  else Ok tdb.

(** [logout_view], [@permission_classes([IsAuthenticated])]:
[[
    try:
        request.user.auth_token.delete()
        return Response({'message': 'Successfully logged out'})
    except:
        return Response({'error': 'Error logging out'}, status=400)
]] *)
Definition logout_view (request : Request unit) (tdb : TokenDB) : Response * TokenDB :=
  match user request with
  | AnonymousUser => (exception_handler (permission_denied (user request)), tdb)
  | AuthUser u =>
      match objects_get (fun t => token_user t =? user_pk u) (tokens tdb) with
      | Ok auth_token =>
          (Response_ok (JObj [("message", JStr "Successfully logged out")]),
           mkTokenDB (token_base tdb)
             (filter (fun t => negb (String.eqb (token_key t) (token_key auth_token)))
                     (tokens tdb)))
      | Raise _ =>
          (mkResponse (JObj [("error", JStr "Error logging out")])
             HTTP_400_BAD_REQUEST, tdb)
      end
  end.

(** Keys are unique, each account has at most one token, and the primary
    keys of the accounts are unique. *)
Record token_integrity (tdb : TokenDB) : Prop := mkTokenIntegrity {
  token_key_unique : NoDup (map token_key (tokens tdb));
  token_user_unique : NoDup (map token_user (tokens tdb));
  user_pk_unique : NoDup (map user_pk (users (token_base tdb)))
}.

Definition sample_tokens : TokenDB :=
  mkTokenDB sample_db [mkToken "9944b09199c62bcf" 1].

(** Whether the update is partial, as [super_update] reads it off the method. *)
Definition is_partial (method : http_method) : bool :=
  match method with
  | PATCH => true
  | _ => false
  end.

(* ================================================================== *)
(** ** Further invariants of the store *)
(* ================================================================== *)

(** Every stored rating is one of the choices of the model field. *)
Definition ratings_valid (db : DB) : Prop :=
  Forall (fun r => (1 <= rating_rating r <= 5)%Z) (ratings db).

(** The foreign keys of Rating, Like and Comment point at stored recipes. *)
Definition item_stored (db : DB) (item_id : nat) : Prop :=
  exists r, In r (recipes db) /\ recipe_pk r = item_id.

Record foreign_keys (db : DB) : Prop := mkForeignKeys {
  rating_item_stored : forall r, In r (ratings db) -> item_stored db (rating_item r);
  like_item_stored : forall l, In l (likes db) -> item_stored db (like_item l);
  comment_item_stored : forall c, In c (comments db) -> item_stored db (comment_item c)
}.

(* ================================================================== *)
(** * Properties *)
(* ================================================================== *)

(** ** Lists and lookups *)

Section ListFacts.

Context {A K : Type}.
Variable key : A -> K.

Lemma NoDup_map_inj (l : list A) (x y : A) :
  NoDup (map key l) -> In x l -> In y l -> key x = key y -> x = y.
Proof.
  induction l as [|a l IH]; simpl; intros Hnd Hx Hy Heq; [contradiction|].
  inversion Hnd as [|? ? Hnotin Hnd']; subst.
  destruct Hx as [->|Hx], Hy as [->|Hy]; auto.
  - exfalso. apply Hnotin. rewrite Heq. now apply in_map.
  - exfalso. apply Hnotin. rewrite <- Heq. now apply in_map.
Qed.

(** A filter that selects by a unique key selects at most the one row. *)
Lemma filter_unique_key (p : A -> bool) (l : list A) (x : A) :
  NoDup (map key l) -> In x l -> p x = true ->
  (forall y, In y l -> p y = true -> key y = key x) ->
  filter p l = [x].
Proof.
  induction l as [|a l IH]; simpl; intros Hnd Hx Hpx Hkey; [contradiction|].
  inversion Hnd as [|? ? Hnotin Hnd']; subst.
  assert (Hrest : forall y, In y l -> p y = true -> key y = key x)
    by (intros y Hy; apply Hkey; now right).
  destruct Hx as [->|Hx].
  - rewrite Hpx. f_equal.
    destruct (filter p l) as [|y t] eqn:Hf; [reflexivity|].
    exfalso. assert (Hy : In y (filter p l)) by (rewrite Hf; now left).
    apply filter_In in Hy. destruct Hy as [Hy Hpy].
    apply Hnotin. rewrite <- (Hrest y Hy Hpy). now apply in_map.
  - destruct (p a) eqn:Hpa.
    + exfalso. apply Hnotin.
      rewrite (Hkey a (or_introl eq_refl) Hpa). now apply in_map.
    + now apply IH.
Qed.

Lemma filter_none (p : A -> bool) (l : list A) :
  (forall y, In y l -> p y = false) -> filter p l = [].
Proof.
  induction l as [|a l IH]; simpl; intros H; [reflexivity|].
  rewrite (H a (or_introl eq_refl)). apply IH. intros y Hy. apply H. now right.
Qed.

Lemma filter_nil_all_false (p : A -> bool) (l : list A) :
  filter p l = [] -> forall y, In y l -> p y = false.
Proof.
  intros Hf y Hy. destruct (p y) eqn:Hp; [|reflexivity].
  assert (Hin : In y (filter p l)) by (apply filter_In; auto).
  rewrite Hf in Hin. contradiction.
Qed.

End ListFacts.

Lemma objects_get_unique {A K : Type} (key : A -> K) (p : A -> bool)
    (table : list A) (x : A) :
  NoDup (map key table) -> In x table -> p x = true ->
  (forall y, In y table -> p y = true -> key y = key x) ->
  objects_get p table = Ok x.
Proof.
  intros Hnd Hx Hp Hk. unfold objects_get.
  now rewrite (filter_unique_key key p table x Hnd Hx Hp Hk).
Qed.

Lemma objects_get_missing {A : Type} (p : A -> bool) (table : list A) :
  (forall y, In y table -> p y = false) ->
  objects_get p table = Raise DoesNotExist.
Proof.
  intros H. unfold objects_get. now rewrite (filter_none p table H).
Qed.

(** ** Floats *)

Open Scope Q_scope.

Lemma round_half_even_floor (x : Q) :
  round_half_even x = Qfloor x
  \/ (round_half_even x = (Qfloor x + 1)%Z /\ inject_Z (Qfloor x) < x).
Proof.
  unfold round_half_even.
  destruct (Qcompare (x - inject_Z (Qfloor x)) (1 # 2)) eqn:Hc.
  - destruct (Z.even (Qfloor x)); [now left|right]. split; [reflexivity|].
    apply Qeq_alt in Hc. unfold Qminus in Hc.
    apply Qlt_minus_iff. rewrite Hc. reflexivity.
  - now left.
  - right. split; [reflexivity|].
    apply Qgt_alt in Hc. apply Qlt_minus_iff.
    apply Qlt_trans with (1 # 2); [reflexivity|exact Hc].
Qed.

Lemma round_half_even_ge (k : Z) (x : Q) :
  inject_Z k <= x -> (k <= round_half_even x)%Z.
Proof.
  intros H. apply Qfloor_resp_le in H. rewrite Qfloor_Z in H.
  destruct (round_half_even_floor x) as [->|[-> _]]; lia.
Qed.

Lemma round_half_even_le (k : Z) (x : Q) :
  x <= inject_Z k -> (round_half_even x <= k)%Z.
Proof.
  intros H. destruct (round_half_even_floor x) as [->|[-> Hlt]].
  - apply Qfloor_resp_le in H. now rewrite Qfloor_Z in H.
  - assert (Hk : inject_Z (Qfloor x) < inject_Z k)
      by (eapply Qlt_le_trans; eassumption).
    rewrite <- Zlt_Qlt in Hk. lia.
Qed.

Lemma pow2_pos (e : Z) : 0 < 2 ^ e.
Proof. now apply Qpower_0_lt. Qed.

Lemma pow2_nonzero (e : Z) : ~ 2 ^ e == 0.
Proof. now apply Qpower_not_0. Qed.

Lemma pow2_inject (n : Z) : (0 <= n)%Z -> 2 ^ n == inject_Z (2 ^ n).
Proof. intros H. now rewrite Zpower_Qpower. Qed.

(** [ilog2 x] is the order of magnitude of [x] in base 2. *)
Lemma ilog2_spec (x : Q) :
  0 < x -> 2 ^ ilog2 x <= x /\ x < 2 ^ (ilog2 x + 1).
Proof.
  intros Hx. destruct x as [n d]. 
  assert (Hn : (0 < n)%Z) by (unfold Qlt in Hx; simpl in Hx; lia).
  unfold ilog2. cbn [Qnum Qden].
  set (a := Z.log2 n). set (b := Z.log2 (Z.pos d)).
  assert (Ha : (2 ^ a <= n < 2 ^ (a + 1))%Z).
  { pose proof (Z.log2_spec n Hn) as H. unfold a. now rewrite <- Z.add_1_r in H. }
  assert (Hb : (2 ^ b <= Z.pos d < 2 ^ (b + 1))%Z).
  { pose proof (Z.log2_spec (Z.pos d) eq_refl) as H. unfold b.
    now rewrite <- Z.add_1_r in H. }
  assert (Ha0 : (0 <= a)%Z) by apply Z.log2_nonneg.
  assert (Hb0 : (0 <= b)%Z) by apply Z.log2_nonneg.
  assert (Hd : n # d == inject_Z n / inject_Z (Z.pos d)) by apply Qmake_Qdiv.
  assert (HdQ : 0 < inject_Z (Z.pos d)) by reflexivity.
  destruct (Qle_bool (2 ^ (a - b)) (n # d)) eqn:Hle.
  - apply Qle_bool_iff in Hle. split; [exact Hle|].
    (* n / d < 2^(a+1) / 2^b *)
    replace (a - b + 1)%Z with ((a + 1) - b)%Z by lia.
    rewrite Qpower_minus by discriminate.
    rewrite Hd, !pow2_inject by lia.
    assert (HbQ : 0 < inject_Z (2 ^ b))
      by (rewrite <- pow2_inject by lia; apply pow2_pos).
    apply Qlt_shift_div_l; [exact HbQ|].
    setoid_replace (inject_Z n / inject_Z (Z.pos d) * inject_Z (2 ^ b))
      with (inject_Z n * inject_Z (2 ^ b) / inject_Z (Z.pos d))
      by (field; discriminate).
    apply Qlt_shift_div_r; [exact HdQ|].
    rewrite <- !inject_Z_mult, <- Zlt_Qlt.
    assert (0 < 2 ^ b)%Z by (apply Z.pow_pos_nonneg; lia). nia.
  - assert (Hlt : n # d < 2 ^ (a - b)).
    { apply Qnot_le_lt. intros H. apply Qle_bool_iff in H. congruence. }
    split.
    + replace (a - b - 1)%Z with (a - (b + 1))%Z by lia.
      rewrite Qpower_minus by discriminate.
      rewrite Hd, !pow2_inject by lia.
      assert (HbQ : 0 < inject_Z (2 ^ (b + 1)))
        by (rewrite <- pow2_inject by lia; apply pow2_pos).
      apply Qle_shift_div_r; [exact HbQ|].
      setoid_replace (inject_Z n / inject_Z (Z.pos d) * inject_Z (2 ^ (b + 1)))
        with (inject_Z n * inject_Z (2 ^ (b + 1)) / inject_Z (Z.pos d))
        by (field; discriminate).
      apply Qle_shift_div_l; [exact HdQ|].
      rewrite <- !inject_Z_mult, <- Zle_Qle.
      assert (0 < 2 ^ a)%Z by (apply Z.pow_pos_nonneg; lia). nia.
    + replace (a - b - 1 + 1)%Z with (a - b)%Z by lia. exact Hlt.
Qed.

Lemma Qabs_of_pos (x : Q) : 0 < x -> Qabs x = x.
Proof.
  destruct x as [[|p|p] d]; intros H; try reflexivity;
    unfold Qlt in H; simpl in H; lia.
Qed.

Lemma ilog2_bounds (x : Q) (lo hi : Z) :
  (0 <= lo)%Z -> 2 ^ lo <= x -> x < 2 ^ hi -> (lo <= ilog2 x < hi)%Z.
Proof.
  intros H0 Hlo Hhi.
  assert (Hx : 0 < x) by (eapply Qlt_le_trans; [apply (pow2_pos lo)|exact Hlo]).
  destruct (ilog2_spec x Hx) as [H1 H2]. split.
  - assert (H : 2 ^ lo < 2 ^ (ilog2 x + 1)) by (eapply Qle_lt_trans; eassumption).
    apply Qpower_lt_compat_l_inv in H; [lia|reflexivity].
  - assert (H : 2 ^ ilog2 x < 2 ^ hi) by (eapply Qle_lt_trans; eassumption).
    apply Qpower_lt_compat_l_inv in H; [lia|reflexivity].
Qed.

(** Rounding to a double never crosses an integer below [2^53]: such an
    integer is a double itself. *)
Lemma round_to_double_between (lo hi : Z) (x : Q) :
  (0 < lo)%Z -> (hi < 2 ^ 53)%Z ->
  inject_Z lo <= x -> x <= inject_Z hi ->
  inject_Z lo <= round_to_double x /\ round_to_double x <= inject_Z hi.
Proof.
  intros Hlo Hhi Hl Hh.
  assert (H1 : 2 ^ 0 <= x).
  { apply Qle_trans with (inject_Z lo); [|exact Hl].
    change (2 ^ 0) with (inject_Z 1). rewrite <- Zle_Qle. lia. }
  assert (H53 : x < 2 ^ 53).
  { apply Qle_lt_trans with (inject_Z hi); [exact Hh|].
    rewrite pow2_inject by lia. now rewrite <- Zlt_Qlt. }
  assert (Hx : 0 < x) by (eapply Qlt_le_trans; [apply (pow2_pos 0)|exact H1]).
  destruct (ilog2_bounds x 0 53 (Z.le_refl 0) H1 H53) as [Hk0 Hk53].
  unfold round_to_double.
  destruct (Qeq_bool x 0) eqn:Hz.
  { apply Qeq_bool_iff in Hz. rewrite Hz in Hx. discriminate. }
  rewrite (Qabs_of_pos x Hx). cbv zeta.
  set (s := (52 - ilog2 x)%Z).
  assert (Hs : (0 <= s)%Z) by lia.
  assert (He : 2 ^ (ilog2 x - 52) == / inject_Z (2 ^ s)).
  { replace (ilog2 x - 52)%Z with (- s)%Z by lia.
    now rewrite Qpower_opp, pow2_inject. }
  assert (Hp : 0 < inject_Z (2 ^ s)).
  { rewrite <- pow2_inject by lia. apply pow2_pos. }
  assert (Hy : x / 2 ^ (ilog2 x - 52) == x * inject_Z (2 ^ s)).
  { rewrite He. field. intros H. rewrite H in Hp. discriminate. }
  set (m := round_half_even (x / 2 ^ (ilog2 x - 52))).
  assert (Hm1 : (lo * 2 ^ s <= m)%Z).
  { apply round_half_even_ge. rewrite Hy, inject_Z_mult.
    apply Qmult_le_compat_r; [exact Hl|]. now apply Qlt_le_weak. }
  assert (Hm2 : (m <= hi * 2 ^ s)%Z).
  { apply round_half_even_le. rewrite Hy, inject_Z_mult.
    apply Qmult_le_compat_r; [exact Hh|]. now apply Qlt_le_weak. }
  rewrite He. split.
  - apply Qle_shift_div_l; [exact Hp|].
    rewrite <- inject_Z_mult, <- Zle_Qle. exact Hm1.
  - apply Qle_shift_div_r; [exact Hp|].
    rewrite <- inject_Z_mult, <- Zle_Qle. exact Hm2.
Qed.

Lemma round_to_double_integer (z : Z) :
  (0 < z < 2 ^ 53)%Z -> round_to_double (inject_Z z) == inject_Z z.
Proof.
  intros [H0 H1].
  destruct (round_to_double_between z z (inject_Z z) H0 H1 (Qle_refl _) (Qle_refl _)).
  now apply Qle_antisym.
Qed.

Lemma round_half_even_error (y : Q) :
  Qabs (inject_Z (round_half_even y) - y) <= 1 # 2.
Proof.
  pose proof (Qfloor_le y) as Hf. pose proof (Qlt_floor y) as Hc.
  rewrite inject_Z_plus in Hc. change (inject_Z 1) with 1 in Hc.
  unfold round_half_even.
  set (f := inject_Z (Qfloor y)) in *.
  apply Qabs_Qle_condition.
  destruct (Qcompare (y - f) (1 # 2)) eqn:Hcmp.
  - apply Qeq_alt in Hcmp.
    destruct (Z.even (Qfloor y)).
    + fold f. split.
      * setoid_replace (f - y) with (- (y - f)) by ring. rewrite Hcmp. discriminate.
      * setoid_replace (f - y) with (- (y - f)) by ring. rewrite Hcmp. discriminate.
    + rewrite inject_Z_plus. fold f. change (inject_Z 1) with 1. split.
      * setoid_replace (f + 1 - y) with (1 - (y - f)) by ring. rewrite Hcmp. discriminate.
      * setoid_replace (f + 1 - y) with (1 - (y - f)) by ring. rewrite Hcmp. discriminate.
  - apply Qlt_alt in Hcmp. fold f. split.
    + apply Qle_minus_iff. setoid_replace (f - y + - - (1 # 2)) with ((1 # 2) - (y - f)) by ring.
      apply -> Qle_minus_iff. now apply Qlt_le_weak.
    + apply Qle_minus_iff. setoid_replace ((1 # 2) + - (f - y)) with ((1 # 2) + (y - f)) by ring.
      apply Qle_trans with (0 + (y - f)).
      * rewrite Qplus_0_l. apply -> Qle_minus_iff. exact Hf.
      * apply Qplus_le_compat; [discriminate|apply Qle_refl].
  - apply Qgt_alt in Hcmp. rewrite inject_Z_plus. fold f. change (inject_Z 1) with 1. split.
    + apply Qle_minus_iff. setoid_replace (f + 1 - y + - - (1 # 2)) with ((f + 1 - y) + (1 # 2)) by ring.
      apply Qle_trans with (0 + (1 # 2)); [discriminate|].
      apply Qplus_le_compat; [|apply Qle_refl].
      apply -> Qle_minus_iff. now apply Qlt_le_weak.
    + apply Qle_minus_iff. setoid_replace ((1 # 2) + - (f + 1 - y)) with ((y - f) - (1 # 2)) by ring.
      apply -> Qle_minus_iff. now apply Qlt_le_weak.
Qed.

(** The relative error of the rounding is at most [2^-53]. *)
Lemma round_to_double_error (x : Q) :
  Qabs (round_to_double x - x) <= Qabs x * 2 ^ (-53).
Proof.
  unfold round_to_double. destruct (Qeq_bool x 0) eqn:Hz.
  - apply Qeq_bool_iff in Hz. rewrite Hz. discriminate.
  - assert (Hx : 0 < Qabs x).
    { destruct x as [[|p|p] d]; try reflexivity. discriminate. }
    cbv zeta. destruct (ilog2_spec (Qabs x) Hx) as [Hlo _].
    set (k := ilog2 (Qabs x)) in *.
    set (e := (k - 52)%Z).
    set (y := x / 2 ^ e).
    assert (Hpe : 0 < 2 ^ e) by apply pow2_pos.
    setoid_replace (inject_Z (round_half_even y) * 2 ^ e - x)
      with ((inject_Z (round_half_even y) - y) * 2 ^ e).
    2:{ unfold y. field. apply pow2_nonzero. }
    rewrite Qabs_Qmult, (Qabs_pos (2 ^ e)) by now apply Qlt_le_weak.
    apply Qle_trans with ((1 # 2) * 2 ^ e).
    + apply Qmult_le_compat_r; [apply round_half_even_error|now apply Qlt_le_weak].
    + apply Qle_trans with (2 ^ k * 2 ^ (-53)).
      * rewrite <- Qpower_plus by discriminate.
        change (1 # 2) with (2 ^ (-1)). rewrite <- Qpower_plus by discriminate.
        apply Qpower_le_compat_l; [unfold e; lia|discriminate].
      * apply Qmult_le_compat_r; [exact Hlo|]. apply Qlt_le_weak, pow2_pos.
Qed.

Close Scope Q_scope.

(** ** Average rating *)

Lemma fold_left_add_acc (l : list Z) (a : Z) :
  fold_left Z.add l a = (a + total l)%Z.
Proof.
  revert a. induction l as [|x l IH]; simpl; intros a.
  - lia.
  - rewrite IH. lia.
Qed.

Lemma py_sum_total (l : list Z) : py_sum l = total l.
Proof. unfold py_sum. now rewrite fold_left_add_acc. Qed.

Lemma scores_of_ratings_of (db : DB) (r : Recipe) :
  map rating_rating (ratings_of db (recipe_pk r)) = scores_of db r.
Proof. reflexivity. Qed.

(** The mean of a non-empty list, times the number of its elements, is the
    sum of the elements. *)
Lemma mean_times_length (l : list Z) :
  l <> [] ->
  (mean l * inject_Z (Z.of_nat (List.length l)) == inject_Z (total l))%Q.
Proof.
  intros Hne. unfold mean. field.
  destruct l as [|x l]; [congruence|]. simpl List.length.
  intros H. unfold Qeq in H. simpl in H. lia.
Qed.

Lemma total_bounds (lo hi : Z) (l : list Z) :
  Forall (fun s => (lo <= s <= hi)%Z) l ->
  (lo * Z.of_nat (List.length l) <= total l <= hi * Z.of_nat (List.length l))%Z.
Proof.
  induction 1 as [|x l Hx _ IH]; simpl total; simpl List.length; [lia|].
  rewrite Nat2Z.inj_succ. lia.
Qed.

(** With every score between 1 and 5, so is the mean. *)
Lemma mean_between_1_and_5 (l : list Z) :
  l <> [] -> Forall (fun s => (1 <= s <= 5)%Z) l ->
  (1 <= mean l /\ mean l <= 5)%Q.
Proof.
  intros Hne Hall. pose proof (total_bounds 1 5 l Hall) as Hb.
  assert (Hlen : (0 < Z.of_nat (List.length l))%Z)
    by (destruct l; [congruence|simpl List.length; lia]).
  assert (HlenQ : (0 < inject_Z (Z.of_nat (List.length l)))%Q)
    by (change 0%Q with (inject_Z 0); now rewrite <- Zlt_Qlt).
  unfold mean. split.
  - apply Qle_shift_div_l; [exact HlenQ|].
    change 1%Q with (inject_Z 1). rewrite <- inject_Z_mult, <- Zle_Qle. lia.
  - apply Qle_shift_div_r; [exact HlenQ|].
    change 5%Q with (inject_Z 5). rewrite <- inject_Z_mult, <- Zle_Qle. lia.
Qed.

(** C1.  For every recipe [r], both codings of [average_rating] return the
    arithmetic mean of the scores of the Rating records whose recipe is [r],
    and 0 when there is none.  The mean comes out of a float division: it is
    the double nearest to the exact mean, so it is within a relative error
    of [2^-53] of it, and it is the exact mean whenever that is a whole
    number. *)
Theorem average_rating_is_mean (db : DB) (r : Recipe) :
  (Item_average_rating db r ==
     match scores_of db r with
     | [] => 0
     | _ :: _ => round_to_double (mean (scores_of db r))
     end)%Q
  /\
  (Recipe_average_rating db r ==
     match scores_of db r with
     | [] => 0
     | _ :: _ => round_to_double (mean (scores_of db r))
     end)%Q
  /\
  (scores_of db r <> [] ->
   (Qabs (Item_average_rating db r - mean (scores_of db r))
    <= Qabs (mean (scores_of db r)) * 2 ^ (-53))%Q
   /\ forall k : Z,
        (0 < k < 2 ^ 53)%Z -> (mean (scores_of db r) == inject_Z k)%Q ->
        (Item_average_rating db r == inject_Z k)%Q
        /\ (Recipe_average_rating db r == inject_Z k)%Q).
Proof.
  unfold Item_average_rating, Recipe_average_rating, Avg, qs_exists, qs_count.
  rewrite <- (scores_of_ratings_of db r).
  destruct (ratings_of db (recipe_pk r)) as [|x t] eqn:Hr.
  - split; [reflexivity|]. split; [reflexivity|]. intros H. now elim H.
  - rewrite <- (length_map rating_rating (x :: t)).
    remember (map rating_rating (x :: t)) as l eqn:Hl.
    destruct l as [|s l]; [discriminate|].
    unfold py_truediv. rewrite py_sum_total. fold (mean (s :: l)).
    assert (Hor : (or_0 (Some (round_to_double (mean (s :: l))))
                   == round_to_double (mean (s :: l)))%Q).
    { unfold or_0. destruct (Qeq_bool _ 0) eqn:Hz; [|reflexivity].
      apply Qeq_bool_iff in Hz. now rewrite Hz. }
    split; [reflexivity|]. split; [exact Hor|]. intros _. split.
    + apply round_to_double_error.
    + intros k [Hk0 Hk53] Hk. rewrite Hor.
      assert (Hkd : (round_to_double (mean (s :: l)) == inject_Z k)%Q).
      { destruct (round_to_double_between k k (mean (s :: l)) Hk0 Hk53) as [H1 H2].
        - rewrite Hk. apply Qle_refl.
        - rewrite Hk. apply Qle_refl.
        - now apply Qle_antisym. }
      split; exact Hkd.
Qed.

Example average_of_1_2_2 :
  (py_truediv (py_sum [1; 2; 2]%Z) 3 == 7505999378950827 # 4503599627370496)%Q
  /\ ~ (py_truediv (py_sum [1; 2; 2]%Z) 3 == 5 # 3)%Q
  /\ (py_truediv (py_sum [4; 5]%Z) 2 == 9 # 2)%Q.
Proof.
  split; [vm_compute; reflexivity|]. split; [|vm_compute; reflexivity].
  intros H. vm_compute in H. discriminate.
Qed.

(** ** Per-caller fields of a serialized recipe *)

(** C10.  For an anonymous caller, and also when the serializer has no
    request in its context, [is_liked] is false and [user_rating] is null in
    the serialized recipe, whatever Like and Rating rows the store holds. *)
Theorem anonymous_is_liked_user_rating (D : Type) (d : D) (db : DB) (r : Recipe) :
  let anonymous := Some (mkRequest AnonymousUser d) in
  get_is_liked anonymous db r = false
  /\ get_user_rating anonymous db r = None
  /\ json_get "is_liked" (ItemSerializer_data anonymous db r) = Some (JBool false)
  /\ json_get "user_rating" (ItemSerializer_data anonymous db r) = Some JNull
  /\ get_is_liked (@None (Request D)) db r = false
  /\ get_user_rating (@None (Request D)) db r = None.
Proof.
  cbv zeta. repeat split; reflexivity.
Qed.

(** An authenticated caller does see the stored rows: the fields are not
    constant in general. *)
Example bob_sees_his_like_and_rating :
  get_is_liked (Some (mkRequest (AuthUser bob) tt)) sample_db pasta = true
  /\ get_user_rating (Some (mkRequest (AuthUser bob) tt)) sample_db pasta = Some 4%Z
  /\ get_is_liked (Some (mkRequest (AuthUser alice) tt)) sample_db pasta = false
  /\ get_user_rating (Some (mkRequest (AuthUser alice) tt)) sample_db pasta = None.
Proof. repeat split; reflexivity. Qed.

(** ** Ordering of comments *)

Lemma insert_newest_first_perm (c : Comment) (l : list Comment) :
  Permutation (c :: l) (insert_newest_first c l).
Proof.
  induction l as [|x l IH]; simpl.
  - apply Permutation_refl.
  - destruct (comment_created_at x <=? comment_created_at c).
    + apply Permutation_refl.
    + eapply perm_trans; [apply perm_swap|]. now apply perm_skip.
Qed.

Lemma order_by_created_at_desc_perm (l : list Comment) :
  Permutation l (order_by_created_at_desc l).
Proof.
  induction l as [|c l IH]; simpl.
  - constructor.
  - eapply perm_trans; [apply perm_skip, IH|]. apply insert_newest_first_perm.
Qed.

Lemma insert_newest_first_sorted (c : Comment) (l : list Comment) :
  newest_first l -> newest_first (insert_newest_first c l).
Proof.
  unfold newest_first. induction l as [|x l IH]; simpl; intros Hs.
  - constructor; constructor.
  - inversion Hs as [|? ? Hs' Hall]; subst.
    destruct (comment_created_at x <=? comment_created_at c) eqn:Hle.
    + apply Nat.leb_le in Hle. constructor; [exact Hs|].
      constructor; [exact Hle|].
      eapply Forall_impl; [|exact Hall]. simpl. intros b Hb. lia.
    + apply Nat.leb_gt in Hle. constructor; [now apply IH|].
      apply (Permutation_Forall (insert_newest_first_perm c l)).
      constructor; [lia|exact Hall].
Qed.

Lemma order_by_created_at_desc_sorted (l : list Comment) :
  newest_first (order_by_created_at_desc l).
Proof.
  induction l as [|c l IH]; simpl.
  - constructor.
  - now apply insert_newest_first_sorted.
Qed.

(** C9.  The comments of a recipe come newest first: in the listing every
    comment was created no earlier than each comment after it, and the
    listing holds exactly the stored comments of the recipe. *)
Theorem comments_newest_first (db : DB) (item_id : nat) :
  newest_first (comments_all db item_id)
  /\ Permutation (filter (fun c => comment_item c =? item_id) (comments db))
                 (comments_all db item_id).
Proof.
  unfold comments_all. split.
  - apply order_by_created_at_desc_sorted.
  - apply order_by_created_at_desc_perm.
Qed.

Example comments_of_pasta :
  map comment_content (comments_all sample_db 1) = ["Thanks"; "Nice"].
Proof. reflexivity. Qed.

Example new_comment_comes_first :
  match CommentSerializer_create (mkRequest (AuthUser bob) tt) 1 "Again" 150
          sample_db with
  | Ok (_, db') => map comment_content (comments_all db' 1)
  | Raise _ => []
  end = ["Again"; "Thanks"; "Nice"].
Proof. reflexivity. Qed.

(** ** The [max_time] filter *)

(** C8.  [max_time] bounds the total of preparation and cooking time: a
    recipe is listed under [max_time] exactly when it is in the listing and
    its [prep_time] and [cook_time] add up to at most [max_time].  So a
    recipe with [prep_time = 10] and [cook_time = 20] is excluded by
    [max_time = 25] and included by [max_time = 30]. *)
Theorem max_time_bounds_total_time
    (max_time : nat) (queryset : list Recipe) (r : Recipe) :
  In r (listRecipes_max_time max_time queryset) <->
  In r queryset /\ recipe_prep_time r + recipe_cook_time r <= max_time.
Proof.
  unfold listRecipes_max_time. rewrite filter_In. now rewrite Nat.leb_le.
Qed.

Lemma max_time_bounds_total_time_witness :
  recipe_prep_time pasta = 10 /\ recipe_cook_time pasta = 20
  /\ ~ In pasta (listRecipes_max_time 25 (recipes sample_db))
  /\ In pasta (listRecipes_max_time 30 (recipes sample_db)).
Proof.
  split; [reflexivity|]. split; [reflexivity|]. split.
  - intros H.
    apply (proj1 (max_time_bounds_total_time 25 (recipes sample_db) pasta)) in H.
    destruct H as [_ H]. simpl in H. lia.
  - apply (proj2 (max_time_bounds_total_time 30 (recipes sample_db) pasta)).
    split; [simpl; now left|simpl; lia].
Defined.

(** ** Text search *)

Lemma starts_with_append (p s : string) :
  starts_with p s = true <-> exists after, s = String.append p after.
Proof.
  revert s. induction p as [|a p IH]; intros s; simpl.
  - split; [intros _; now exists s|reflexivity].
  - destruct s as [|b s].
    + split; [discriminate|]. intros [after H]. discriminate.
    + rewrite andb_true_iff, Ascii.eqb_eq, IH. split.
      * intros [-> [after ->]]. now exists after.
      * intros [after H]. injection H as -> ->. split; [reflexivity|now exists after].
Qed.

Lemma contains_append (s p : string) :
  contains s p = true <->
  exists before after, s = String.append before (String.append p after).
Proof.
  induction s as [|c s IH].
  - simpl. rewrite orb_false_r, starts_with_append. split.
    + intros [after H]. now exists EmptyString, after.
    + intros [before [after H]].
      destruct before as [|b before]; [now exists after|discriminate].
  - simpl contains. rewrite orb_true_iff, starts_with_append, IH. split.
    + intros [[after H]|[before [after H]]].
      * now exists EmptyString, after.
      * exists (String c before), after. simpl. now rewrite H.
    + intros [before [after H]]. destruct before as [|b before].
      * left. now exists after.
      * right. simpl in H. injection H as _ H. now exists before, after.
Qed.

(** [__icontains] is the case-insensitive substring test. *)
Lemma icontains_ci_substring (field query : string) :
  icontains field query = true <-> ci_substring query field.
Proof. unfold icontains, ci_substring. apply contains_append. Qed.

Example icontains_folds_case :
  icontains "Spaghetti Carbonara" "CARBO" = true
  /\ icontains "Spaghetti Carbonara" "" = true
  /\ icontains "Spaghetti Carbonara" "garlic" = false.
Proof. repeat split; reflexivity. Qed.


Lemma truthy_Some (s : string) : truthy (Some s) = true <-> s <> "".
Proof.
  unfold truthy. rewrite negb_true_iff. split.
  - intros H ->. discriminate.
  - intros H. apply String.eqb_neq. exact H.
Qed.



Lemma search_recipes_queryset_search (caller : RequestUser) (search : string)
    (db : DB) :
  search_recipes_queryset (list_request caller search) db =
  if negb (truthy (Some search)) then []
  else firstn 20
         (filter (fun r => icontains (recipe_title r) search
                           || icontains (recipe_description r) search
                           || author_username_icontains db r search)
                 (recipes db)).
Proof. reflexivity. Qed.



Example search_recipes_by_author :
  search_recipes_queryset (list_request AnonymousUser "ALICE") sample_db = [pasta]
  /\ search_recipes_queryset (list_request AnonymousUser "") sample_db = []
  /\ search_recipes_queryset (list_request AnonymousUser "garlic") sample_db = [].
Proof. repeat split; reflexivity. Qed.

(** ** The sample store *)

Lemma sample_db_integrity : integrity sample_db.
Proof.
  constructor; simpl; repeat constructor; simpl; intuition discriminate.
Qed.

(** ** Login *)

Lemma User_objects_get_email (db : DB) (u : User) :
  integrity db -> In u (users db) ->
  objects_get (fun x => String.eqb (user_email x) (user_email u)) (users db) = Ok u.
Proof.
  intros Hi Hu. apply (objects_get_unique user_email).
  - apply (email_unique db Hi).
  - exact Hu.
  - apply String.eqb_refl.
  - intros y _ Hy. now apply String.eqb_eq.
Qed.

Lemma login_present (chk : string -> string -> bool) (tok : User -> string)
    (e p : string) (db : DB) :
  e <> "" -> p <> "" ->
  login chk tok (login_request e p) db =
  match objects_get (fun u => String.eqb (user_email u) e) (users db) with
  | Raise DoesNotExist => (invalid_credentials, db)
  | Raise ex => (exception_handler ex, db)
  | Ok u => (if check_password chk u p then login_success tok u
             else invalid_credentials, db)
  end.
Proof.
  intros He Hp. apply truthy_Some in He. apply truthy_Some in Hp.
  unfold login, as_view, api_view, login_body, check_permissions, bind, ret.
  cbn [login_request data email password forallb has_permission andb].
  rewrite He, Hp. cbn [andb].
  destruct (objects_get _ (users db)) as [u|[]]; try reflexivity.
  now destruct (check_password chk u p).
Qed.

Lemma login_requires_both_fields (chk : string -> string -> bool)
    (tok : User -> string) (caller : RequestUser) (d : LoginData) (db : DB) :
  truthy (email d) && truthy (password d) = false ->
  login chk tok (mkRequest caller d) db = (credentials_required, db).
Proof.
  intros H. destruct d as [[e|] [p|]]; try reflexivity.
  unfold login, as_view, api_view, login_body, check_permissions, bind, ret.
  cbn [data email password forallb has_permission andb] in *.
  now rewrite H.
Qed.

(** C5, as the view has it.  With a non-empty email and password, [login]
    answers 400 with "Invalid credentials" when no account has the email and
    when the password does not verify against the stored hash, and leaves
    the store alone; when it verifies, the answer is a 200 carrying the user
    and an access token.  The failure is a 400, not the 401 of an
    [AuthError]. *)
Theorem login_invalid_credentials_is_400
    (chk : string -> string -> bool) (tok : User -> string)
    (e p : string) (db : DB) :
  integrity db -> e <> "" -> p <> "" ->
  ((forall u, In u (users db) -> user_email u <> e) ->
   login chk tok (login_request e p) db = (invalid_credentials, db))
  /\ (forall u, In u (users db) -> user_email u = e ->
      login chk tok (login_request e p) db =
      (if check_password chk u p then login_success tok u else invalid_credentials,
       db))
  /\ status_code invalid_credentials = HTTP_400_BAD_REQUEST
  /\ (forall u, status_code (login_success tok u) = HTTP_200_OK).
Proof.
  intros Hi He Hp. split; [|split; [|split]].
  - intros Hno. rewrite (login_present chk tok e p db He Hp).
    rewrite objects_get_missing; [reflexivity|].
    intros y Hy. apply String.eqb_neq. now apply Hno.
  - intros u Hu Hmail. rewrite (login_present chk tok e p db He Hp).
    subst e. now rewrite (User_objects_get_email db u Hi Hu).
  - reflexivity.
  - reflexivity.
Qed.

Lemma login_invalid_credentials_is_400_witness :
  login sample_check_password_hash sample_access_token
    (login_request "nobody@example.com" "pw-alice") sample_db
  = (invalid_credentials, sample_db)
  /\ login sample_check_password_hash sample_access_token
       (login_request "alice@example.com" "pw-alice") sample_db
     = (login_success sample_access_token alice, sample_db).
Proof.
  split.
  - apply (login_invalid_credentials_is_400 sample_check_password_hash
             sample_access_token "nobody@example.com" "pw-alice" sample_db
             sample_db_integrity); try discriminate.
    simpl. intros u [<-|[<-|[]]]; discriminate.
  - reflexivity.
Defined.

(** The claim as written fails: an unknown email, and a wrong password for a
    known one, are answered with 400, which is not the status of an
    [AuthError]. *)
Lemma login_failure_is_not_401 :
  ~ (status_code (fst (login sample_check_password_hash sample_access_token
                         (login_request "nobody@example.com" "pw-alice") sample_db))
     = http_status_of AuthError)
  /\ ~ (status_code (fst (login sample_check_password_hash sample_access_token
                            (login_request "alice@example.com" "guess") sample_db))
        = http_status_of AuthError).
Proof. split; vm_compute; discriminate. Qed.

(** ** Primary keys and unique pairs *)

Lemma NoDup_map_app_fresh {A K : Type} (key : A -> K) (table : list A) (x : A) :
  NoDup (map key table) ->
  (forall y, In y table -> key y <> key x) ->
  NoDup (map key (table ++ [x])).
Proof.
  intros Hnd Hfresh. rewrite map_app. simpl.
  apply NoDup_app; [exact Hnd|repeat constructor; simpl; tauto|].
  intros k Hk [<-|[]]. apply in_map_iff in Hk. destruct Hk as [y [Hy Hin]].
  now apply (Hfresh y Hin).
Qed.

Section Tables.

Context {A : Type}.
Variable pk : A -> nat.

Lemma next_pk_fresh (table : list A) (x : A) :
  In x table -> pk x < next_pk pk table.
Proof.
  unfold next_pk. induction table as [|a t IH]; simpl; [contradiction|].
  intros [->|Hx]; [lia|]. specialize (IH Hx). lia.
Qed.

(** Saving a row that keeps the key of the stored row with the same primary
    key leaves the column of keys as it was. *)
Lemma map_save_same_key {K : Type} (key : A -> K) (table : list A) (x x' : A) :
  NoDup (map pk table) -> In x table -> pk x' = pk x -> key x' = key x ->
  map key (save pk x' table) = map key table.
Proof.
  intros Hnd Hx Hpk Hkey. unfold save. rewrite map_map.
  apply map_ext_in. intros y Hy.
  destruct (pk y =? pk x') eqn:He; [|reflexivity].
  apply Nat.eqb_eq in He. rewrite Hpk in He.
  now rewrite (NoDup_map_inj pk table y x Hnd Hy Hx He).
Qed.

Lemma filter_map_commute (p : A -> bool) (f : A -> A) (l : list A) :
  (forall y, In y l -> p (f y) = p y) ->
  filter p (map f l) = map f (filter p l).
Proof.
  induction l as [|a t IH]; simpl; intros H; [reflexivity|].
  rewrite (H a (or_introl eq_refl)), IH by (intros y Hy; apply H; now right).
  now destruct (p a).
Qed.

Lemma filter_save (p : A -> bool) (table : list A) (x x' : A) :
  NoDup (map pk table) -> In x table -> pk x' = pk x -> p x' = p x ->
  filter p (save pk x' table) =
  map (fun y => if pk y =? pk x' then x' else y) (filter p table).
Proof.
  intros Hnd Hx Hpk Hp. unfold save. apply filter_map_commute.
  intros y Hy. destruct (pk y =? pk x') eqn:He; [|reflexivity].
  apply Nat.eqb_eq in He. rewrite Hpk in He.
  now rewrite (NoDup_map_inj pk table y x Hnd Hy Hx He).
Qed.

End Tables.

(** ** Upsert of a rating *)

Lemma rating_key_pair (u i : nat) (r : Rating) :
  rating_key u i r = true <-> rating_pair r = (u, i).
Proof.
  unfold rating_key, rating_pair. rewrite andb_true_iff, !Nat.eqb_eq.
  split; [intros [-> ->]; reflexivity|intros H; injection H; auto].
Qed.

Lemma ratings_of_pair_at_most_one (u i : nat) (table : list Rating) :
  NoDup (map rating_pair table) ->
  filter (rating_key u i) table = []
  \/ exists x, In x table /\ rating_key u i x = true
               /\ filter (rating_key u i) table = [x].
Proof.
  intros Hnd. destruct (filter (rating_key u i) table) as [|x t] eqn:Hf; [now left|].
  right. exists x.
  assert (Hx : In x (filter (rating_key u i) table)) by (rewrite Hf; now left).
  apply filter_In in Hx. destruct Hx as [Hx Hk].
  split; [exact Hx|]. split; [exact Hk|]. rewrite <- Hf.
  apply (filter_unique_key rating_pair); auto.
  intros y _ Hy. apply rating_key_pair in Hy, Hk. congruence.
Qed.

Lemma upsert_rating_spec (u i : nat) (s : Z) (now : nat) (table : list Rating) :
  NoDup (map rating_pk table) -> NoDup (map rating_pair table) ->
  (exists row, filter (rating_key u i) (upsert_rating u i s now table) = [row]
               /\ rating_rating row = s)
  /\ NoDup (map rating_pk (upsert_rating u i s now table))
  /\ NoDup (map rating_pair (upsert_rating u i s now table))
  /\ (filter (rating_key u i) table <> [] ->
      List.length (upsert_rating u i s now table) = List.length table).
Proof.
  intros Hpk Hpair. unfold upsert_rating.
  destruct (ratings_of_pair_at_most_one u i table Hpair) as [Hnone|[x [Hx [Hk Hone]]]].
  - rewrite Hnone.
    set (row := mkRating (next_pk rating_pk table) u i s now).
    assert (Hrow : rating_key u i row = true)
      by (unfold rating_key; simpl; now rewrite !Nat.eqb_refl).
    split; [|split; [|split]].
    + exists row. rewrite filter_app, Hnone. simpl. rewrite Hrow. now split.
    + apply NoDup_map_app_fresh; [exact Hpk|].
      intros y Hy. apply (next_pk_fresh rating_pk) in Hy. simpl. lia.
    + apply NoDup_map_app_fresh; [exact Hpair|].
      intros y Hy Heq.
      pose proof (filter_nil_all_false _ _ Hnone y Hy) as Hfalse.
      assert (Htrue : rating_key u i y = true)
        by (apply rating_key_pair; rewrite Heq; reflexivity).
      congruence.
    + congruence.
  - rewrite Hone.
    assert (Hpk' : rating_pk (set_rating x s) = rating_pk x) by reflexivity.
    split; [|split; [|split]].
    + exists (set_rating x s). split; [|reflexivity].
      rewrite (filter_save rating_pk (rating_key u i) table x (set_rating x s)
                 Hpk Hx Hpk' eq_refl), Hone.
      simpl. now rewrite Nat.eqb_refl.
    + now rewrite (map_save_same_key rating_pk rating_pk table x (set_rating x s)).
    + now rewrite (map_save_same_key rating_pk rating_pair table x (set_rating x s)).
    + intros _. unfold save. apply length_map.
Qed.

Lemma integrity_set_ratings (db : DB) (table : list Rating) :
  integrity db ->
  NoDup (map rating_pk table) -> NoDup (map rating_pair table) ->
  integrity (set_ratings db table).
Proof.
  intros [] Hpk Hpair. constructor; simpl; assumption.
Qed.

(** ** Lookup of the recipe a request addresses *)

Lemma Recipe_objects_get (db : DB) (r : Recipe) :
  integrity db -> In r (recipes db) ->
  objects_get (fun x => recipe_pk x =? recipe_pk r) (recipes db) = Ok r.
Proof.
  intros Hi Hr. apply (objects_get_unique recipe_pk).
  - apply (recipe_pk_unique db Hi).
  - exact Hr.
  - apply Nat.eqb_refl.
  - intros y _ Hy. now apply Nat.eqb_eq.
Qed.

Lemma Recipe_objects_get_missing (db : DB) (pk : nat) :
  (forall r, In r (recipes db) -> recipe_pk r <> pk) ->
  objects_get (fun x => recipe_pk x =? pk) (recipes db) = Raise DoesNotExist.
Proof.
  intros H. apply objects_get_missing. intros y Hy. apply Nat.eqb_neq. now apply H.
Qed.

(** What the two upserting ORM calls do to the Rating table. *)
Lemma get_or_create_then_save (u i : nat) (s : Z) (now : nat) (db : DB) :
  NoDup (map rating_pair (ratings db)) ->
  exists (row : Rating) (created : bool),
    Rating_objects_get_or_create u i (Some s) now db =
    Ok ((row, created),
        if created then set_ratings db (upsert_rating u i s now (ratings db)) else db)
    /\ (created = false ->
        set_ratings db (save rating_pk (set_rating row s) (ratings db)) =
        set_ratings db (upsert_rating u i s now (ratings db))).
Proof.
  intros Hpair. unfold Rating_objects_get_or_create, objects_get, upsert_rating.
  destruct (ratings_of_pair_at_most_one u i (ratings db) Hpair)
    as [Hnone|[x [Hx [Hk Hone]]]].
  - rewrite Hnone. eexists _, true. split; [|discriminate].
    assert (He : existsb (rating_key u i) (ratings db) = false).
    { destruct (existsb _ _) eqn:He; [|reflexivity].
      apply existsb_exists in He. destruct He as [y [Hy Hky]].
      rewrite (filter_nil_all_false _ _ Hnone y Hy) in Hky. discriminate. }
    cbv [bind Rating_objects_create not_null ret]. rewrite He. reflexivity.
  - rewrite Hone. exists x, false. split; reflexivity.
Qed.

Lemma update_or_create_upsert (u i : nat) (s : Z) (now : nat) (db : DB) :
  NoDup (map rating_pair (ratings db)) ->
  exists (row : Rating) (created : bool),
    Rating_objects_update_or_create u i (Some s) now db =
    Ok ((row, created), set_ratings db (upsert_rating u i s now (ratings db))).
Proof.
  intros Hpair. unfold Rating_objects_update_or_create, objects_get, upsert_rating.
  destruct (ratings_of_pair_at_most_one u i (ratings db) Hpair)
    as [Hnone|[x [Hx [Hk Hone]]]].
  - rewrite Hnone. eexists _, true.
    assert (He : existsb (rating_key u i) (ratings db) = false).
    { destruct (existsb _ _) eqn:He; [|reflexivity].
      apply existsb_exists in He. destruct He as [y [Hy Hky]].
      rewrite (filter_nil_all_false _ _ Hnone y Hy) in Hky. discriminate. }
    cbv [bind Rating_objects_create not_null ret]. rewrite He. reflexivity.
  - rewrite Hone. exists (set_rating x s), false. reflexivity.
Qed.

Lemma Recipe_get_object_or_404 (db : DB) (r : Recipe) :
  integrity db -> In r (recipes db) ->
  get_object_or_404 (fun x => recipe_pk x =? recipe_pk r) (recipes db) = Ok r.
Proof.
  intros Hi Hr. unfold get_object_or_404. now rewrite Recipe_objects_get.
Qed.

Lemma Recipe_get_object_or_404_missing (db : DB) (pk : nat) :
  (forall r, In r (recipes db) -> recipe_pk r <> pk) ->
  get_object_or_404 (fun x => recipe_pk x =? pk) (recipes db) = Raise Http404.
Proof.
  intros H. unfold get_object_or_404. now rewrite Recipe_objects_get_missing.
Qed.

(** [rate_recipe] by an authenticated caller on a stored recipe succeeds and
    upserts the caller's rating. *)
Lemma rate_recipe_upsert (db : DB) (u : User) (r : Recipe) (s : Z) (now : nat) :
  integrity db -> In r (recipes db) ->
  exists response,
    rate_recipe (score_request u s) (recipe_pk r) now db =
    (response,
     set_ratings db (upsert_rating (user_pk u) (recipe_pk r) s now (ratings db)))
    /\ status_code response = HTTP_200_OK.
Proof.
  intros Hi Hr. unfold rate_recipe, as_view, rate_recipe_body.
  cbv [bind query]. rewrite (Recipe_get_object_or_404 db r Hi Hr).
  cbv [request_user score_request user data score ret].
  destruct (get_or_create_then_save (user_pk u) (recipe_pk r) s now db
              (rating_unique_together db Hi)) as [row [created [Hgc Hsave]]].
  rewrite Hgc. destruct created; cbv [negb not_null ret Rating_save write].
  - eexists. split; reflexivity.
  - rewrite (Hsave eq_refl). eexists. split; reflexivity.
Qed.

(** [rate_item] likewise, for a rating that is one of the choices. *)
Lemma rate_item_upsert (db : DB) (u : User) (r : Recipe) (s : Z) (now : nat) :
  integrity db -> In r (recipes db) -> (1 <= s <= 5)%Z ->
  exists response,
    rate_item (rating_request u s) (recipe_pk r) now db =
    (response,
     set_ratings db (upsert_rating (user_pk u) (recipe_pk r) s now (ratings db)))
    /\ status_code response = HTTP_201_CREATED.
Proof.
  intros Hi Hr Hs. unfold rate_item, as_view, api_view, rate_item_body.
  cbv [bind check_permissions forallb has_permission rating_request user
       is_authenticated andb ret].
  rewrite (Recipe_objects_get db r Hi Hr).
  cbv [RatingSerializer_is_valid data rating].
  assert (Hv : ((1 <=? s) && (s <? 6))%Z = true)
    by (apply andb_true_iff; split; [apply Z.leb_le|apply Z.ltb_lt]; lia).
  rewrite Hv. cbv [RatingSerializer_create request_user user bind ret].
  destruct (update_or_create_upsert (user_pk u) (recipe_pk r) s now db
              (rating_unique_together db Hi)) as [row [created Huc]].
  rewrite Huc. eexists. split; reflexivity.
Qed.

Lemma upsert_rating_twice (u i : nat) (s1 s2 : Z) (now1 now2 : nat)
    (table : list Rating) :
  NoDup (map rating_pk table) -> NoDup (map rating_pair table) ->
  let table1 := upsert_rating u i s1 now1 table in
  let table2 := upsert_rating u i s2 now2 table1 in
  (exists row, filter (rating_key u i) table2 = [row] /\ rating_rating row = s2)
  /\ List.length table2 = List.length table1.
Proof.
  intros Hpk Hpair. cbv zeta.
  destruct (upsert_rating_spec u i s1 now1 table Hpk Hpair)
    as [[row1 [Hrow1 _]] [Hpk1 [Hpair1 _]]].
  destruct (upsert_rating_spec u i s2 now2 _ Hpk1 Hpair1)
    as [Hrow2 [_ [_ Hlen]]].
  split; [exact Hrow2|]. apply Hlen. rewrite Hrow1. discriminate.
Qed.

(** C2.  On a stored recipe, two successive ratings by the same account
    leave exactly one Rating row for the pair, carrying the second score,
    and the second call adds no row: it updates the one the first call left.
    This holds for [rate_recipe] ([get_or_create], then [save]) with any two
    scores, and for [rate_item] ([update_or_create]) with any two scores the
    serializer accepts. *)
Theorem rate_twice_keeps_one_rating
    (db : DB) (u : User) (r : Recipe) (s1 s2 : Z) (now1 now2 : nat) :
  integrity db -> In r (recipes db) ->
  (let db1 := snd (rate_recipe (score_request u s1) (recipe_pk r) now1 db) in
   let db2 := snd (rate_recipe (score_request u s2) (recipe_pk r) now2 db1) in
   (exists row,
      filter (rating_key (user_pk u) (recipe_pk r)) (ratings db2) = [row]
      /\ rating_rating row = s2)
   /\ List.length (ratings db2) = List.length (ratings db1))
  /\
  ((1 <= s1 <= 5)%Z -> (1 <= s2 <= 5)%Z ->
   let db1 := snd (rate_item (rating_request u s1) (recipe_pk r) now1 db) in
   let db2 := snd (rate_item (rating_request u s2) (recipe_pk r) now2 db1) in
   (exists row,
      filter (rating_key (user_pk u) (recipe_pk r)) (ratings db2) = [row]
      /\ rating_rating row = s2)
   /\ List.length (ratings db2) = List.length (ratings db1)).
Proof.
  intros Hi Hr.
  pose proof (rating_pk_unique db Hi) as Hpk.
  pose proof (rating_unique_together db Hi) as Hpair.
  destruct (upsert_rating_spec (user_pk u) (recipe_pk r) s1 now1 (ratings db) Hpk Hpair)
    as [_ [Hpk1 [Hpair1 _]]].
  pose proof (integrity_set_ratings db _ Hi Hpk1 Hpair1) as Hi1.
  split.
  - destruct (rate_recipe_upsert db u r s1 now1 Hi Hr) as [resp1 [H1 _]].
    rewrite H1. cbn [snd].
    destruct (rate_recipe_upsert _ u r s2 now2 Hi1 Hr) as [resp2 [H2 _]].
    rewrite H2. cbn [snd set_ratings ratings].
    now apply upsert_rating_twice.
  - intros Hs1 Hs2.
    destruct (rate_item_upsert db u r s1 now1 Hi Hr Hs1) as [resp1 [H1 _]].
    rewrite H1. cbn [snd].
    destruct (rate_item_upsert _ u r s2 now2 Hi1 Hr Hs2) as [resp2 [H2 _]].
    rewrite H2. cbn [snd set_ratings ratings].
    now apply upsert_rating_twice.
Qed.

Lemma rate_twice_keeps_one_rating_witness :
  let db1 := snd (rate_recipe (score_request alice 3) 1 150 sample_db) in
  let db2 := snd (rate_recipe (score_request alice 5) 1 160 db1) in
  (exists row,
     filter (rating_key 1 1) (ratings db2) = [row] /\ rating_rating row = 5%Z)
  /\ List.length (ratings db2) = List.length (ratings db1).
Proof.
  exact (proj1 (rate_twice_keeps_one_rating sample_db alice pasta 3 5 150 160
                  sample_db_integrity (or_introl eq_refl))).
Defined.

Example rate_recipe_twice_on_sample :
  ratings (snd (rate_recipe (score_request alice 5) 1 160
                  (snd (rate_recipe (score_request alice 3) 1 150 sample_db))))
  = [mkRating 1 2 1 4 110; mkRating 2 1 1 5 150].
Proof. reflexivity. Qed.

Example rate_item_out_of_range :
  rate_item (rating_request alice 6) 1 150 sample_db
  = (mkResponse JErrors HTTP_400_BAD_REQUEST, sample_db).
Proof. reflexivity. Qed.

(** ** Likes *)

Lemma like_key_pair (u i : nat) (l : Like) :
  like_key u i l = true <-> like_pair l = (u, i).
Proof.
  unfold like_key, like_pair. rewrite andb_true_iff, !Nat.eqb_eq.
  split; [intros [-> ->]; reflexivity|intros H; injection H; auto].
Qed.

Lemma likes_of_pair_at_most_one (u i : nat) (table : list Like) :
  NoDup (map like_pair table) ->
  filter (like_key u i) table = []
  \/ exists x, In x table /\ filter (like_key u i) table = [x].
Proof.
  intros Hnd. destruct (filter (like_key u i) table) as [|x t] eqn:Hf; [now left|].
  right. exists x.
  assert (Hx : In x (filter (like_key u i) table)) by (rewrite Hf; now left).
  apply filter_In in Hx. destruct Hx as [Hx Hk].
  split; [exact Hx|]. rewrite <- Hf.
  apply (filter_unique_key like_pair); auto.
  intros y _ Hy. apply like_key_pair in Hy, Hk. congruence.
Qed.

Lemma filter_delete_only_row (u i : nat) (table : list Like) (x : Like) :
  filter (like_key u i) table = [x] ->
  filter (like_key u i) (delete like_pk x table) = [].
Proof.
  intros Hone. apply filter_none. intros y Hy.
  unfold delete in Hy. apply filter_In in Hy. destruct Hy as [Hy Hpk].
  destruct (like_key u i y) eqn:Hk; [|reflexivity].
  assert (Hin : In y (filter (like_key u i) table)) by (apply filter_In; auto).
  rewrite Hone in Hin. destruct Hin as [->|[]].
  rewrite Nat.eqb_refl in Hpk. discriminate.
Qed.

Lemma toggle_like_spec (u i : nat) (now : nat) (table : list Like) :
  NoDup (map like_pair table) ->
  (filter (like_key u i) table = [] ->
   exists row, filter (like_key u i) (toggle_like u i now table) = [row])
  /\ (filter (like_key u i) table <> [] ->
      filter (like_key u i) (toggle_like u i now table) = []).
Proof.
  intros Hpair. unfold toggle_like. split.
  - intros Hnone. rewrite Hnone. eexists. rewrite filter_app, Hnone. simpl.
    unfold like_key at 1. simpl. now rewrite !Nat.eqb_refl.
  - intros Hsome.
    destruct (likes_of_pair_at_most_one u i table Hpair) as [Hnone|[x [_ Hone]]];
      [contradiction|].
    rewrite Hone. now apply filter_delete_only_row.
Qed.

(** [like_recipe] by an authenticated caller on a stored recipe: the answer
    tells whether a Like was created, and the table is toggled. *)
Lemma like_recipe_toggle (db : DB) (u : User) (r : Recipe) (now : nat) :
  integrity db -> In r (recipes db) ->
  like_recipe (like_request u) (recipe_pk r) now db =
  (liked (negb (qs_exists (filter (like_key (user_pk u) (recipe_pk r)) (likes db)))),
   set_likes db (toggle_like (user_pk u) (recipe_pk r) now (likes db))).
Proof.
  intros Hi Hr. unfold like_recipe, as_view, api_view, like_recipe_body.
  cbv [bind query check_permissions forallb has_permission like_request user
       is_authenticated andb ret].
  rewrite (Recipe_get_object_or_404 db r Hi Hr).
  cbv [request_user user ret Like_objects_get_or_create objects_get toggle_like].
  destruct (likes_of_pair_at_most_one (user_pk u) (recipe_pk r) (likes db)
              (like_unique_together db Hi)) as [Hnone|[x [Hx Hone]]].
  - rewrite Hnone.
    assert (He : existsb (like_key (user_pk u) (recipe_pk r)) (likes db) = false).
    { destruct (existsb _ _) eqn:He; [|reflexivity].
      apply existsb_exists in He. destruct He as [y [Hy Hky]].
      rewrite (filter_nil_all_false _ _ Hnone y Hy) in Hky. discriminate. }
    cbv [bind Like_objects_create ret]. rewrite He. reflexivity.
  - rewrite Hone. reflexivity.
Qed.

Lemma set_likes_same (db : DB) : set_likes db (likes db) = db.
Proof. now destruct db. Qed.

Lemma filter_negb_none {A : Type} (p : A -> bool) (l : list A) :
  filter p l = [] -> filter (fun x => negb (p x)) l = l.
Proof.
  intros Hnone. induction l as [|a t IH]; simpl; [reflexivity|].
  rewrite (filter_nil_all_false p (a :: t) Hnone a (or_introl eq_refl)). simpl.
  f_equal. apply IH. apply filter_none. intros y Hy.
  apply (filter_nil_all_false p (a :: t) Hnone). now right.
Qed.

Lemma NoDup_map_filter {A K : Type} (key : A -> K) (p : A -> bool) (l : list A) :
  NoDup (map key l) -> NoDup (map key (filter p l)).
Proof.
  induction l as [|a t IH]; simpl; intros Hnd; [constructor|].
  inversion Hnd as [|? ? Hnotin Hnd']; subst.
  destruct (p a); [|now apply IH]. simpl. constructor; [|now apply IH].
  intros Hin. apply Hnotin. apply in_map_iff in Hin.
  destruct Hin as [y [Hy Hin]]. apply filter_In in Hin.
  rewrite <- Hy. apply in_map. tauto.
Qed.

Lemma like_key_false (u i : nat) (l : Like) :
  like_key u i l = false <-> like_pair l <> (u, i).
Proof.
  rewrite <- like_key_pair. destruct (like_key u i l); split; congruence.
Qed.

Lemma integrity_set_likes (db : DB) (table : list Like) :
  integrity db ->
  NoDup (map like_pk table) -> NoDup (map like_pair table) ->
  integrity (set_likes db table).
Proof.
  intros [] Hpk Hpair. constructor; simpl; assumption.
Qed.

(** What [likeRecipe] and [unlikeRecipe] answer and leave, for an
    authenticated caller and a stored recipe. *)
Lemma likeRecipe_stored (db : DB) (u : User) (r : Recipe) (now : nat) :
  integrity db -> In r (recipes db) ->
  likeRecipe (like_request u) (recipe_pk r) now db =
  (mkResponse (JObj [("message", JStr "Recipe liked successfully")]) HTTP_201_CREATED,
   match filter (like_key (user_pk u) (recipe_pk r)) (likes db) with
   | [] =>
       set_likes db
         (likes db ++
          [mkLike (next_pk like_pk (likes db)) (user_pk u) (recipe_pk r) now])
   | _ :: _ => db
   end).
Proof.
  intros Hi Hr. unfold likeRecipe, as_view, api_view, likeRecipe_body.
  cbv [bind query check_permissions forallb has_permission like_request user
       is_authenticated andb ret].
  rewrite (Recipe_get_object_or_404 db r Hi Hr).
  cbv [request_user user ret Like_objects_get_or_create objects_get].
  destruct (likes_of_pair_at_most_one (user_pk u) (recipe_pk r) (likes db)
              (like_unique_together db Hi)) as [Hnone|[x [Hx Hone]]].
  - rewrite Hnone.
    assert (He : existsb (like_key (user_pk u) (recipe_pk r)) (likes db) = false).
    { destruct (existsb _ _) eqn:He; [|reflexivity].
      apply existsb_exists in He. destruct He as [y [Hy Hky]].
      rewrite (filter_nil_all_false _ _ Hnone y Hy) in Hky. discriminate. }
    cbv [bind Like_objects_create ret]. rewrite He. reflexivity.
  - rewrite Hone. reflexivity.
Qed.

Lemma unlikeRecipe_stored (db : DB) (u : User) (r : Recipe) :
  integrity db -> In r (recipes db) ->
  unlikeRecipe (like_request u) (recipe_pk r) db =
  (mkResponse JNull HTTP_204_NO_CONTENT,
   set_likes db
     (filter (fun l => negb (like_key (user_pk u) (recipe_pk r) l)) (likes db))).
Proof.
  intros Hi Hr. unfold unlikeRecipe, as_view, api_view, unlikeRecipe_body.
  cbv [bind query check_permissions forallb has_permission like_request user
       is_authenticated andb ret].
  rewrite (Recipe_get_object_or_404 db r Hi Hr). reflexivity.
Qed.

Lemma likeRecipe_integrity (db : DB) (u : User) (r : Recipe) (now : nat) :
  integrity db -> In r (recipes db) ->
  integrity (snd (likeRecipe (like_request u) (recipe_pk r) now db))
  /\ recipes (snd (likeRecipe (like_request u) (recipe_pk r) now db)) = recipes db.
Proof.
  intros Hi Hr. rewrite (likeRecipe_stored db u r now Hi Hr). cbn [snd].
  destruct (filter _ (likes db)) as [|x t] eqn:Hf; [|now split].
  split; [|reflexivity]. apply integrity_set_likes; [exact Hi| |].
  - apply NoDup_map_app_fresh; [apply (like_pk_unique db Hi)|].
    intros y Hy. apply (next_pk_fresh like_pk) in Hy. simpl. lia.
  - apply NoDup_map_app_fresh; [apply (like_unique_together db Hi)|].
    intros y Hy Heq.
    pose proof (filter_nil_all_false _ _ Hf y Hy) as Hfalse.
    apply like_key_false in Hfalse. apply Hfalse. rewrite Heq. reflexivity.
Qed.

Lemma unlikeRecipe_integrity (db : DB) (u : User) (r : Recipe) :
  integrity db -> In r (recipes db) ->
  integrity (snd (unlikeRecipe (like_request u) (recipe_pk r) db))
  /\ recipes (snd (unlikeRecipe (like_request u) (recipe_pk r) db)) = recipes db.
Proof.
  intros Hi Hr. rewrite (unlikeRecipe_stored db u r Hi Hr). cbn [snd].
  split; [|reflexivity].
  apply integrity_set_likes; [exact Hi| |]; apply NoDup_map_filter.
  - apply (like_pk_unique db Hi).
  - apply (like_unique_together db Hi).
Qed.

(** After [likeRecipe] there is exactly one Like of the pair, and the store
    is the same when there was one already. *)
Lemma likeRecipe_leaves_one (db : DB) (u : User) (r : Recipe) (now : nat) :
  integrity db -> In r (recipes db) ->
  let after := likeRecipe (like_request u) (recipe_pk r) now db in
  status_code (fst after) = HTTP_201_CREATED
  /\ List.length (filter (like_key (user_pk u) (recipe_pk r)) (likes (snd after))) = 1
  /\ (filter (like_key (user_pk u) (recipe_pk r)) (likes db) <> [] -> snd after = db).
Proof.
  intros Hi Hr. cbv zeta. rewrite (likeRecipe_stored db u r now Hi Hr).
  cbn [fst snd status_code]. split; [reflexivity|].
  destruct (likes_of_pair_at_most_one (user_pk u) (recipe_pk r) (likes db)
              (like_unique_together db Hi)) as [Hnone|[x [Hx Hone]]].
  - rewrite Hnone. cbn [set_likes likes]. split; [|intros H; now elim H].
    rewrite filter_app, Hnone. simpl. unfold like_key at 1. simpl.
    now rewrite !Nat.eqb_refl.
  - rewrite Hone. split; [now rewrite Hone|reflexivity].
Qed.

(** C3.  For an authenticated caller and a stored recipe, [likeRecipe] is
    idempotent: it is never an error (201) and leaves exactly one Like of
    the pair; when the Like is there already, and so on a second call, it
    changes nothing.  [unlikeRecipe] leaves no Like of the pair and changes
    nothing when there was none.  Liking, unliking and liking again leaves
    exactly one Like of the pair. *)
Theorem like_and_unlike_are_idempotent
    (db : DB) (u : User) (r : Recipe) (now now' : nat) :
  integrity db -> In r (recipes db) ->
  let of_pair := filter (like_key (user_pk u) (recipe_pk r)) in
  let like := likeRecipe (like_request u) (recipe_pk r) in
  let unlike := unlikeRecipe (like_request u) (recipe_pk r) in
  status_code (fst (like now db)) = HTTP_201_CREATED
  /\ List.length (of_pair (likes (snd (like now db)))) = 1
  /\ (of_pair (likes db) <> [] -> snd (like now db) = db)
  /\ status_code (fst (like now' (snd (like now db)))) = HTTP_201_CREATED
  /\ snd (like now' (snd (like now db))) = snd (like now db)
  /\ status_code (fst (unlike db)) = HTTP_204_NO_CONTENT
  /\ of_pair (likes (snd (unlike db))) = []
  /\ (of_pair (likes db) = [] -> snd (unlike db) = db)
  /\ List.length
       (of_pair (likes (snd (like now' (snd (unlike (snd (like now db)))))))) = 1.
Proof.
  intros Hi Hr. cbv zeta.
  destruct (likeRecipe_leaves_one db u r now Hi Hr) as [Hs [Hone Hsame]].
  destruct (likeRecipe_integrity db u r now Hi Hr) as [Hi1 Hr1].
  assert (Hin1 : In r (recipes (snd (likeRecipe (like_request u) (recipe_pk r) now db))))
    by now rewrite Hr1.
  destruct (likeRecipe_leaves_one _ u r now' Hi1 Hin1) as [Hs' [_ Hsame']].
  destruct (unlikeRecipe_integrity _ u r Hi1 Hin1) as [Hi2 Hr2].
  assert (Hin2 : In r (recipes
                         (snd (unlikeRecipe (like_request u) (recipe_pk r)
                                 (snd (likeRecipe (like_request u) (recipe_pk r) now db))))))
    by now rewrite Hr2.
  destruct (likeRecipe_leaves_one _ u r now' Hi2 Hin2) as [_ [Hone'' _]].
  split; [exact Hs|]. split; [exact Hone|]. split; [exact Hsame|].
  split; [exact Hs'|]. split.
  { apply Hsame'. intros H. rewrite H in Hone. discriminate. }
  rewrite (unlikeRecipe_stored db u r Hi Hr). cbn [fst snd status_code set_likes likes].
  split; [reflexivity|]. split.
  { apply filter_none. intros y Hy. apply filter_In in Hy.
    destruct Hy as [_ Hy]. now apply negb_true_iff in Hy. }
  split; [|exact Hone''].
  intros Hnone. now rewrite (filter_negb_none _ _ Hnone), set_likes_same.
Qed.

Lemma like_and_unlike_are_idempotent_witness :
  let like := likeRecipe (like_request bob) 1 in
  let unlike := unlikeRecipe (like_request bob) 1 in
  status_code (fst (like 200 sample_db)) = HTTP_201_CREATED
  /\ List.length (filter (like_key 2 1) (likes (snd (like 200 sample_db)))) = 1
  /\ snd (like 200 sample_db) = sample_db
  /\ filter (like_key 2 1) (likes (snd (unlike sample_db))) = [].
Proof.
  destruct (like_and_unlike_are_idempotent sample_db bob pasta 200 210
              sample_db_integrity (or_introl eq_refl))
    as [H1 [H2 [H3 [_ [_ [_ [H7 _]]]]]]].
  split; [exact H1|]. split; [exact H2|]. split; [|exact H7].
  apply H3. simpl. discriminate.
Defined.

Example like_unlike_like_leaves_one_row :
  let db1 := snd (likeRecipe (like_request alice) 1 200 sample_db) in
  let db2 := snd (unlikeRecipe (like_request alice) 1 db1) in
  let db3 := snd (likeRecipe (like_request alice) 1 210 db2) in
  qs_count (filter (like_key 1 1) (likes db3)) = 1
  /\ map status_code
       [fst (likeRecipe (mkRequest AnonymousUser tt) 1 200 sample_db);
        fst (likeRecipe (like_request alice) 99 200 sample_db);
        fst (unlikeRecipe (like_request alice) 99 sample_db)]
     = [401; 404; 404].
Proof. split; reflexivity. Qed.

(** ** Ownership *)

Lemma author_is_user_anonymous (r : Recipe) : author_is_user r AnonymousUser = false.
Proof. reflexivity. Qed.

Lemma ItemDetailView_delete_stored (D : Type) (request : Request D) (db : DB)
    (r : Recipe) :
  integrity db -> In r (recipes db) ->
  ItemDetailView_delete request (recipe_pk r) db =
  if author_is_user r (user request) then
    (mkResponse JNull HTTP_204_NO_CONTENT, delete_cascade r db)
  else
    (mkResponse
       (JObj [("error", JStr "You do not have permission to delete this item")])
       HTTP_403_FORBIDDEN, db).
Proof.
  intros Hi Hr.
  unfold ItemDetailView_delete, as_view, ItemDetailView_destroy, super_destroy,
    get_object.
  cbv [bind query check_permissions check_object_permissions
       ItemDetailView_permission_classes forallb has_permission
       has_object_permission andb ret].
  rewrite (Recipe_get_object_or_404 db r Hi Hr).
  destruct (author_is_user r (user request)); cbn [negb]; [|reflexivity].
  rewrite (Recipe_get_object_or_404 db r Hi Hr). reflexivity.
Qed.







Example alice_deletes_pasta :
  ItemDetailView_delete (mkRequest (AuthUser alice) tt) 1 sample_db
  = (mkResponse JNull HTTP_204_NO_CONTENT, mkDB [alice; bob] [] [] [] []).
Proof. reflexivity. Qed.

Example alice_updates_pasta :
  let d := mkItemData (Some "  Pasta al pesto ") (Some "Green") (Some "Medium") in
  status_code (fst (ItemDetailView_put (mkRequest (AuthUser alice) d) 1 200 sample_db))
  = HTTP_200_OK
  /\ map recipe_title
         (recipes (snd (ItemDetailView_put (mkRequest (AuthUser alice) d) 1 200
                          sample_db)))
     = ["Pasta al pesto"]
  /\ map (fun d => status_code
                     (fst (ItemDetailView_put (mkRequest (AuthUser alice) d) 1 200
                             sample_db)))
       [mkItemData (Some "   ") (Some "Green") (Some "Medium");
        mkItemData (Some "Pasta") (Some "Green") (Some "Medium ");
        mkItemData (Some "Pasta") (Some "Green") None]
     = [400; 400; 400]
  /\ map (fun d => status_code
                     (fst (RecipeViewSet_put (mkRequest (AuthUser alice) d) 1 200
                             sample_db)))
       [mkItemData (Some "Pasta") (Some "Green") None;
        mkItemData (Some " Pa ") (Some "Green") None]
     = [200; 400].
Proof. repeat split; reflexivity. Qed.

(** ** Missing targets *)

Lemma perform_missing (op : mutation) (caller : RequestUser) (pk : nat) (db : DB) :
  (forall r, In r (recipes db) -> recipe_pk r <> pk) ->
  perform op caller pk db =
  if requires_authentication op && negb (is_authenticated caller)
  then (exception_handler NotAuthenticated, db)
  else
    match op with
    | RateItem _ _ =>
        (mkResponse (JObj [("error", JStr "Item not found")]) HTTP_404_NOT_FOUND, db)
    | _ => (exception_handler Http404, db)
    end.
Proof.
  intros Hmiss.
  pose proof (Recipe_get_object_or_404_missing db pk Hmiss) as H404.
  pose proof (Recipe_objects_get_missing db pk Hmiss) as Hget.
  destruct op; destruct caller as [|u];
    cbv [perform requires_authentication is_authenticated andb negb
         ItemDetailView_put ItemDetailView_delete RecipeViewSet_put
         RecipeViewSet_delete rate_item rate_recipe like_recipe
         as_view api_view bind query ret raise
         ItemDetailView_update ItemDetailView_destroy
         RecipeViewSet_update RecipeViewSet_destroy get_object
         rate_item_body rate_recipe_body like_recipe_body
         check_permissions permission_denied forallb has_permission
         ItemDetailView_permission_classes RecipeViewSet_permission_classes
         SAFE_METHODS user data];
    rewrite ?H404, ?Hget; reflexivity.
Qed.




Example rate_missing_item :
  map (fun caller => status_code (fst (perform (RateItem (mkRateData (Some 9%Z)) 0)
                                         caller 99 sample_db)))
      [AuthUser alice; AuthUser bob; AnonymousUser]
  = [404; 404; 401].
Proof. reflexivity. Qed.

(* ================================================================== *)
(** * Further properties of the views *)
(* ================================================================== *)

(** ** [rate_item], step by step *)

Lemma objects_get_Ok {A : Type} (p : A -> bool) (table : list A) (x : A) :
  objects_get p table = Ok x -> In x table /\ p x = true.
Proof.
  unfold objects_get. intros H.
  destruct (filter p table) as [|y [|z t]] eqn:Hf; try discriminate.
  injection H as ->. apply filter_In. rewrite Hf. now left.
Qed.

Lemma RatingSerializer_is_valid_Some (d : RateData) (s : Z) :
  RatingSerializer_is_valid d = Some s <-> rating d = Some s /\ (1 <= s <= 5)%Z.
Proof.
  unfold RatingSerializer_is_valid. destruct (rating d) as [z|].
  - destruct ((1 <=? z)%Z && (z <? 6)%Z) eqn:Hr.
    + apply andb_true_iff in Hr. destruct Hr as [H1 H2].
      apply Z.leb_le in H1. apply Z.ltb_lt in H2. split.
      * intros H. injection H as <-. split; [reflexivity|lia].
      * intros [H _]. exact H.
    + split; [discriminate|]. intros [H Hs]. injection H as ->.
      apply andb_false_iff in Hr. destruct Hr as [Hr|Hr];
        [apply Z.leb_gt in Hr|apply Z.ltb_ge in Hr]; lia.
  - split; [discriminate|]. intros [H _]. discriminate.
Qed.

(** What [rate_item] answers and leaves, for every request. *)
Lemma rate_item_step (request : Request RateData) (pk now : nat) (db : DB) :
  NoDup (map rating_pair (ratings db)) ->
  rate_item request pk now db =
  match user request with
  | AnonymousUser => (exception_handler NotAuthenticated, db)
  | AuthUser u =>
      match objects_get (fun i => recipe_pk i =? pk) (recipes db) with
      | Raise DoesNotExist =>
          (mkResponse (JObj [("error", JStr "Item not found")]) HTTP_404_NOT_FOUND, db)
      | Raise e => (exception_handler e, db)
      | Ok item =>
          match RatingSerializer_is_valid (data request) with
          | Some s =>
              let db' :=
                set_ratings db (upsert_rating (user_pk u) pk s now (ratings db)) in
              (mkResponse (ItemSerializer_data (Some request) db' item)
                 HTTP_201_CREATED, db')
          | None => (mkResponse JErrors HTTP_400_BAD_REQUEST, db)
          end
      end
  end.
Proof.
  intros Hpair. unfold rate_item, as_view, api_view, rate_item_body.
  cbv [bind check_permissions forallb has_permission andb ret raise
       permission_denied RatingSerializer_create request_user].
  destruct (user request) as [|u] eqn:Hu; cbn [is_authenticated]; [reflexivity|].
  destruct (objects_get _ (recipes db)) as [item|[]]; try reflexivity.
  destruct (RatingSerializer_is_valid (data request)) as [s|]; [|reflexivity].
  destruct (update_or_create_upsert (user_pk u) pk s now db Hpair)
    as [row [created Huc]].
  rewrite Huc. reflexivity.
Qed.

Lemma filter_map_fixed {A : Type} (p : A -> bool) (f : A -> A) (l : list A) :
  (forall y, In y l -> p (f y) = p y) ->
  (forall y, In y l -> p y = true -> f y = y) ->
  filter p (map f l) = filter p l.
Proof.
  induction l as [|a t IH]; simpl; intros Hp Hfix; [reflexivity|].
  rewrite (Hp a (or_introl eq_refl)).
  rewrite IH;
    [|intros y Hy; apply Hp; now right
     |intros y Hy Hpy; apply Hfix; [now right|exact Hpy]].
  destruct (p a) eqn:Hpa; [|reflexivity].
  now rewrite (Hfix a (or_introl eq_refl) Hpa).
Qed.

Lemma rating_key_false (u i : nat) (r : Rating) :
  rating_key u i r = false <-> rating_pair r <> (u, i).
Proof.
  rewrite <- rating_key_pair. destruct (rating_key u i r); split; congruence.
Qed.

(** An upsert for one pair leaves the rows of every other pair as they
    were. *)
Lemma upsert_rating_frame (u i u' i' : nat) (s : Z) (now : nat)
    (table : list Rating) :
  NoDup (map rating_pk table) -> NoDup (map rating_pair table) ->
  (u', i') <> (u, i) ->
  filter (rating_key u' i') (upsert_rating u i s now table) =
  filter (rating_key u' i') table.
Proof.
  intros Hpk Hpair Hne. unfold upsert_rating.
  destruct (ratings_of_pair_at_most_one u i table Hpair) as [Hnone|[x [Hx [Hk Hone]]]].
  - rewrite Hnone, filter_app. simpl.
    assert (Hnew : rating_key u' i'
                     (mkRating (next_pk rating_pk table) u i s now) = false).
    { apply rating_key_false. unfold rating_pair. simpl. congruence. }
    rewrite Hnew. apply app_nil_r.
  - rewrite Hone. unfold save. apply filter_map_fixed.
    + intros y Hy. destruct (rating_pk y =? rating_pk (set_rating x s)) eqn:He;
        [|reflexivity].
      apply Nat.eqb_eq in He. simpl in He.
      now rewrite (NoDup_map_inj rating_pk table y x Hpk Hy Hx He).
    + intros y Hy Hky. destruct (rating_pk y =? rating_pk (set_rating x s)) eqn:He;
        [|reflexivity].
      apply Nat.eqb_eq in He. simpl in He.
      rewrite (NoDup_map_inj rating_pk table y x Hpk Hy Hx He) in Hky.
      apply rating_key_pair in Hky, Hk. congruence.
Qed.

(** The rows of an upserted table carry the pairs of the old rows or the
    pair of the upsert, and old values or the new one. *)
Lemma upsert_rating_rows (u i : nat) (s : Z) (now : nat) (table : list Rating)
    (y : Rating) :
  In y (upsert_rating u i s now table) ->
  (In y table)
  \/ (rating_pair y = (u, i) /\ rating_rating y = s).
Proof.
  unfold upsert_rating.
  destruct (filter (rating_key u i) table) as [|x [|z t]] eqn:Hf.
  - intros Hy. apply in_app_or in Hy. destruct Hy as [Hy|[<-|[]]]; [now left|].
    right. split; reflexivity.
  - unfold save. intros Hy. apply in_map_iff in Hy. destruct Hy as [w [Hw Hin]].
    destruct (rating_pk w =? rating_pk (set_rating x s)); [|left; now subst].
    subst y. right. split; [|reflexivity].
    assert (Hx : In x (filter (rating_key u i) table)) by (rewrite Hf; now left).
    apply filter_In in Hx. destruct Hx as [_ Hk]. now apply rating_key_pair in Hk.
  - now left.
Qed.

Lemma upsert_rating_valid (u i : nat) (s : Z) (now : nat) (table : list Rating) :
  (1 <= s <= 5)%Z ->
  Forall (fun r => (1 <= rating_rating r <= 5)%Z) table ->
  Forall (fun r => (1 <= rating_rating r <= 5)%Z) (upsert_rating u i s now table).
Proof.
  intros Hs Hall. apply Forall_forall. intros y Hy.
  destruct (upsert_rating_rows u i s now table y Hy) as [Hold|[_ Hnew]].
  - now apply (proj1 (Forall_forall _ _) Hall).
  - now rewrite Hnew.
Qed.

(** X1.  Whatever the request, [rate_item] keeps the constraints of the
    store (unique primary keys, one rating per account and recipe) and keeps
    every stored rating between 1 and 5. *)
Theorem rate_item_keeps_store_consistent
    (request : Request RateData) (pk now : nat) (db : DB) :
  integrity db -> ratings_valid db ->
  integrity (snd (rate_item request pk now db))
  /\ ratings_valid (snd (rate_item request pk now db)).
Proof.
  intros Hi Hv. rewrite (rate_item_step request pk now db (rating_unique_together db Hi)).
  destruct (user request) as [|u]; [now split|].
  destruct (objects_get _ (recipes db)) as [item|[]]; try now split.
  destruct (RatingSerializer_is_valid (data request)) as [s|] eqn:Hs; [|now split].
  apply RatingSerializer_is_valid_Some in Hs. destruct Hs as [_ Hs].
  cbn [snd].
  destruct (upsert_rating_spec (user_pk u) pk s now (ratings db)
              (rating_pk_unique db Hi) (rating_unique_together db Hi))
    as [_ [Hpk [Hpair _]]].
  split.
  - now apply integrity_set_ratings.
  - unfold ratings_valid. cbn [set_ratings ratings]. now apply upsert_rating_valid.
Qed.

Lemma rate_item_keeps_store_consistent_witness :
  integrity (snd (rate_item (rating_request alice 3) 1 150 sample_db))
  /\ ratings_valid (snd (rate_item (rating_request alice 3) 1 150 sample_db)).
Proof.
  apply (rate_item_keeps_store_consistent (rating_request alice 3) 1 150 sample_db
           sample_db_integrity).
  unfold ratings_valid. simpl. repeat constructor; simpl; lia.
Defined.

(** X2.  In a store whose ratings are all between 1 and 5, the average
    rating of a recipe is 0 when it has no rating and lies between 1 and 5
    when it has one. *)
Theorem average_rating_in_range (db : DB) (r : Recipe) :
  ratings_valid db ->
  (scores_of db r = [] /\ (Item_average_rating db r == 0)%Q)
  \/ (scores_of db r <> []
      /\ (1 <= Item_average_rating db r)%Q /\ (Item_average_rating db r <= 5)%Q).
Proof.
  intros Hv. unfold Item_average_rating, qs_exists, qs_count.
  assert (Hscores : map rating_rating (ratings_of db (recipe_pk r)) = scores_of db r)
    by reflexivity.
  destruct (ratings_of db (recipe_pk r)) as [|x t] eqn:Hr.
  - left. split; [now rewrite <- Hscores|reflexivity].
  - right. rewrite <- Hscores. split; [discriminate|].
    rewrite <- (length_map rating_rating (x :: t)).
    unfold py_truediv. rewrite py_sum_total.
    fold (mean (map rating_rating (x :: t))).
    assert (Hm : (1 <= mean (map rating_rating (x :: t))
                  /\ mean (map rating_rating (x :: t)) <= 5)%Q).
    { apply (mean_between_1_and_5 (map rating_rating (x :: t))); [discriminate|].
      apply Forall_forall. intros z Hz. apply in_map_iff in Hz.
      destruct Hz as [w [<- Hw]]. rewrite <- Hr in Hw.
      unfold ratings_of in Hw. apply filter_In in Hw.
      apply (proj1 (Forall_forall _ _) Hv). tauto. }
    change 1%Q with (inject_Z 1). change 5%Q with (inject_Z 5).
    apply round_to_double_between; [lia|reflexivity|apply Hm|apply Hm].
Qed.

Lemma average_rating_in_range_witness :
  (scores_of sample_db pasta = [] /\ (Item_average_rating sample_db pasta == 0)%Q)
  \/ (scores_of sample_db pasta <> []
      /\ (1 <= Item_average_rating sample_db pasta)%Q
      /\ (Item_average_rating sample_db pasta <= 5)%Q).
Proof.
  apply (average_rating_in_range sample_db pasta).
  unfold ratings_valid. simpl. repeat constructor; simpl; lia.
Defined.

(** X3.  [rate_item] writes at most the rating of the caller for the
    addressed recipe: the ratings of every other pair of account and recipe,
    and the tables of users, recipes, likes and comments, are left as they
    were, whatever the request. *)
Theorem rate_item_touches_one_pair
    (request : Request RateData) (pk now : nat) (db : DB) (u' i' : nat) :
  integrity db ->
  (forall u, user request = AuthUser u -> (u', i') <> (user_pk u, pk)) ->
  let db' := snd (rate_item request pk now db) in
  filter (rating_key u' i') (ratings db') = filter (rating_key u' i') (ratings db)
  /\ users db' = users db /\ recipes db' = recipes db
  /\ likes db' = likes db /\ comments db' = comments db.
Proof.
  intros Hi Hother. cbv zeta.
  rewrite (rate_item_step request pk now db (rating_unique_together db Hi)).
  destruct (user request) as [|u]; [now repeat split|].
  destruct (objects_get _ (recipes db)) as [item|[]]; try now repeat split.
  destruct (RatingSerializer_is_valid (data request)) as [s|]; [|now repeat split].
  cbn [snd set_ratings ratings users recipes likes comments].
  split; [|now repeat split].
  apply upsert_rating_frame.
  - apply (rating_pk_unique db Hi).
  - apply (rating_unique_together db Hi).
  - now apply Hother.
Qed.

Lemma rate_item_touches_one_pair_witness :
  let db' := snd (rate_item (rating_request alice 3) 1 150 sample_db) in
  filter (rating_key 2 1) (ratings db') = filter (rating_key 2 1) (ratings sample_db)
  /\ users db' = users sample_db /\ recipes db' = recipes sample_db
  /\ likes db' = likes sample_db /\ comments db' = comments sample_db.
Proof.
  apply (rate_item_touches_one_pair (rating_request alice 3) 1 150 sample_db 2 1
           sample_db_integrity).
  intros u Hu. injection Hu as <-. simpl. discriminate.
Defined.

Lemma rating_of_user_key (u : User) (item_id : nat) (table : list Rating) :
  filter (rating_of_user (AuthUser u) item_id) table =
  filter (rating_key (user_pk u) item_id) table.
Proof. reflexivity. Qed.

(** X4.  What an account has just rated is what it reads back: after an
    accepted [rate_item] with score [s], the answer is a 201 whose
    [user_rating] is [s], and [get_user_rating] for that account on the
    recipe gives [s]. *)
Theorem rate_item_then_user_rating
    (db : DB) (u : User) (r : Recipe) (s : Z) (now : nat) :
  integrity db -> In r (recipes db) -> (1 <= s <= 5)%Z ->
  let answer := rate_item (rating_request u s) (recipe_pk r) now db in
  status_code (fst answer) = HTTP_201_CREATED
  /\ json_get "user_rating" (response_data (fst answer)) = Some (JInt s)
  /\ get_user_rating (Some (rating_request u s)) (snd answer) r = Some s.
Proof.
  intros Hi Hr Hs. cbv zeta.
  rewrite (rate_item_step _ _ now db (rating_unique_together db Hi)).
  cbn [rating_request user]. rewrite (Recipe_objects_get db r Hi Hr).
  assert (Hv : RatingSerializer_is_valid (data (rating_request u s)) = Some s)
    by (apply RatingSerializer_is_valid_Some; now split).
  fold (rating_request u s). rewrite Hv. cbn [fst snd status_code response_data].
  destruct (upsert_rating_spec (user_pk u) (recipe_pk r) s now (ratings db)
              (rating_pk_unique db Hi) (rating_unique_together db Hi))
    as [[row [Hrow Hval]] _].
  assert (Hread : get_user_rating (Some (rating_request u s))
                    (set_ratings db
                       (upsert_rating (user_pk u) (recipe_pk r) s now (ratings db)))
                    r = Some s).
  { unfold get_user_rating. cbn [rating_request user is_authenticated set_ratings
                                 ratings].
    rewrite rating_of_user_key, Hrow. simpl. now rewrite Hval. }
  split; [reflexivity|]. split; [|exact Hread].
  unfold ItemSerializer_data, json_get. simpl find. cbn [snd].
  rewrite rating_of_user_key, Hrow. simpl. now rewrite Hval.
Qed.

Lemma rate_item_then_user_rating_witness :
  let answer := rate_item (rating_request alice 3) 1 150 sample_db in
  status_code (fst answer) = HTTP_201_CREATED
  /\ json_get "user_rating" (response_data (fst answer)) = Some (JInt 3)
  /\ get_user_rating (Some (rating_request alice 3)) (snd answer) pasta = Some 3%Z.
Proof.
  apply (rate_item_then_user_rating sample_db alice pasta 3 150
           sample_db_integrity (or_introl eq_refl)).
  lia.
Defined.

Lemma filter_ext_in_bool {A : Type} (p q : A -> bool) (l : list A) :
  (forall y, In y l -> p y = q y) -> filter p l = filter q l.
Proof.
  induction l as [|a t IH]; simpl; intros H; [reflexivity|].
  rewrite (H a (or_introl eq_refl)), IH; [reflexivity|].
  intros y Hy. apply H. now right.
Qed.

(** X5.  When nobody else has rated the recipe, the average after an
    accepted [rate_item] is the score just given, however often the account
    had rated before, and the recipe counts one rating. *)
Theorem sole_rater_sets_the_average
    (db : DB) (u : User) (r : Recipe) (s : Z) (now : nat) :
  integrity db -> In r (recipes db) -> (1 <= s <= 5)%Z ->
  (forall x, In x (ratings db) -> rating_item x = recipe_pk r ->
             rating_user x = user_pk u) ->
  let db' := snd (rate_item (rating_request u s) (recipe_pk r) now db) in
  (Item_average_rating db' r == inject_Z s)%Q
  /\ (Recipe_average_rating db' r == inject_Z s)%Q
  /\ rating_count db' r = 1.
Proof.
  intros Hi Hr Hs Hsole. cbv zeta.
  rewrite (rate_item_step _ _ now db (rating_unique_together db Hi)).
  cbn [rating_request user]. rewrite (Recipe_objects_get db r Hi Hr).
  assert (Hv : RatingSerializer_is_valid (data (rating_request u s)) = Some s)
    by (apply RatingSerializer_is_valid_Some; now split).
  fold (rating_request u s). rewrite Hv. cbn [snd].
  destruct (upsert_rating_spec (user_pk u) (recipe_pk r) s now (ratings db)
              (rating_pk_unique db Hi) (rating_unique_together db Hi))
    as [[row [Hrow Hval]] _].
  assert (Hof : ratings_of
                  (set_ratings db
                     (upsert_rating (user_pk u) (recipe_pk r) s now (ratings db)))
                  (recipe_pk r) = [row]).
  { unfold ratings_of. cbn [set_ratings ratings]. rewrite <- Hrow.
    apply filter_ext_in_bool. intros y Hy. unfold rating_key.
    destruct (rating_item y =? recipe_pk r) eqn:Hitem;
      [|now rewrite andb_false_r].
    rewrite andb_true_r. symmetry. apply Nat.eqb_eq.
    apply Nat.eqb_eq in Hitem.
    destruct (upsert_rating_rows _ _ _ _ _ y Hy) as [Hold|[Hpair _]].
    - now apply Hsole.
    - unfold rating_pair in Hpair. congruence. }
  unfold Item_average_rating, Recipe_average_rating, rating_count.
  rewrite Hof. simpl. rewrite Hval.
  assert (Hq : (py_truediv (py_sum [s]) 1 == inject_Z s)%Q).
  { unfold py_truediv, py_sum. simpl fold_left.
    assert (He : (inject_Z s / inject_Z 1 == inject_Z s)%Q)
      by (change (inject_Z 1) with 1%Q; field).
    destruct (round_to_double_between s s (inject_Z s / inject_Z 1)%Q) as [H1 H2];
      [lia|change (2 ^ 53)%Z with 9007199254740992%Z; lia
       |rewrite He; apply Qle_refl|rewrite He; apply Qle_refl|].
    now apply Qle_antisym. }
  split; [exact Hq|]. split; [|reflexivity].
  unfold or_0. destruct (Qeq_bool _ 0) eqn:Hz; [|exact Hq].
  apply Qeq_bool_iff in Hz. now rewrite <- Hq, Hz.
Qed.

Lemma sole_rater_sets_the_average_witness :
  let db' := snd (rate_item (rating_request bob 5) 1 150 sample_db) in
  (Item_average_rating db' pasta == inject_Z 5)%Q
  /\ (Recipe_average_rating db' pasta == inject_Z 5)%Q
  /\ rating_count db' pasta = 1.
Proof.
  apply (sole_rater_sets_the_average sample_db bob pasta 5 150
           sample_db_integrity (or_introl eq_refl)).
  - lia.
  - simpl. intros x [<-|[]] _. reflexivity.
Defined.

(** ** [like_recipe], step by step *)

Lemma filter_filter_implied {A : Type} (p q : A -> bool) (l : list A) :
  (forall y, In y l -> p y = true -> q y = true) ->
  filter p (filter q l) = filter p l.
Proof.
  induction l as [|a t IH]; simpl; intros H; [reflexivity|].
  assert (Ht : forall y, In y t -> p y = true -> q y = true)
    by (intros y Hy; apply H; now right).
  destruct (q a) eqn:Hq; simpl.
  - now rewrite IH.
  - destruct (p a) eqn:Hp; [|now apply IH].
    rewrite (H a (or_introl eq_refl) Hp) in Hq. discriminate.
Qed.

Lemma length_filter_delete {A : Type} (pk : A -> nat) (p : A -> bool)
    (table : list A) (x : A) :
  NoDup (map pk table) -> In x table -> p x = true ->
  S (List.length (filter p (delete pk x table))) = List.length (filter p table).
Proof.
  unfold delete. induction table as [|a t IH]; simpl; intros Hnd Hx Hp;
    [contradiction|].
  inversion Hnd as [|? ? Hnotin Hnd']; subst.
  destruct Hx as [->|Hx].
  - rewrite Nat.eqb_refl, Hp. simpl. f_equal. f_equal.
    apply filter_filter_implied. intros y Hy _. apply negb_true_iff, Nat.eqb_neq.
    intros Heq. apply Hnotin. rewrite <- Heq. now apply in_map.
  - assert (Hne : (pk a =? pk x) = false).
    { apply Nat.eqb_neq. intros Heq. apply Hnotin. rewrite Heq. now apply in_map. }
    rewrite Hne. simpl. destruct (p a); simpl; now rewrite <- (IH Hnd' Hx Hp).
Qed.

Lemma toggle_like_integrity (u i now : nat) (table : list Like) :
  NoDup (map like_pk table) -> NoDup (map like_pair table) ->
  NoDup (map like_pk (toggle_like u i now table))
  /\ NoDup (map like_pair (toggle_like u i now table)).
Proof.
  intros Hpk Hpair. unfold toggle_like.
  destruct (filter (like_key u i) table) as [|x [|z t]] eqn:Hf.
  - split.
    + apply NoDup_map_app_fresh; [exact Hpk|].
      intros y Hy. apply (next_pk_fresh like_pk) in Hy. simpl. lia.
    + apply NoDup_map_app_fresh; [exact Hpair|].
      intros y Hy Heq.
      pose proof (filter_nil_all_false _ _ Hf y Hy) as Hfalse.
      apply like_key_false in Hfalse. apply Hfalse. rewrite Heq. reflexivity.
  - unfold delete. split; now apply NoDup_map_filter.
  - now split.
Qed.

Lemma toggle_like_frame (u i u' i' now : nat) (table : list Like) :
  NoDup (map like_pk table) -> (u', i') <> (u, i) ->
  filter (like_key u' i') (toggle_like u i now table) =
  filter (like_key u' i') table.
Proof.
  intros Hpk Hne. unfold toggle_like.
  destruct (filter (like_key u i) table) as [|x [|z t]] eqn:Hf; [| |reflexivity].
  - rewrite filter_app. simpl.
    assert (Hnew : like_key u' i' (mkLike (next_pk like_pk table) u i now) = false).
    { apply like_key_false. unfold like_pair. simpl. congruence. }
    rewrite Hnew. apply app_nil_r.
  - assert (Hx : In x (filter (like_key u i) table)) by (rewrite Hf; now left).
    apply filter_In in Hx. destruct Hx as [Hx Hk].
    unfold delete. apply filter_filter_implied. intros y Hy Hky.
    apply negb_true_iff, Nat.eqb_neq. intros Heq.
    rewrite (NoDup_map_inj like_pk table y x Hpk Hy Hx Heq) in Hky.
    apply like_key_pair in Hky, Hk. congruence.
Qed.

(** What [like_recipe] answers and leaves, for every request. *)
Lemma like_recipe_step (request : Request unit) (pk now : nat) (db : DB) :
  NoDup (map like_pair (likes db)) ->
  like_recipe request pk now db =
  match user request with
  | AnonymousUser => (exception_handler NotAuthenticated, db)
  | AuthUser u =>
      match get_object_or_404 (fun r => recipe_pk r =? pk) (recipes db) with
      | Raise e => (exception_handler e, db)
      | Ok recipe =>
          (liked (negb (qs_exists
                          (filter (like_key (user_pk u) (recipe_pk recipe)) (likes db)))),
           set_likes db (toggle_like (user_pk u) (recipe_pk recipe) now (likes db)))
      end
  end.
Proof.
  intros Hpair. unfold like_recipe, as_view, api_view, like_recipe_body.
  cbv [bind query check_permissions forallb has_permission andb ret raise
       permission_denied request_user].
  destruct (user request) as [|u] eqn:Hu; cbn [is_authenticated]; [reflexivity|].
  destruct (get_object_or_404 _ (recipes db)) as [recipe|e]; [|reflexivity].
  cbv [Like_objects_get_or_create objects_get toggle_like].
  destruct (likes_of_pair_at_most_one (user_pk u) (recipe_pk recipe) (likes db) Hpair)
    as [Hnone|[x [Hx Hone]]].
  - rewrite Hnone.
    assert (He : existsb (like_key (user_pk u) (recipe_pk recipe)) (likes db) = false).
    { destruct (existsb _ _) eqn:He; [|reflexivity].
      apply existsb_exists in He. destruct He as [y [Hy Hky]].
      rewrite (filter_nil_all_false _ _ Hnone y Hy) in Hky. discriminate. }
    cbv [bind Like_objects_create ret]. rewrite He. reflexivity.
  - rewrite Hone. reflexivity.
Qed.

(** X6.  Whatever the request, [like_recipe] keeps the constraints of the
    store, writes at most the Like of the caller for the addressed recipe,
    and leaves the likes of every other pair and the other tables alone. *)
Theorem like_recipe_keeps_store_consistent
    (request : Request unit) (pk now : nat) (db : DB) (u' i' : nat) :
  integrity db ->
  (forall u, user request = AuthUser u -> (u', i') <> (user_pk u, pk)) ->
  let db' := snd (like_recipe request pk now db) in
  integrity db'
  /\ filter (like_key u' i') (likes db') = filter (like_key u' i') (likes db)
  /\ users db' = users db /\ recipes db' = recipes db
  /\ ratings db' = ratings db /\ comments db' = comments db.
Proof.
  intros Hi Hother. cbv zeta.
  rewrite (like_recipe_step request pk now db (like_unique_together db Hi)).
  destruct (user request) as [|u]; [split; [exact Hi|now repeat split]|].
  destruct (get_object_or_404 _ (recipes db)) as [recipe|e] eqn:Hg;
    [|split; [exact Hi|now repeat split]].
  assert (Hpk : recipe_pk recipe = pk).
  { unfold get_object_or_404 in Hg.
    destruct (objects_get _ (recipes db)) as [x|[]] eqn:Ho; try discriminate.
    injection Hg as ->. apply objects_get_Ok in Ho. now apply Nat.eqb_eq. }
  rewrite Hpk. cbn [snd set_likes likes users recipes ratings comments].
  destruct (toggle_like_integrity (user_pk u) pk now (likes db)
              (like_pk_unique db Hi) (like_unique_together db Hi)) as [H1 H2].
  split; [now apply integrity_set_likes|]. split; [|now repeat split].
  apply toggle_like_frame; [apply (like_pk_unique db Hi)|now apply Hother].
Qed.

Lemma like_recipe_keeps_store_consistent_witness :
  let db' := snd (like_recipe (like_request alice) 1 200 sample_db) in
  integrity db'
  /\ filter (like_key 2 1) (likes db') = filter (like_key 2 1) (likes sample_db)
  /\ users db' = users sample_db /\ recipes db' = recipes sample_db
  /\ ratings db' = ratings sample_db /\ comments db' = comments sample_db.
Proof.
  apply (like_recipe_keeps_store_consistent (like_request alice) 1 200 sample_db 2 1
           sample_db_integrity).
  intros u Hu. injection Hu as <-. simpl. discriminate.
Defined.

Lemma toggle_like_count (u i now : nat) (table : list Like) :
  NoDup (map like_pk table) -> NoDup (map like_pair table) ->
  let b := negb (qs_exists (filter (like_key u i) table)) in
  qs_exists (filter (like_key u i) (toggle_like u i now table)) = b
  /\ List.length (filter (fun l => like_item l =? i) (toggle_like u i now table))
     + (if b then 0 else 1)
     = List.length (filter (fun l => like_item l =? i) table)
       + (if b then 1 else 0).
Proof.
  intros Hpk Hpair. cbv zeta.
  destruct (toggle_like_spec u i now table Hpair) as [Hcreate Hdelete].
  unfold toggle_like in *.
  destruct (likes_of_pair_at_most_one u i table Hpair) as [Hnone|[x [Hx Hone]]].
  - destruct (Hcreate Hnone) as [row Hrow]. rewrite Hnone in *. rewrite Hrow.
    split; [reflexivity|]. rewrite filter_app, length_app. simpl.
    rewrite Nat.eqb_refl. simpl. lia.
  - rewrite Hone in *. rewrite Hdelete by discriminate.
    split; [reflexivity|]. simpl.
    assert (Hitem : (like_item x =? i) = true).
    { assert (Hin : In x (filter (like_key u i) table)) by (rewrite Hone; now left).
      apply filter_In in Hin. destruct Hin as [_ Hk].
      unfold like_key in Hk. apply andb_true_iff in Hk. tauto. }
    rewrite <- (length_filter_delete like_pk _ table x Hpk Hx Hitem). lia.
Qed.

Lemma like_of_user_key (u : User) (item_id : nat) (table : list Like) :
  filter (like_of_user (AuthUser u) item_id) table =
  filter (like_key (user_pk u) item_id) table.
Proof. reflexivity. Qed.

(** X7.  The answer of [like_recipe] tells the state it leaves: with
    [liked: b] in the answer, [is_liked] for the caller is [b] afterwards and
    was the opposite before, and the like count of the recipe has moved by
    exactly one, up when [b] is true and down when it is false. *)
Theorem like_recipe_answer_matches_store (db : DB) (u : User) (r : Recipe) (now : nat) :
  integrity db -> In r (recipes db) ->
  let answer := like_recipe (like_request u) (recipe_pk r) now db in
  exists b,
    fst answer = liked b
    /\ get_is_liked (Some (like_request u)) (snd answer) r = b
    /\ get_is_liked (Some (like_request u)) db r = negb b
    /\ likes_count (snd answer) r + (if b then 0 else 1)
       = likes_count db r + (if b then 1 else 0).
Proof.
  intros Hi Hr. cbv zeta. rewrite (like_recipe_toggle db u r now Hi Hr).
  cbn [fst snd].
  destruct (toggle_like_count (user_pk u) (recipe_pk r) now (likes db)
              (like_pk_unique db Hi) (like_unique_together db Hi)) as [Hb Hcount].
  eexists. split; [reflexivity|].
  unfold get_is_liked, likes_count, likes_of, qs_count.
  cbn [like_request user is_authenticated set_likes likes].
  rewrite !like_of_user_key. split; [exact Hb|]. split; [|exact Hcount].
  now rewrite negb_involutive.
Qed.

Lemma like_recipe_answer_matches_store_witness :
  let answer := like_recipe (like_request alice) 1 200 sample_db in
  exists b,
    fst answer = liked b
    /\ get_is_liked (Some (like_request alice)) (snd answer) pasta = b
    /\ get_is_liked (Some (like_request alice)) sample_db pasta = negb b
    /\ likes_count (snd answer) pasta + (if b then 0 else 1)
       = likes_count sample_db pasta + (if b then 1 else 0).
Proof.
  exact (like_recipe_answer_matches_store sample_db alice pasta 200
           sample_db_integrity (or_introl eq_refl)).
Defined.

(** X8.  Two successive [like_recipe] requests by the same account on a
    stored recipe cancel out: the like count of the recipe and the caller's
    [is_liked] are what they were, and the two answers are opposite. *)
Theorem like_recipe_twice_cancels (db : DB) (u : User) (r : Recipe) (now1 now2 : nat) :
  integrity db -> In r (recipes db) ->
  let first := like_recipe (like_request u) (recipe_pk r) now1 db in
  let second := like_recipe (like_request u) (recipe_pk r) now2 (snd first) in
  likes_count (snd second) r = likes_count db r
  /\ get_is_liked (Some (like_request u)) (snd second) r
     = get_is_liked (Some (like_request u)) db r
  /\ exists b, fst first = liked b /\ fst second = liked (negb b).
Proof.
  intros Hi Hr. cbv zeta. rewrite (like_recipe_toggle db u r now1 Hi Hr). cbn [snd fst].
  destruct (toggle_like_integrity (user_pk u) (recipe_pk r) now1 (likes db)
              (like_pk_unique db Hi) (like_unique_together db Hi)) as [Hpk1 Hpair1].
  pose proof (integrity_set_likes db _ Hi Hpk1 Hpair1) as Hi1.
  rewrite (like_recipe_toggle _ u r now2 Hi1 Hr). cbn [snd fst].
  destruct (toggle_like_count (user_pk u) (recipe_pk r) now1 (likes db)
              (like_pk_unique db Hi) (like_unique_together db Hi)) as [Hb1 Hc1].
  destruct (toggle_like_count (user_pk u) (recipe_pk r) now2 _ Hpk1 Hpair1)
    as [Hb2 Hc2].
  unfold get_is_liked, likes_count, likes_of, qs_count.
  cbn [like_request user is_authenticated set_likes likes] in *.
  rewrite !like_of_user_key. rewrite Hb1 in Hb2, Hc2. rewrite Hb2.
  rewrite negb_involutive in *.
  split; [|split; [reflexivity|]].
  - destruct (qs_exists (filter (like_key (user_pk u) (recipe_pk r)) (likes db)));
      cbn [negb] in *; lia.
  - eexists. split; [reflexivity|]. now rewrite Hb1.
Qed.

Lemma like_recipe_twice_cancels_witness :
  let first := like_recipe (like_request bob) 1 200 sample_db in
  let second := like_recipe (like_request bob) 1 210 (snd first) in
  likes_count (snd second) pasta = likes_count sample_db pasta
  /\ get_is_liked (Some (like_request bob)) (snd second) pasta
     = get_is_liked (Some (like_request bob)) sample_db pasta
  /\ exists b, fst first = liked b /\ fst second = liked (negb b).
Proof.
  exact (like_recipe_twice_cancels sample_db bob pasta 200 210
           sample_db_integrity (or_introl eq_refl)).
Defined.

(** ** Deleting a recipe *)

Lemma get_object_or_404_Ok (db : DB) (pk : nat) (r : Recipe) :
  get_object_or_404 (fun x => recipe_pk x =? pk) (recipes db) = Ok r ->
  In r (recipes db) /\ recipe_pk r = pk.
Proof.
  unfold get_object_or_404. intros H.
  destruct (objects_get _ (recipes db)) as [x|[]] eqn:Ho; try discriminate.
  injection H as ->. apply objects_get_Ok in Ho.
  split; [tauto|]. now apply Nat.eqb_eq.
Qed.

Lemma delete_cascade_integrity (db : DB) (r : Recipe) :
  integrity db -> integrity (delete_cascade r db).
Proof.
  intros []. constructor; simpl; unfold delete; try apply NoDup_map_filter;
    assumption.
Qed.

Lemma delete_cascade_recipes (db : DB) (r r' : Recipe) :
  In r' (recipes (delete_cascade r db)) <->
  In r' (recipes db) /\ recipe_pk r' <> recipe_pk r.
Proof.
  simpl. unfold delete. rewrite filter_In, negb_true_iff, Nat.eqb_neq. reflexivity.
Qed.

Lemma delete_cascade_foreign_keys (db : DB) (r : Recipe) :
  foreign_keys db -> foreign_keys (delete_cascade r db).
Proof.
  intros [Hr Hl Hc].
  assert (Hkeep : forall i, item_stored db i -> i <> recipe_pk r ->
                            item_stored (delete_cascade r db) i).
  { intros i [x [Hx Hpk]] Hne. exists x. split; [|exact Hpk].
    apply delete_cascade_recipes. split; [exact Hx|congruence]. }
  constructor; simpl; intros y Hy; apply filter_In in Hy; destruct Hy as [Hy Hne];
    apply negb_true_iff, Nat.eqb_neq in Hne; apply Hkeep; auto.
Qed.

Lemma filter_item_after_cascade {A : Type} (item : A -> nat) (pk other : nat)
    (table : list A) :
  filter (fun x => item x =? other)
         (filter (fun x => negb (item x =? pk)) table) =
  if other =? pk then [] else filter (fun x => item x =? other) table.
Proof.
  destruct (other =? pk) eqn:He.
  - apply Nat.eqb_eq in He. subst other. apply filter_none. intros y Hy.
    apply filter_In in Hy. destruct Hy as [_ Hy]. now apply negb_true_iff in Hy.
  - apply Nat.eqb_neq in He. apply filter_filter_implied. intros y _ Hy.
    apply Nat.eqb_eq in Hy. apply negb_true_iff, Nat.eqb_neq. congruence.
Qed.

(** X9.  When the author deletes a stored recipe through [ItemDetailView],
    the answer is 204, the recipe is gone and so are all of its ratings,
    likes and comments; every other recipe keeps its row, ratings, likes and
    comments; the constraints of the store and its foreign keys still hold. *)
Theorem delete_cascades (db : DB) (r : Recipe) (u : User) :
  integrity db -> foreign_keys db -> In r (recipes db) ->
  recipe_author r = user_pk u ->
  let answer := ItemDetailView_delete (mkRequest (AuthUser u) tt) (recipe_pk r) db in
  let db' := snd answer in
  status_code (fst answer) = HTTP_204_NO_CONTENT
  /\ ~ item_stored db' (recipe_pk r)
  /\ (forall other,
        ratings_of db' other = (if other =? recipe_pk r then [] else ratings_of db other)
        /\ likes_of db' other = (if other =? recipe_pk r then [] else likes_of db other)
        /\ comments_all db' other =
           (if other =? recipe_pk r then [] else comments_all db other))
  /\ (forall r', In r' (recipes db) -> r' <> r -> In r' (recipes db'))
  /\ users db' = users db
  /\ integrity db' /\ foreign_keys db'.
Proof.
  intros Hi Hfk Hr Hauthor. cbv zeta.
  rewrite (ItemDetailView_delete_stored unit _ db r Hi Hr).
  cbn [user author_is_user]. rewrite Hauthor, Nat.eqb_refl. cbn [fst snd status_code].
  split; [reflexivity|]. split; [|split; [|split; [|split; [|split]]]].
  - intros [x [Hx Hpk]]. apply delete_cascade_recipes in Hx. tauto.
  - intros other. unfold ratings_of, likes_of, comments_all.
    cbn [delete_cascade ratings likes comments].
    rewrite !filter_item_after_cascade.
    now destruct (other =? recipe_pk r).
  - intros r' Hr' Hne. apply delete_cascade_recipes. split; [exact Hr'|].
    intros Hpk. apply Hne.
    exact (NoDup_map_inj recipe_pk (recipes db) r' r (recipe_pk_unique db Hi) Hr' Hr Hpk).
  - reflexivity.
  - now apply delete_cascade_integrity.
  - now apply delete_cascade_foreign_keys.
Qed.

Lemma sample_db_foreign_keys : foreign_keys sample_db.
Proof.
  constructor; simpl; intros x Hx; exists pasta; split; try (now left);
    repeat (destruct Hx as [<-|Hx]; [reflexivity|]); contradiction.
Qed.

Lemma delete_cascades_witness :
  let answer := ItemDetailView_delete (mkRequest (AuthUser alice) tt) 1 sample_db in
  status_code (fst answer) = HTTP_204_NO_CONTENT
  /\ ~ item_stored (snd answer) 1.
Proof.
  destruct (delete_cascades sample_db pasta alice sample_db_integrity
              sample_db_foreign_keys (or_introl eq_refl) eq_refl) as [H1 [H2 _]].
  split; [exact H1|exact H2].
Defined.

(** X10.  Once the author has deleted a recipe, every mutating request
    that addresses it, the deletion itself included, is answered with 404 to
    an authenticated caller and changes nothing. *)
Theorem deleted_recipe_is_not_found
    (db : DB) (r : Recipe) (u : User) (op : mutation) (caller : RequestUser) :
  integrity db -> In r (recipes db) -> recipe_author r = user_pk u ->
  is_authenticated caller = true ->
  let db' := snd (perform DestroyItem (AuthUser u) (recipe_pk r) db) in
  status_code (fst (perform op caller (recipe_pk r) db')) = HTTP_404_NOT_FOUND
  /\ snd (perform op caller (recipe_pk r) db') = db'.
Proof.
  intros Hi Hr Hauthor Hauth. cbv zeta. cbn [perform].
  rewrite (ItemDetailView_delete_stored unit _ db r Hi Hr).
  cbn [user author_is_user]. rewrite Hauthor, Nat.eqb_refl. cbn [snd].
  rewrite perform_missing.
  - rewrite Hauth. cbn [negb]. rewrite andb_false_r.
    destruct op; split; reflexivity.
  - intros x Hx. apply delete_cascade_recipes in Hx. tauto.
Qed.

Lemma deleted_recipe_is_not_found_witness :
  let db' := snd (perform DestroyItem (AuthUser alice) 1 sample_db) in
  status_code (fst (perform DestroyItem (AuthUser alice) 1 db')) = HTTP_404_NOT_FOUND
  /\ snd (perform DestroyItem (AuthUser alice) 1 db') = db'.
Proof.
  exact (deleted_recipe_is_not_found sample_db pasta alice DestroyItem (AuthUser alice)
           sample_db_integrity (or_introl eq_refl) eq_refl eq_refl).
Defined.

(** ** Updating a recipe *)

Lemma ItemDetailView_write_step (method : http_method) (request : Request ItemData)
    (pk now : nat) (db : DB) :
  as_view (check_permissions ItemDetailView_permission_classes method (user request) ;;
           ItemDetailView_update method request pk now) db =
  match get_object_or_404 (fun x => recipe_pk x =? pk) (recipes db) with
  | Raise e => (exception_handler e, db)
  | Ok instance =>
      if author_is_user instance (user request) then
        match ItemSerializer_is_valid (is_partial method) instance (data request) now with
        | Some updated =>
            let db' := set_recipes db (save recipe_pk updated (recipes db)) in
            (Response_ok (ItemSerializer_data (Some request) db' updated), db')
        | None => (mkResponse JErrors HTTP_400_BAD_REQUEST, db)
        end
      else
        (mkResponse
           (JObj [("error", JStr "You do not have permission to edit this item")])
           HTTP_403_FORBIDDEN, db)
  end.
Proof.
  unfold as_view, ItemDetailView_update, super_update, get_object.
  cbv [bind query check_permissions check_object_permissions
       ItemDetailView_permission_classes forallb has_permission
       has_object_permission andb ret].
  destruct (get_object_or_404 _ (recipes db)) as [instance|e] eqn:Hg; [|reflexivity].
  destruct (author_is_user instance (user request)); cbn [negb]; [|reflexivity].
  rewrite Hg. fold (is_partial method).
  destruct (ItemSerializer_is_valid _ instance (data request) now); reflexivity.
Qed.

Lemma ItemSerializer_is_valid_keeps (partial : bool) (instance updated : Recipe)
    (d : ItemData) (now : nat) :
  ItemSerializer_is_valid partial instance d now = Some updated ->
  recipe_pk updated = recipe_pk instance
  /\ recipe_author updated = recipe_author instance
  /\ recipe_created_at updated = recipe_created_at instance
  /\ recipe_ingredients updated = recipe_ingredients instance
  /\ recipe_updated_at updated = now.
Proof.
  unfold ItemSerializer_is_valid.
  destruct (validate_field partial (CharField_run_validation None (Some 200)) _ _);
    [|discriminate].
  destruct (validate_field partial (CharField_run_validation None None) _ _);
    [|discriminate].
  destruct (validate_field partial (ChoiceField_run_validation DIFFICULTY_CHOICES) _ _);
    [|discriminate].
  intros H. injection H as <-. repeat split; reflexivity.
Qed.

Lemma integrity_set_recipes (db : DB) (table : list Recipe) :
  integrity db -> NoDup (map recipe_pk table) -> integrity (set_recipes db table).
Proof.
  intros [] Hpk. constructor; simpl; assumption.
Qed.

Lemma save_other_rows {A : Type} (pk : A -> nat) (x y : A) (table : list A) :
  In y table -> pk y <> pk x -> In y (save pk x table).
Proof.
  intros Hy Hne. unfold save. apply in_map_iff. exists y. split; [|exact Hy].
  destruct (pk y =? pk x) eqn:He; [|reflexivity].
  apply Nat.eqb_eq in He. contradiction.
Qed.

(** X11.  An update through [ItemDetailView], [PUT] or [PATCH], by whatever
    caller and with whatever body, never adds or removes a recipe and never
    changes the primary key, the author or the creation time of one; the
    recipes it does not address keep their rows, and users, ratings, likes
    and comments are left alone. *)
Theorem update_keeps_identity
    (method : http_method) (request : Request ItemData) (pk now : nat) (db : DB) :
  integrity db ->
  let db' :=
    snd (as_view (check_permissions ItemDetailView_permission_classes method
                    (user request) ;;
                  ItemDetailView_update method request pk now) db) in
  map recipe_pk (recipes db') = map recipe_pk (recipes db)
  /\ map recipe_author (recipes db') = map recipe_author (recipes db)
  /\ map recipe_created_at (recipes db') = map recipe_created_at (recipes db)
  /\ (forall r', In r' (recipes db) -> recipe_pk r' <> pk -> In r' (recipes db'))
  /\ users db' = users db /\ ratings db' = ratings db
  /\ likes db' = likes db /\ comments db' = comments db
  /\ integrity db'.
Proof.
  intros Hi. cbv zeta. rewrite ItemDetailView_write_step.
  destruct (get_object_or_404 _ (recipes db)) as [instance|e] eqn:Hg;
    [|cbn [snd]; repeat match goal with |- _ /\ _ => split end; auto].
  apply get_object_or_404_Ok in Hg. destruct Hg as [Hin Hpk].
  destruct (author_is_user instance (user request));
    [|cbn [snd]; repeat match goal with |- _ /\ _ => split end; auto].
  destruct (ItemSerializer_is_valid _ instance (data request) now) as [updated|] eqn:Hv;
    [|cbn [snd]; repeat match goal with |- _ /\ _ => split end; auto].
  apply ItemSerializer_is_valid_keeps in Hv.
  destruct Hv as [Hpk' [Hauthor [Hcreated _]]].
  cbn [snd set_recipes recipes users ratings likes comments].
  pose proof (recipe_pk_unique db Hi) as Hnd.
  assert (Hpks : map recipe_pk (save recipe_pk updated (recipes db)) =
                 map recipe_pk (recipes db))
    by now apply (map_save_same_key recipe_pk recipe_pk (recipes db) instance updated).
  split; [exact Hpks|].
  split; [now apply (map_save_same_key recipe_pk recipe_author (recipes db)
                       instance updated)|].
  split; [now apply (map_save_same_key recipe_pk recipe_created_at (recipes db)
                       instance updated)|].
  split; [intros r' Hr' Hne; apply save_other_rows; [exact Hr'|congruence]|].
  repeat (split; [reflexivity|]).
  apply integrity_set_recipes; [exact Hi|]. cbn [set_recipes recipes] in *.
  now rewrite Hpks.
Qed.

Lemma update_keeps_identity_witness :
  let request :=
    mkRequest (AuthUser alice)
      (mkItemData (Some "Pasta al pesto") (Some "Green") (Some "Medium")) in
  map recipe_pk (recipes (snd (ItemDetailView_put request 1 200 sample_db)))
  = map recipe_pk (recipes sample_db).
Proof.
  exact (proj1 (update_keeps_identity PUT
                  (mkRequest (AuthUser alice)
                     (mkItemData (Some "Pasta al pesto") (Some "Green") (Some "Medium")))
                  1 200 sample_db sample_db_integrity)).
Defined.

Lemma In_save_row {A : Type} (pk : A -> nat) (x x' : A) (table : list A) :
  In x table -> pk x' = pk x -> In x' (save pk x' table).
Proof.
  intros Hx Hpk. unfold save. apply in_map_iff. exists x. split; [|exact Hx].
  now rewrite Hpk, Nat.eqb_refl.
Qed.

(** X12.  A body without fields is enough for [PATCH] and not for [PUT]:
    the author's empty [PATCH] is answered with 200 and leaves the title,
    description and difficulty of the recipe as they were, stamping only the
    update time; the author's empty [PUT] is answered with 400 and changes
    nothing. *)
Theorem empty_patch_and_empty_put (db : DB) (r : Recipe) (u : User) (now : nat) :
  integrity db -> In r (recipes db) -> recipe_author r = user_pk u ->
  let request := mkRequest (AuthUser u) (mkItemData None None None) in
  let patched := ItemDetailView_patch request (recipe_pk r) now db in
  let put := ItemDetailView_put request (recipe_pk r) now db in
  status_code (fst patched) = HTTP_200_OK
  /\ In (mkRecipe (recipe_pk r) (recipe_title r) (recipe_description r)
           (recipe_ingredients r) (recipe_prep_time r) (recipe_cook_time r)
           (recipe_difficulty r) (recipe_author r) (recipe_created_at r) now)
        (recipes (snd patched))
  /\ status_code (fst put) = HTTP_400_BAD_REQUEST
  /\ snd put = db.
Proof.
  intros Hi Hr Hauthor. cbv zeta.
  unfold ItemDetailView_patch, ItemDetailView_put.
  rewrite !ItemDetailView_write_step.
  rewrite (Recipe_get_object_or_404 db r Hi Hr).
  assert (Ha : author_is_user r (AuthUser u) = true)
    by (cbn [author_is_user]; rewrite Hauthor; apply Nat.eqb_refl).
  cbn [user data]. rewrite Ha.
  cbn [is_partial ItemSerializer_is_valid validate_field title description
       item_difficulty fst snd status_code Response_ok].
  split; [reflexivity|]. split; [|split; reflexivity].
  cbn [set_recipes recipes]. now apply (In_save_row recipe_pk r).
Qed.

Lemma empty_patch_and_empty_put_witness :
  let request := mkRequest (AuthUser alice) (mkItemData None None None) in
  status_code (fst (ItemDetailView_patch request 1 200 sample_db)) = HTTP_200_OK
  /\ status_code (fst (ItemDetailView_put request 1 200 sample_db))
     = HTTP_400_BAD_REQUEST
  /\ snd (ItemDetailView_put request 1 200 sample_db) = sample_db.
Proof.
  destruct (empty_patch_and_empty_put sample_db pasta alice 200 sample_db_integrity
              (or_introl eq_refl) eq_refl) as [H1 [_ [H3 H4]]].
  split; [exact H1|]. split; [exact H3|exact H4].
Defined.

(** ** Listing and creating items *)

(** X13.  The two filters of the list view are conjunctive, and an empty
    parameter is the same as an absent one: a recipe is listed exactly when
    it is stored, the search text (if any, and not empty) occurs in its title
    or description whatever the case, and the difficulty (if any, and not
    empty) is its difficulty exactly. *)
Theorem list_filters_are_conjunctive (request : Request ListParams) (db : DB)
    (r : Recipe) :
  In r (ItemListCreateView_get_queryset request db) <->
  In r (recipes db)
  /\ (forall search, q (data request) = Some search -> search <> "" ->
        matches_title_description search r)
  /\ (forall d, difficulty (data request) = Some d -> d <> "" ->
        recipe_difficulty r = d).
Proof.
  unfold ItemListCreateView_get_queryset, matches_title_description.
  set (searched :=
         match q (data request) with
         | Some search =>
             if truthy (Some search)
             then filter (fun i => icontains (recipe_title i) search
                                   || icontains (recipe_description i) search)
                         (recipes db)
             else recipes db
         | None => recipes db
         end).
  assert (Hs : In r searched <->
               In r (recipes db)
               /\ (forall search, q (data request) = Some search -> search <> "" ->
                     ci_substring search (recipe_title r)
                     \/ ci_substring search (recipe_description r))).
  { unfold searched. destruct (q (data request)) as [search|].
    - destruct (truthy (Some search)) eqn:Ht.
      + rewrite filter_In, orb_true_iff, !icontains_ci_substring.
        apply truthy_Some in Ht. split.
        * intros [Hin Hm]. split; [exact Hin|]. intros s Hs _. now injection Hs as <-.
        * intros [Hin Hm]. split; [exact Hin|]. now apply Hm.
      + assert (search = "") as ->.
        { unfold truthy in Ht. apply negb_false_iff in Ht. now apply String.eqb_eq. }
        split; [|tauto]. intros Hin. split; [exact Hin|].
        intros s Hs Hne. injection Hs as <-. contradiction.
    - split; [|tauto]. intros Hin. split; [exact Hin|]. discriminate. }
  destruct (difficulty (data request)) as [d|].
  - destruct (truthy (Some d)) eqn:Ht.
    + rewrite filter_In, String.eqb_eq, Hs. apply truthy_Some in Ht. split.
      * intros [[Hin Hm] Hd]. repeat split; auto. intros d' Hd' _.
        now injection Hd' as <-.
      * intros [Hin [Hm Hd]]. repeat split; auto.
    + assert (d = "") as ->.
      { unfold truthy in Ht. apply negb_false_iff in Ht. now apply String.eqb_eq. }
      rewrite Hs. split.
      * intros [Hin Hm]. repeat split; auto. intros d' Hd' Hne.
        injection Hd' as <-. contradiction.
      * intros [Hin [Hm _]]. now split.
  - rewrite Hs. split.
    + intros [Hin Hm]. repeat split; auto. discriminate.
    + intros [Hin [Hm _]]. now split.
Qed.

Example list_easy_pasta :
  ItemListCreateView_get_queryset
    (mkRequest AnonymousUser (mkListParams (Some "PAST") (Some "Easy"))) sample_db
  = [pasta]
  /\ ItemListCreateView_get_queryset
       (mkRequest AnonymousUser (mkListParams (Some "PAST") (Some "easy"))) sample_db
     = []
  /\ ItemListCreateView_get_queryset
       (mkRequest AnonymousUser (mkListParams (Some "") (Some ""))) sample_db
     = [pasta].
Proof. repeat split; reflexivity. Qed.

(** X14.  When at most 20 recipes match, [search_recipes] returns exactly
    the stored recipes in which the non-empty query occurs, whatever the
    case, in the title, the description or the username of the author. *)
Theorem search_recipes_complete_below_limit
    (caller : RequestUser) (search : string) (db : DB) (r : Recipe) :
  search <> "" ->
  List.length
    (filter (fun x => icontains (recipe_title x) search
                      || icontains (recipe_description x) search
                      || author_username_icontains db x search) (recipes db)) <= 20 ->
  (In r (search_recipes_queryset (list_request caller search) db) <->
   In r (recipes db) /\ matches_title_description_author db search r).
Proof.
  intros Hne Hlen. rewrite search_recipes_queryset_search.
  apply truthy_Some in Hne. rewrite Hne. cbn [negb].
  rewrite firstn_all2 by exact Hlen.
  rewrite filter_In, !orb_true_iff, !icontains_ci_substring.
  unfold matches_title_description_author, matches_title_description,
    author_username_icontains.
  rewrite existsb_exists.
  assert (Hauthor :
            (exists u, In u (users db)
                       /\ (user_pk u =? recipe_author r)
                          && icontains (user_username u) search = true)
            <-> (exists u, In u (users db) /\ user_pk u = recipe_author r
                           /\ ci_substring search (user_username u))).
  { split; intros [u [Hu H]]; exists u; split; auto.
    - apply andb_true_iff in H. destruct H as [H1 H2]. split.
      + now apply Nat.eqb_eq.
      + now apply icontains_ci_substring.
    - destruct H as [H1 H2]. apply andb_true_iff. split.
      + now apply Nat.eqb_eq.
      + now apply icontains_ci_substring. }
  rewrite Hauthor. reflexivity.
Qed.

Lemma search_recipes_complete_below_limit_witness :
  In pasta (search_recipes_queryset (list_request AnonymousUser "ALICE") sample_db) <->
  In pasta (recipes sample_db)
  /\ matches_title_description_author sample_db "ALICE" pasta.
Proof.
  apply (search_recipes_complete_below_limit AnonymousUser "ALICE" sample_db pasta).
  - discriminate.
  - vm_compute. repeat constructor.
Defined.

(** What [POST /api/items/] answers and leaves, for every request. *)
Lemma ItemListCreateView_post_step (request : Request ItemData) (now : nat) (db : DB) :
  ItemListCreateView_post request now db =
  match user request with
  | AnonymousUser => (exception_handler NotAuthenticated, db)
  | AuthUser u =>
      match ItemCreateSerializer_is_valid (data request) with
      | Some (t, de, di) =>
          let row := mkRecipe (next_pk recipe_pk (recipes db)) t de [] 0 0 di
                       (user_pk u) now now in
          (mkResponse (ItemCreateSerializer_data row) HTTP_201_CREATED,
           set_recipes db (recipes db ++ [row]))
      | None => (mkResponse JErrors HTTP_400_BAD_REQUEST, db)
      end
  end.
Proof.
  unfold ItemListCreateView_post, as_view.
  cbv [bind check_permissions ItemListCreateView_get_permissions forallb
       has_permission andb ret raise permission_denied
       ItemCreateSerializer_create request_user].
  destruct (user request) as [|u]; cbn [is_authenticated]; [reflexivity|].
  destruct (ItemCreateSerializer_is_valid (data request)) as [[[t de] di]|];
    reflexivity.
Qed.

Lemma next_pk_not_stored (db : DB) :
  ~ item_stored db (next_pk recipe_pk (recipes db)).
Proof.
  intros [x [Hx Hpk]]. apply (next_pk_fresh recipe_pk) in Hx. lia.
Qed.

(** X15.  Creating an item needs a login and never disturbs what is stored:
    an anonymous [POST] is answered with 401 and changes nothing; an accepted
    one (201) appends one recipe, owned by the caller, under a primary key no
    stored recipe has; in every case the recipes that were stored keep their
    rows, the other tables are untouched, and the constraints of the store
    and its foreign keys still hold. *)
Theorem create_item_appends_own_recipe
    (request : Request ItemData) (now : nat) (db : DB) :
  integrity db -> foreign_keys db ->
  let answer := ItemListCreateView_post request now db in
  let db' := snd answer in
  integrity db' /\ foreign_keys db'
  /\ users db' = users db /\ ratings db' = ratings db
  /\ likes db' = likes db /\ comments db' = comments db
  /\ (user request = AnonymousUser ->
      status_code (fst answer) = HTTP_401_UNAUTHORIZED /\ db' = db)
  /\ (status_code (fst answer) = HTTP_201_CREATED ->
      exists u row,
        user request = AuthUser u
        /\ recipes db' = recipes db ++ [row]
        /\ recipe_author row = user_pk u
        /\ ~ item_stored db (recipe_pk row))
  /\ (status_code (fst answer) <> HTTP_201_CREATED -> db' = db).
Proof.
  intros Hi Hfk. cbv zeta. rewrite ItemListCreateView_post_step.
  destruct (user request) as [|u].
  - cbn [fst snd]. repeat match goal with |- _ /\ _ => split end; auto.
    simpl. discriminate.
  - destruct (ItemCreateSerializer_is_valid (data request)) as [[[t de] di]|].
    + cbn [fst snd status_code set_recipes users recipes ratings likes comments].
      repeat match goal with |- _ /\ _ => split end; try reflexivity.
      * apply integrity_set_recipes; [exact Hi|].
        apply NoDup_map_app_fresh; [apply (recipe_pk_unique db Hi)|].
        intros y Hy. apply (next_pk_fresh recipe_pk) in Hy. simpl. lia.
      * destruct Hfk as [Hr Hl Hc].
        assert (Hkeep : forall i, item_stored db i ->
                  item_stored
                    (set_recipes db
                       (recipes db ++
                        [mkRecipe (next_pk recipe_pk (recipes db)) t de [] 0 0 di
                           (user_pk u) now now])) i).
        { intros i [x [Hx Hpk]]. exists x. split; [|exact Hpk].
          cbn [set_recipes recipes]. apply in_or_app. now left. }
        constructor; cbn [set_recipes ratings likes comments]; intros y Hy;
          apply Hkeep; auto.
      * discriminate.
      * intros _. eexists u, _. repeat split. apply next_pk_not_stored.
      * intros H. contradiction.
    + cbn [fst snd]. repeat match goal with |- _ /\ _ => split end; auto.
      * discriminate.
      * simpl. discriminate.
Qed.

Lemma create_item_appends_own_recipe_witness :
  let request :=
    mkRequest (AuthUser bob) (mkItemData (Some "Soup") (Some "Warm") (Some "Easy")) in
  integrity (snd (ItemListCreateView_post request 300 sample_db))
  /\ foreign_keys (snd (ItemListCreateView_post request 300 sample_db)).
Proof.
  destruct (create_item_appends_own_recipe
              (mkRequest (AuthUser bob)
                 (mkItemData (Some "Soup") (Some "Warm") (Some "Easy")))
              300 sample_db sample_db_integrity sample_db_foreign_keys)
    as [H1 [H2 _]].
  split; [exact H1|exact H2].
Defined.

Example bob_creates_soup :
  let request :=
    mkRequest (AuthUser bob) (mkItemData (Some "Soup") (Some "Warm") (Some "Easy")) in
  status_code (fst (ItemListCreateView_post request 300 sample_db)) = HTTP_201_CREATED
  /\ map recipe_title (recipes (snd (ItemListCreateView_post request 300 sample_db)))
     = ["Pasta"; "Soup"]
  /\ map recipe_author (recipes (snd (ItemListCreateView_post request 300 sample_db)))
     = [1; 2].
Proof. repeat split; reflexivity. Qed.

Lemma filter_all_true {A : Type} (p : A -> bool) (l : list A) :
  (forall y, In y l -> p y = true) -> filter p l = l.
Proof.
  induction l as [|a t IH]; simpl; intros H; [reflexivity|].
  rewrite (H a (or_introl eq_refl)). f_equal. apply IH. intros y Hy. apply H.
  now right.
Qed.

Lemma delete_appended_row {A : Type} (pk : A -> nat) (x : A) (table : list A) :
  (forall y, In y table -> pk y <> pk x) ->
  delete pk x (table ++ [x]) = table.
Proof.
  intros Hfresh. unfold delete. rewrite filter_app. simpl.
  rewrite Nat.eqb_refl. simpl. rewrite app_nil_r. apply filter_all_true.
  intros y Hy. apply negb_true_iff, Nat.eqb_neq. now apply Hfresh.
Qed.

(** X16.  Creating an item and then deleting it, both by the same account,
    leaves every table with the rows it had: when the creation is answered
    with 201, the deletion of the recipe it has added is answered with 204,
    and nothing else has moved. *)
Theorem create_then_delete_restores_the_store
    (db : DB) (u : User) (d : ItemData) (now : nat) (row : Recipe) :
  integrity db -> foreign_keys db ->
  let created := ItemListCreateView_post (mkRequest (AuthUser u) d) now db in
  status_code (fst created) = HTTP_201_CREATED ->
  In row (recipes (snd created)) -> ~ In row (recipes db) ->
  let deleted :=
    ItemDetailView_delete (mkRequest (AuthUser u) tt) (recipe_pk row) (snd created) in
  status_code (fst deleted) = HTTP_204_NO_CONTENT
  /\ users (snd deleted) = users db
  /\ recipes (snd deleted) = recipes db
  /\ ratings (snd deleted) = ratings db
  /\ likes (snd deleted) = likes db
  /\ comments (snd deleted) = comments db.
Proof.
  intros Hi Hfk. cbv zeta. rewrite ItemListCreateView_post_step.
  cbn [user data].
  destruct (ItemCreateSerializer_is_valid d) as [[[t de] di]|];
    [|cbn [fst status_code]; discriminate].
  cbn [fst snd status_code]. intros _.
  set (new := mkRecipe (next_pk recipe_pk (recipes db)) t de [] 0 0 di
                (user_pk u) now now).
  cbn [set_recipes recipes]. intros Hin Hold.
  assert (row = new) as ->.
  { apply in_app_or in Hin. destruct Hin as [Hin|[Hin|[]]]; [contradiction|].
    now symmetry. }
  assert (Hi' : integrity (set_recipes db (recipes db ++ [new]))).
  { apply integrity_set_recipes; [exact Hi|].
    apply NoDup_map_app_fresh; [apply (recipe_pk_unique db Hi)|].
    intros y Hy. apply (next_pk_fresh recipe_pk) in Hy. simpl. lia. }
  assert (Hin' : In new (recipes (set_recipes db (recipes db ++ [new]))))
    by (cbn [set_recipes recipes]; apply in_or_app; right; now left).
  rewrite (ItemDetailView_delete_stored unit _ _ new Hi' Hin').
  cbn [user author_is_user]. change (recipe_author new) with (user_pk u).
  rewrite Nat.eqb_refl. cbn [fst snd status_code]. split; [reflexivity|].
  unfold delete_cascade. cbn [set_recipes users recipes ratings likes comments].
  rewrite delete_appended_row
    by (intros y Hy; apply (next_pk_fresh recipe_pk) in Hy; simpl; lia).
  destruct Hfk as [Hr Hl Hc].
  assert (Hfresh : forall i, item_stored db i -> negb (i =? recipe_pk new) = true).
  { intros i Hs. apply negb_true_iff, Nat.eqb_neq. intros ->.
    now apply (next_pk_not_stored db). }
  rewrite !filter_all_true; [repeat split| | |]; intros y Hy; apply Hfresh; auto.
Qed.

Lemma create_then_delete_restores_the_store_witness :
  let d := mkItemData (Some "Soup") (Some "Warm") (Some "Easy") in
  let created := ItemListCreateView_post (mkRequest (AuthUser bob) d) 300 sample_db in
  let deleted := ItemDetailView_delete (mkRequest (AuthUser bob) tt) 2 (snd created) in
  status_code (fst deleted) = HTTP_204_NO_CONTENT
  /\ users (snd deleted) = users sample_db
  /\ recipes (snd deleted) = recipes sample_db
  /\ ratings (snd deleted) = ratings sample_db
  /\ likes (snd deleted) = likes sample_db
  /\ comments (snd deleted) = comments sample_db.
Proof.
  apply (create_then_delete_restores_the_store sample_db bob
           (mkItemData (Some "Soup") (Some "Warm") (Some "Easy")) 300
           (mkRecipe 2 "Soup" "Warm" [] 0 0 "Easy" 2 300 300)
           sample_db_integrity sample_db_foreign_keys).
  - reflexivity.
  - simpl. right. left. reflexivity.
  - simpl. intros [H|[]]. discriminate.
Defined.

(** ** The caller's own items *)

Lemma insert_recipe_newest_first_perm (r : Recipe) (l : list Recipe) :
  Permutation (r :: l) (insert_recipe_newest_first r l).
Proof.
  induction l as [|x l IH]; simpl; [apply Permutation_refl|].
  destruct (recipe_created_at x <=? recipe_created_at r); [apply Permutation_refl|].
  eapply perm_trans; [apply perm_swap|]. now apply perm_skip.
Qed.

Lemma recipes_order_by_perm (l : list Recipe) :
  Permutation l (recipes_order_by_created_at_desc l).
Proof.
  induction l as [|r l IH]; simpl; [constructor|].
  eapply perm_trans; [apply perm_skip, IH|]. apply insert_recipe_newest_first_perm.
Qed.

Lemma recipes_order_by_sorted (l : list Recipe) :
  recipes_newest_first (recipes_order_by_created_at_desc l).
Proof.
  unfold recipes_newest_first.
  induction l as [|r l IH]; simpl; [constructor|].
  induction IH as [|x t Hs IHs Hall]; simpl.
  - constructor; constructor.
  - destruct (recipe_created_at x <=? recipe_created_at r) eqn:Hle.
    + apply Nat.leb_le in Hle. constructor; [now constructor|].
      constructor; [exact Hle|].
      eapply Forall_impl; [|exact Hall]. simpl. intros b Hb. lia.
    + apply Nat.leb_gt in Hle. constructor; [exact IHs|].
      apply (Permutation_Forall (insert_recipe_newest_first_perm r t)).
      constructor; [lia|exact Hall].
Qed.

(** X17.  [my_items] needs a login (401 otherwise, like every view behind
    [IsAuthenticated]).  For an account, it lists exactly the stored recipes
    whose author is that account, never one of somebody else, newest first,
    and the count it reports is the number of recipes it lists; the store is
    not changed. *)
Theorem my_items_lists_own_recipes (request : Request unit) (db : DB) :
  let answer := my_items request db in
  snd answer = db
  /\ (user request = AnonymousUser ->
      status_code (fst answer) = HTTP_401_UNAUTHORIZED)
  /\ (forall u, user request = AuthUser u ->
      let items := my_items_queryset request db in
      status_code (fst answer) = HTTP_200_OK
      /\ json_get "count" (response_data (fst answer))
         = Some (JInt (Z.of_nat (List.length items)))
      /\ json_get "results" (response_data (fst answer))
         = Some (JArr (map (ItemSerializer_data (Some request) db) items))
      /\ recipes_newest_first items
      /\ Permutation (filter (fun i => recipe_author i =? user_pk u) (recipes db)) items
      /\ (forall r, In r items <-> In r (recipes db) /\ recipe_author r = user_pk u)).
Proof.
  cbv zeta. unfold my_items, as_view, api_view, my_items_body.
  cbv [bind check_permissions forallb has_permission andb ret raise permission_denied].
  destruct (user request) as [|u] eqn:Hu; cbn [is_authenticated fst snd].
  - split; [reflexivity|]. split; [reflexivity|]. discriminate.
  - split; [reflexivity|]. split; [discriminate|].
    intros u' Hu'. injection Hu' as <-.
    assert (Hperm : Permutation
                      (filter (fun i => recipe_author i =? user_pk u) (recipes db))
                      (my_items_queryset request db)).
    { unfold my_items_queryset. rewrite Hu. apply recipes_order_by_perm. }
    split; [reflexivity|]. split; [reflexivity|]. split; [reflexivity|].
    split; [apply recipes_order_by_sorted|]. split; [exact Hperm|].
    intros r. split.
    + intros Hin. apply (Permutation_in _ (Permutation_sym Hperm)) in Hin.
      apply filter_In in Hin. now rewrite Nat.eqb_eq in Hin.
    + intros [Hin Ha]. apply (Permutation_in _ Hperm). apply filter_In.
      now rewrite Nat.eqb_eq.
Qed.

Example my_items_of_alice_after_create :
  let db' :=
    snd (ItemListCreateView_post
           (mkRequest (AuthUser alice)
              (mkItemData (Some "Soup") (Some "Warm") (Some "Easy"))) 300 sample_db) in
  map recipe_title (my_items_queryset (mkRequest (AuthUser alice) tt) db')
  = ["Soup"; "Pasta"]
  /\ my_items_queryset (mkRequest (AuthUser bob) tt) db' = [].
Proof. split; reflexivity. Qed.

(** ** Registration *)

Lemma CharField_run_validation_Some (min_length max_length : option nat)
    (data value : string) :
  CharField_run_validation min_length max_length data = Some value ->
  value = py_strip data /\ value <> ""
  /\ (forall n, min_length = Some n -> n <= py_len value)
  /\ (forall n, max_length = Some n -> py_len value <= n)
  /\ has_null value = false.
Proof.
  unfold CharField_run_validation.
  destruct (String.eqb (py_strip data) "") eqn:He; [discriminate|].
  apply String.eqb_neq in He.
  destruct max_length as [m|], min_length as [n|].
  - destruct (m <? py_len (py_strip data)) eqn:Hm; [discriminate|].
    destruct (py_len (py_strip data) <? n) eqn:Hn; [discriminate|].
    destruct (has_null (py_strip data)) eqn:Hz; [discriminate|].
    intros H. injection H as <-. apply Nat.ltb_ge in Hm, Hn.
    repeat split; auto; intros k Hk; injection Hk as <-; assumption.
  - destruct (m <? py_len (py_strip data)) eqn:Hm; [discriminate|].
    destruct (has_null (py_strip data)) eqn:Hz; [discriminate|].
    intros H. injection H as <-. apply Nat.ltb_ge in Hm.
    repeat split; auto; intros k Hk; try discriminate; injection Hk as <-; assumption.
  - destruct (py_len (py_strip data) <? n) eqn:Hn; [discriminate|].
    destruct (has_null (py_strip data)) eqn:Hz; [discriminate|].
    intros H. injection H as <-. apply Nat.ltb_ge in Hn.
    repeat split; auto; intros k Hk; try discriminate; injection Hk as <-; assumption.
  - destruct (has_null (py_strip data)) eqn:Hz; [discriminate|].
    intros H. injection H as <-.
    repeat split; auto; intros k Hk; discriminate.
Qed.

Lemma save_appended_row {A : Type} (pk : A -> nat) (x x' : A) (table : list A) :
  (forall y, In y table -> pk y <> pk x) -> pk x' = pk x ->
  save pk x' (table ++ [x]) = table ++ [x'].
Proof.
  intros Hfresh Hpk. unfold save. rewrite map_app. simpl.
  rewrite Hpk, Nat.eqb_refl. f_equal.
  rewrite <- (map_id table) at 2. apply map_ext_in. intros y Hy.
  destruct (pk y =? pk x) eqn:He; [|reflexivity].
  apply Nat.eqb_eq in He. now apply Hfresh in Hy.
Qed.

Section RegistrationFacts.

Variable valid_username : list User -> string -> bool.
Variable valid_email : string -> bool.
Variable make_password : string -> string.
Variable access_token : User -> string.

Lemma UserRegistrationSerializer_is_valid_Some (db : DB) (d : RegisterData)
    (un em pw : string) :
  UserRegistrationSerializer_is_valid valid_username valid_email db d
  = Some (un, em, pw) ->
  exists raw_em raw_pw raw_pc,
    register_email d = Some raw_em /\ em = py_strip raw_em /\ em <> ""
    /\ register_password d = Some raw_pw /\ pw = py_strip raw_pw /\ pw <> ""
    /\ register_password_confirm d = Some raw_pc /\ py_strip raw_pc = pw
    /\ 8 <= py_len pw
    /\ existsb (fun u => String.eqb (user_email u) em) (users db) = false.
Proof using.
  unfold UserRegistrationSerializer_is_valid, validate_field.
  destruct (register_username d) as [raw_un|]; [|discriminate].
  destruct (CharField_run_validation None None raw_un) as [un'|]; [|discriminate].
  destruct (register_email d) as [raw_em|]; [|discriminate].
  destruct (CharField_run_validation None None raw_em) as [em'|] eqn:Hem;
    [|discriminate].
  destruct (register_password d) as [raw_pw|]; [|discriminate].
  destruct (CharField_run_validation (Some 8) None raw_pw) as [pw'|] eqn:Hpw;
    [|discriminate].
  destruct (register_password_confirm d) as [raw_pc|]; [|discriminate].
  destruct (CharField_run_validation None None raw_pc) as [pc|] eqn:Hpc;
    [|discriminate].
  destruct (valid_username (users db) un' && valid_email em'
            && negb (existsb (fun u => String.eqb (user_email u) em') (users db)))
    eqn:Hok; [|discriminate].
  destruct (String.eqb pw' pc) eqn:Heq; [|discriminate].
  cbn [negb]. intros H. injection H as <- <- <-.
  apply String.eqb_eq in Heq. subst pc.
  apply CharField_run_validation_Some in Hem, Hpw, Hpc.
  rewrite !andb_true_iff in Hok. destruct Hok as [[_ _] Hfree].
  apply negb_true_iff in Hfree.
  destruct Hem as [Hem1 [Hem2 _]], Hpw as [Hpw1 [Hpw2 [Hlen _]]], Hpc as [Hpc1 _].
  exists raw_em, raw_pw, raw_pc.
  exact (conj eq_refl (conj Hem1 (conj Hem2 (conj eq_refl (conj Hpw1 (conj Hpw2
          (conj eq_refl (conj (eq_sym Hpc1) (conj (Hlen 8 eq_refl) Hfree))))))))).
Qed.

(** What [register] answers and leaves, for every request. *)
Lemma register_step (request : Request RegisterData) (db : DB) :
  register valid_username valid_email make_password access_token request db =
  match UserRegistrationSerializer_is_valid valid_username valid_email db
          (data request) with
  | Some (un, em, pw) =>
      let row := mkUser (next_pk user_pk (users db)) em un (make_password pw) "" in
      (mkResponse (JObj [("user", UserSerializer_data row);
                         ("token", JStr (access_token row))]) HTTP_201_CREATED,
       set_users db (users db ++ [row]))
  | None => (mkResponse JErrors HTTP_400_BAD_REQUEST, db)
  end.
Proof.
  unfold register, as_view, api_view, register_body.
  cbv [bind check_permissions forallb has_permission andb ret].
  destruct (UserRegistrationSerializer_is_valid _ _ db (data request))
    as [[[un em] pw]|] eqn:Hv; [|reflexivity].
  apply UserRegistrationSerializer_is_valid_Some in Hv.
  destruct Hv as [raw_em [raw_pw [raw_pc [_ [_ [_ [_ [_ [_ [_ [_ [_ Hfree]]]]]]]]]]]].
  cbv [UserRegistrationSerializer_create User_objects_create bind ret User_save write].
  rewrite Hfree. cbn [set_users users recipes ratings likes comments].
  rewrite (save_appended_row user_pk
             (mkUser (next_pk user_pk (users db)) em un "" ""));
    [reflexivity| |reflexivity].
  intros y Hy. apply (next_pk_fresh user_pk) in Hy. simpl. lia.
Qed.

Lemma integrity_set_users (db : DB) (table : list User) :
  integrity db -> NoDup (map user_email table) -> integrity (set_users db table).
Proof.
  intros [] He. constructor; simpl; assumption.
Qed.

Lemma register_integrity (request : Request RegisterData) (db : DB) :
  integrity db ->
  integrity (snd (register valid_username valid_email make_password access_token
                    request db)).
Proof.
  intros Hi. rewrite register_step.
  destruct (UserRegistrationSerializer_is_valid _ _ db (data request))
    as [[[un em] pw]|] eqn:Hv; [|exact Hi].
  apply UserRegistrationSerializer_is_valid_Some in Hv.
  destruct Hv as [raw_em [raw_pw [raw_pc [_ [_ [_ [_ [_ [_ [_ [_ [_ Hfree]]]]]]]]]]]].
  cbn [snd]. apply integrity_set_users; [exact Hi|].
  apply NoDup_map_app_fresh; [apply (email_unique db Hi)|].
  intros y Hy Heq. simpl in Heq.
  assert (Ht : existsb (fun u => String.eqb (user_email u) em) (users db) = true).
  { apply existsb_exists. exists y. split; [exact Hy|]. now apply String.eqb_eq. }
  congruence.
Qed.

(** X18.  Registration and login fit together: with a hasher that verifies
    what it hashed, an accepted registration (201) is followed by a
    successful login with the email and the password as the serializer has
    taken them, that is trimmed, which answers 200 with the account just
    created and a token. *)
Theorem register_then_login
    (check_password_hash : string -> string -> bool)
    (request : Request RegisterData) (db : DB) (em pw : string) :
  (forall raw, check_password_hash raw (make_password raw) = true) ->
  integrity db ->
  register_email (data request) = Some em ->
  register_password (data request) = Some pw ->
  let registered :=
    register valid_username valid_email make_password access_token request db in
  status_code (fst registered) = HTTP_201_CREATED ->
  exists u,
    In u (users (snd registered)) /\ user_email u = py_strip em
    /\ ~ In u (users db)
    /\ login check_password_hash access_token
         (login_request (py_strip em) (py_strip pw)) (snd registered)
       = (login_success access_token u, snd registered).
Proof.
  intros Hhash Hi Hem Hpw. cbv zeta.
  pose proof (register_integrity request db Hi) as Hi'.
  rewrite register_step in *.
  destruct (UserRegistrationSerializer_is_valid _ _ db (data request))
    as [[[un em'] pw']|] eqn:Hv; [|discriminate].
  apply UserRegistrationSerializer_is_valid_Some in Hv.
  destruct Hv as [raw_em [raw_pw [raw_pc [Hem' [Hse [Hne [Hpw' [Hsp [Hpne _]]]]]]]]].
  assert (raw_em = em) by congruence. assert (raw_pw = pw) by congruence.
  subst raw_em raw_pw em' pw'.
  cbn [fst snd] in *. intros _.
  set (row := mkUser (next_pk user_pk (users db)) (py_strip em) un
                (make_password (py_strip pw)) "") in *.
  exists row.
  assert (Hin : In row (users (set_users db (users db ++ [row]))))
    by (cbn [set_users users]; apply in_or_app; right; now left).
  split; [exact Hin|]. split; [reflexivity|]. split.
  - intros Hold. apply (next_pk_fresh user_pk) in Hold. simpl in Hold. lia.
  - rewrite (login_present check_password_hash access_token _ _ _ Hne Hpne).
    change (py_strip em) with (user_email row) at 1.
    rewrite (User_objects_get_email _ row Hi' Hin).
    unfold check_password. cbn [row user_password]. now rewrite Hhash.
Qed.

End RegistrationFacts.

Lemma register_then_login_witness :
  let request :=
    register_request "carol" " carol@example.com" "  pw-carol-1 " "pw-carol-1" in
  let registered :=
    register sample_valid_username sample_valid_email sample_make_password
      sample_access_token request sample_db in
  exists u,
    In u (users (snd registered)) /\ user_email u = "carol@example.com"
    /\ ~ In u (users sample_db)
    /\ login sample_check_password_hash sample_access_token
         (login_request "carol@example.com" "pw-carol-1") (snd registered)
       = (login_success sample_access_token u, snd registered).
Proof.
  apply (register_then_login sample_valid_username sample_valid_email
           sample_make_password sample_access_token sample_check_password_hash
           (register_request "carol" " carol@example.com" "  pw-carol-1 " "pw-carol-1")
           sample_db " carol@example.com" "  pw-carol-1 ").
  - intros raw. unfold sample_check_password_hash, sample_make_password.
    apply String.eqb_refl.
  - exact sample_db_integrity.
  - reflexivity.
  - reflexivity.
  - reflexivity.
Defined.

(** X19.  [register] keeps the emails of the stored accounts unique and
    never touches recipes, ratings, likes or comments.  A registration whose
    email is already taken, whose password has fewer than 8 characters or
    whose confirmation differs from the password, all three as the
    serializer takes them, that is trimmed, is answered with 400; every
    refused registration leaves the store as it was. *)
Theorem register_refuses_and_keeps_emails_unique
    (valid_username : list User -> string -> bool) (valid_email : string -> bool)
    (make_password : string -> string) (access_token : User -> string)
    (un em pw pc : string) (db : DB) :
  integrity db ->
  let answer :=
    register valid_username valid_email make_password access_token
      (register_request un em pw pc) db in
  integrity (snd answer)
  /\ recipes (snd answer) = recipes db /\ ratings (snd answer) = ratings db
  /\ likes (snd answer) = likes db /\ comments (snd answer) = comments db
  /\ (status_code (fst answer) <> HTTP_201_CREATED -> snd answer = db)
  /\ ((exists u, In u (users db) /\ user_email u = py_strip em)
      \/ py_len (py_strip pw) < 8 \/ py_strip pw <> py_strip pc ->
      status_code (fst answer) = HTTP_400_BAD_REQUEST /\ snd answer = db).
Proof.
  intros Hi. cbv zeta.
  split; [now apply register_integrity|].
  rewrite register_step.
  destruct (UserRegistrationSerializer_is_valid _ _ db _) as [[[un' em'] pw']|] eqn:Hv.
  - apply UserRegistrationSerializer_is_valid_Some in Hv.
    cbn [register_request data register_email register_password
         register_password_confirm] in Hv.
    destruct Hv as [raw_em [raw_pw [raw_pc
                      [Hem [Hse [_ [Hpw [Hsp [_ [Hpc [Hspc [Hlen Hfree]]]]]]]]]]]].
    injection Hem as <-. injection Hpw as <-. injection Hpc as <-.
    subst em' pw'.
    cbn [fst snd status_code set_users recipes ratings likes comments].
    repeat match goal with |- _ /\ _ => split end; try reflexivity.
    + intros H. contradiction.
    + intros H. exfalso. destruct H as [[u [Hu Hmail]]|[Hshort|Hdiff]].
      * assert (Ht : existsb (fun x => String.eqb (user_email x) (py_strip em))
                       (users db) = true).
        { apply existsb_exists. exists u. split; [exact Hu|].
          now apply String.eqb_eq. }
        congruence.
      * lia.
      * now apply Hdiff.
  - cbn [fst snd status_code].
    repeat match goal with |- _ /\ _ => split end; try reflexivity.
    intros _. split; reflexivity.
Qed.

Lemma register_refuses_and_keeps_emails_unique_witness :
  let answer :=
    register sample_valid_username sample_valid_email sample_make_password
      sample_access_token
      (register_request "alice2" "alice@example.com " "pw-alice-2" "pw-alice-2")
      sample_db in
  status_code (fst answer) = HTTP_400_BAD_REQUEST /\ snd answer = sample_db.
Proof.
  destruct (register_refuses_and_keeps_emails_unique sample_valid_username
              sample_valid_email sample_make_password sample_access_token
              "alice2" "alice@example.com " "pw-alice-2" "pw-alice-2" sample_db
              sample_db_integrity) as [_ [_ [_ [_ [_ [_ H]]]]]].
  apply H. left. exists alice. split; [now left|reflexivity].
Defined.

Example register_trims_the_password :
  let register_as pw pc :=
    register sample_valid_username sample_valid_email sample_make_password
      sample_access_token (register_request "carol" "carol@example.com" pw pc)
      sample_db in
  map (fun a => status_code (fst a))
    [register_as "short" "short";
     register_as " 7 chars " " 7 chars ";
     register_as "pw-carol-1" "pw-carol-2";
     register_as "pw-carol-1 " " pw-carol-1"]
  = [400; 400; 400; 201]
  /\ map user_password (users (snd (register_as "pw-carol-1 " " pw-carol-1")))
     = ["hash:pw-alice"; "hash:pw-bob"; "hash:pw-carol-1"]
  /\ status_code
       (fst (login sample_check_password_hash sample_access_token
               (login_request "carol@example.com" "pw-carol-1 ")
               (snd (register_as "pw-carol-1 " " pw-carol-1"))))
     = HTTP_400_BAD_REQUEST.
Proof. repeat split; reflexivity. Qed.

(** ** Cookbooks *)

Section OrderByFacts.

Context {A : Type}.
Variable created_at : A -> nat.

Lemma insert_newest_perm (x : A) (l : list A) :
  Permutation (x :: l) (insert_newest created_at x l).
Proof using.
  induction l as [|y l IH]; simpl; [apply Permutation_refl|].
  destruct (created_at y <=? created_at x); [apply Permutation_refl|].
  eapply perm_trans; [apply perm_swap|]. apply perm_skip. exact IH.
Qed.

Lemma order_by_newest_perm (l : list A) :
  Permutation l (order_by_newest created_at l).
Proof using.
  induction l as [|x l IH]; simpl; [constructor|].
  eapply perm_trans; [apply perm_skip, IH|]. apply insert_newest_perm.
Qed.

Lemma order_by_newest_In (l : list A) (x : A) :
  In x (order_by_newest created_at l) <-> In x l.
Proof using.
  split; intros H.
  - exact (Permutation_in _ (Permutation_sym (order_by_newest_perm l)) H).
  - exact (Permutation_in _ (order_by_newest_perm l) H).
Qed.

Lemma order_by_newest_NoDup {K : Type} (key : A -> K) (l : list A) :
  NoDup (map key l) -> NoDup (map key (order_by_newest created_at l)).
Proof using.
  intros H. eapply Permutation_NoDup; [|exact H].
  apply Permutation_map. apply order_by_newest_perm.
Qed.

End OrderByFacts.

Lemma get_queryset_visible {D : Type} (request : Request D) (cdb : CookbookDB)
    (c : Cookbook) :
  In c (CookbookViewSet_get_queryset request cdb) <->
  In c (cookbooks cdb) /\ visible_to c (user request) = true.
Proof.
  unfold CookbookViewSet_get_queryset, visible_to. rewrite order_by_newest_In.
  destruct (user request) as [|u]; cbn [is_authenticated owner_is_user orb];
    now rewrite filter_In.
Qed.

Lemma get_queryset_NoDup {D : Type} (request : Request D) (cdb : CookbookDB) :
  NoDup (map cookbook_pk (cookbooks cdb)) ->
  NoDup (map cookbook_pk (CookbookViewSet_get_queryset request cdb)).
Proof.
  intros H. unfold CookbookViewSet_get_queryset. apply order_by_newest_NoDup.
  destruct (is_authenticated (user request)); now apply NoDup_map_filter.
Qed.

Lemma Cookbook_get_object {D : Type} (request : Request D) (cdb : CookbookDB)
    (c : Cookbook) :
  NoDup (map cookbook_pk (cookbooks cdb)) -> In c (cookbooks cdb) ->
  get_object_or_404 (fun x => cookbook_pk x =? cookbook_pk c)
    (CookbookViewSet_get_queryset request cdb)
  = if visible_to c (user request) then Ok c else Raise Http404.
Proof.
  intros Hnd Hc. unfold get_object_or_404.
  destruct (visible_to c (user request)) eqn:Hv.
  - rewrite (objects_get_unique cookbook_pk _ _ c); [reflexivity| | | |].
    + now apply get_queryset_NoDup.
    + apply get_queryset_visible. now split.
    + apply Nat.eqb_refl.
    + intros y _ Hy. now apply Nat.eqb_eq.
  - rewrite objects_get_missing; [reflexivity|].
    intros y Hy. apply get_queryset_visible in Hy. destruct Hy as [Hy Hvy].
    apply Nat.eqb_neq. intros Hpk.
    rewrite (NoDup_map_inj cookbook_pk (cookbooks cdb) y c Hnd Hy Hc Hpk) in Hvy.
    congruence.
Qed.

(** What the two actions answer and leave on a stored cookbook. *)
Lemma cookbook_action_step {D : Type} (request : Request D) (c : Cookbook)
    (id : option nat) (change : nat -> nat -> list (nat * nat) -> list (nat * nat))
    (message : string) (cdb : CookbookDB) :
  NoDup (map cookbook_pk (cookbooks cdb)) -> In c (cookbooks cdb) ->
  cookbook_action request (cookbook_pk c) id change message cdb =
  match user request with
  | AnonymousUser => (exception_handler NotAuthenticated, cdb)
  | AuthUser _ =>
      if owner_is_user c (user request) then
        match Recipe_objects_get_id id (base cdb) with
        | Raise DoesNotExist =>
            (mkResponse (JObj [("error", JStr "Recipe not found")])
               HTTP_404_NOT_FOUND, cdb)
        | Raise e => (exception_handler e, cdb)
        | Ok recipe =>
            (Response_ok (JObj [("success", JBool true); ("message", JStr message)]),
             set_cookbook_recipes cdb
               (change (cookbook_pk c) (recipe_pk recipe) (cookbook_recipes cdb)))
        end
      else if cookbook_is_public c then
        (mkResponse (JObj [("error", JStr "Permission denied")]) HTTP_403_FORBIDDEN,
         cdb)
      else (exception_handler Http404, cdb)
  end.
Proof.
  intros Hnd Hc. unfold cookbook_action.
  rewrite (Cookbook_get_object request cdb c Hnd Hc). unfold visible_to.
  cbv [forallb has_permission andb permission_denied].
  destruct (user request) as [|u] eqn:Hu; cbn [is_authenticated negb]; [reflexivity|].
  destruct (owner_is_user c (AuthUser u)) eqn:Ha; cbn [orb].
  - rewrite Ha. reflexivity.
  - destruct (cookbook_is_public c); [rewrite Ha|]; reflexivity.
Qed.

(** X20.  The cookbook of another account cannot be changed, and a private
    one is not even disclosed: whatever the body, [add_recipe] and
    [remove_recipe] answer 403 on a public cookbook of somebody else and 404
    on a private one, 401 to an anonymous caller, and leave the store as it
    was. *)
Theorem cookbook_of_another_account
    (request : Request CookbookRecipeData) (c : Cookbook) (cdb : CookbookDB) :
  cookbook_integrity cdb -> In c (cookbooks cdb) ->
  owner_is_user c (user request) = false ->
  let expected :=
    match user request with
    | AnonymousUser => HTTP_401_UNAUTHORIZED
    | AuthUser _ =>
        if cookbook_is_public c then HTTP_403_FORBIDDEN else HTTP_404_NOT_FOUND
    end in
  status_code (fst (CookbookViewSet_add_recipe request (cookbook_pk c) cdb)) = expected
  /\ snd (CookbookViewSet_add_recipe request (cookbook_pk c) cdb) = cdb
  /\ status_code (fst (CookbookViewSet_remove_recipe request (cookbook_pk c) cdb))
     = expected
  /\ snd (CookbookViewSet_remove_recipe request (cookbook_pk c) cdb) = cdb.
Proof.
  intros [_ Hnd] Hc Hother. cbv zeta.
  unfold CookbookViewSet_add_recipe, CookbookViewSet_remove_recipe.
  rewrite !(cookbook_action_step request c _ _ _ cdb Hnd Hc), Hother.
  destruct (user request); [now repeat split|].
  destruct (cookbook_is_public c); now repeat split.
Qed.

Lemma sample_cookbooks_integrity : cookbook_integrity sample_cookbooks.
Proof.
  split; [exact sample_db_integrity|].
  simpl. repeat constructor; simpl; intuition discriminate.
Qed.

Lemma cookbook_of_another_account_witness :
  status_code (fst (CookbookViewSet_add_recipe (cookbook_request (AuthUser bob) 1) 1
                      sample_cookbooks)) = HTTP_404_NOT_FOUND
  /\ snd (CookbookViewSet_add_recipe (cookbook_request (AuthUser bob) 1) 1
            sample_cookbooks) = sample_cookbooks.
Proof.
  destruct (cookbook_of_another_account (cookbook_request (AuthUser bob) 1)
              (mkCookbook 1 "Secret" "" 1 false 500) sample_cookbooks
              sample_cookbooks_integrity (or_introl eq_refl) eq_refl)
    as [H1 [H2 _]].
  split; [exact H1|exact H2].
Defined.

Lemma pair_eqb_eq (a b : nat * nat) : pair_eqb a b = true <-> a = b.
Proof.
  unfold pair_eqb. destruct a as [a1 a2], b as [b1 b2]. simpl.
  rewrite andb_true_iff, !Nat.eqb_eq. split; [intros [-> ->]; reflexivity|].
  intros H. injection H; auto.
Qed.

Lemma existsb_pair_In (p : nat * nat) (t : list (nat * nat)) :
  existsb (pair_eqb p) t = true <-> In p t.
Proof.
  rewrite existsb_exists. split.
  - intros [x [Hx He]]. apply pair_eqb_eq in He. now subst.
  - intros H. exists p. split; [exact H|]. now apply pair_eqb_eq.
Qed.

Lemma m2m_add_In (a b : nat) (t : list (nat * nat)) : In (a, b) (m2m_add a b t).
Proof.
  unfold m2m_add. destruct (existsb (pair_eqb (a, b)) t) eqn:He.
  - now apply existsb_pair_In.
  - apply in_or_app. right. now left.
Qed.

Lemma m2m_add_idempotent (a b : nat) (t : list (nat * nat)) :
  m2m_add a b (m2m_add a b t) = m2m_add a b t.
Proof.
  unfold m2m_add at 1.
  now rewrite (proj2 (existsb_pair_In (a, b) (m2m_add a b t)) (m2m_add_In a b t)).
Qed.

Lemma m2m_remove_absent (a b : nat) (t : list (nat * nat)) :
  ~ In (a, b) t -> m2m_remove a b t = t.
Proof.
  intros Hno. unfold m2m_remove. apply filter_all_true. intros y Hy.
  apply negb_true_iff. destruct (pair_eqb (a, b) y) eqn:He; [|reflexivity].
  apply pair_eqb_eq in He. subst y. contradiction.
Qed.

Lemma m2m_remove_add (a b : nat) (t : list (nat * nat)) :
  ~ In (a, b) t -> m2m_remove a b (m2m_add a b t) = t.
Proof.
  intros Hno. unfold m2m_add.
  destruct (existsb (pair_eqb (a, b)) t) eqn:He.
  - apply existsb_pair_In in He. contradiction.
  - unfold m2m_remove. rewrite filter_app. simpl.
    rewrite (proj2 (pair_eqb_eq (a, b) (a, b)) eq_refl). simpl.
    rewrite app_nil_r. now apply m2m_remove_absent.
Qed.

Lemma Recipe_objects_get_id_stored (db : DB) (r : Recipe) :
  integrity db -> In r (recipes db) ->
  Recipe_objects_get_id (Some (recipe_pk r)) db = Ok r.
Proof. intros Hi Hr. now apply Recipe_objects_get. Qed.

(** X21.  For the owner of a cookbook and a stored recipe, [add_recipe] is
    idempotent: the first request is answered with 200 and puts the recipe in
    the cookbook; repeating it is answered the same and changes nothing
    more.  Cookbooks and the store underneath are never touched. *)
Theorem add_recipe_is_idempotent
    (cdb : CookbookDB) (c : Cookbook) (u : User) (r : Recipe) :
  cookbook_integrity cdb -> In c (cookbooks cdb) ->
  cookbook_owner c = user_pk u -> In r (recipes (base cdb)) ->
  let request := cookbook_request (AuthUser u) (recipe_pk r) in
  let once := CookbookViewSet_add_recipe request (cookbook_pk c) cdb in
  let twice := CookbookViewSet_add_recipe request (cookbook_pk c) (snd once) in
  status_code (fst once) = HTTP_200_OK
  /\ In (cookbook_pk c, recipe_pk r) (cookbook_recipes (snd once))
  /\ twice = once
  /\ cookbooks (snd once) = cookbooks cdb /\ base (snd once) = base cdb.
Proof.
  intros [Hi Hnd] Hc Howner Hr. cbv zeta. unfold CookbookViewSet_add_recipe.
  assert (Ho : owner_is_user c (AuthUser u) = true)
    by (cbn [owner_is_user]; rewrite Howner; apply Nat.eqb_refl).
  rewrite (cookbook_action_step _ c _ _ _ cdb Hnd Hc).
  cbn [cookbook_request user data recipe_id]. rewrite Ho.
  rewrite (Recipe_objects_get_id_stored _ r Hi Hr). cbn [fst snd].
  rewrite (cookbook_action_step _ c _ _ _ (set_cookbook_recipes cdb _) Hnd Hc).
  cbn [cookbook_request user data recipe_id set_cookbook_recipes base cookbooks
       cookbook_recipes]. rewrite Ho.
  rewrite (Recipe_objects_get_id_stored _ r Hi Hr).
  unfold set_cookbook_recipes. cbn [base cookbooks cookbook_recipes].
  rewrite m2m_add_idempotent.
  repeat split; try reflexivity. apply m2m_add_In.
Qed.

Lemma add_recipe_is_idempotent_witness :
  let request := cookbook_request (AuthUser alice) 1 in
  let once := CookbookViewSet_add_recipe request 1 sample_cookbooks in
  let twice := CookbookViewSet_add_recipe request 1 (snd once) in
  status_code (fst once) = HTTP_200_OK
  /\ In (1, 1) (cookbook_recipes (snd once))
  /\ twice = once.
Proof.
  destruct (add_recipe_is_idempotent sample_cookbooks
              (mkCookbook 1 "Secret" "" 1 false 500) alice pasta
              sample_cookbooks_integrity (or_introl eq_refl) eq_refl
              (or_introl eq_refl)) as [H1 [H2 [H3 _]]].
  split; [exact H1|]. split; [exact H2|exact H3].
Defined.

(** X22.  [remove_recipe] undoes [add_recipe]: when the recipe was not in
    the owner's cookbook, adding it and then removing it gives the store back
    as it was, and removing it without having added it is answered with 200
    and changes nothing. *)
Theorem add_then_remove_recipe
    (cdb : CookbookDB) (c : Cookbook) (u : User) (r : Recipe) :
  cookbook_integrity cdb -> In c (cookbooks cdb) ->
  cookbook_owner c = user_pk u -> In r (recipes (base cdb)) ->
  ~ In (cookbook_pk c, recipe_pk r) (cookbook_recipes cdb) ->
  let request := cookbook_request (AuthUser u) (recipe_pk r) in
  let added := CookbookViewSet_add_recipe request (cookbook_pk c) cdb in
  let removed := CookbookViewSet_remove_recipe request (cookbook_pk c) (snd added) in
  status_code (fst removed) = HTTP_200_OK
  /\ snd removed = cdb
  /\ status_code (fst (CookbookViewSet_remove_recipe request (cookbook_pk c) cdb))
     = HTTP_200_OK
  /\ snd (CookbookViewSet_remove_recipe request (cookbook_pk c) cdb) = cdb.
Proof.
  intros [Hi Hnd] Hc Howner Hr Hno. cbv zeta.
  unfold CookbookViewSet_add_recipe, CookbookViewSet_remove_recipe.
  assert (Ho : owner_is_user c (AuthUser u) = true)
    by (cbn [owner_is_user]; rewrite Howner; apply Nat.eqb_refl).
  rewrite !(cookbook_action_step _ c _ _ _ cdb Hnd Hc).
  cbn [cookbook_request user data recipe_id]. rewrite Ho.
  rewrite (Recipe_objects_get_id_stored _ r Hi Hr). cbn [fst snd].
  rewrite (cookbook_action_step _ c _ _ _ (set_cookbook_recipes cdb _) Hnd Hc).
  cbn [cookbook_request user data recipe_id set_cookbook_recipes base cookbooks
       cookbook_recipes]. rewrite Ho.
  rewrite (Recipe_objects_get_id_stored _ r Hi Hr).
  unfold set_cookbook_recipes. cbn [fst snd base cookbooks cookbook_recipes].
  rewrite (m2m_remove_add _ _ _ Hno), (m2m_remove_absent _ _ _ Hno).
  destruct cdb. repeat split; reflexivity.
Qed.

Lemma add_then_remove_recipe_witness :
  let request := cookbook_request (AuthUser alice) 1 in
  let added := CookbookViewSet_add_recipe request 1 sample_cookbooks in
  let removed := CookbookViewSet_remove_recipe request 1 (snd added) in
  status_code (fst removed) = HTTP_200_OK /\ snd removed = sample_cookbooks.
Proof.
  destruct (add_then_remove_recipe sample_cookbooks
              (mkCookbook 1 "Secret" "" 1 false 500) alice pasta
              sample_cookbooks_integrity (or_introl eq_refl) eq_refl
              (or_introl eq_refl)) as [H1 [H2 _]].
  - simpl. intros [H|[]]. discriminate.
  - split; [exact H1|exact H2].
Defined.

(** X23.  [my_cookbooks] asks for a login itself (401 with its own message
    otherwise).  For an account it lists exactly the cookbooks that account
    owns, the private ones included, and never the cookbook of somebody
    else, public or not. *)
Theorem my_cookbooks_lists_own_cookbooks
    (D : Type) (request : Request D) (cdb : CookbookDB) :
  (user request = AnonymousUser ->
   CookbookViewSet_my_cookbooks request cdb =
   mkResponse (JObj [("error", JStr "Authentication required")])
     HTTP_401_UNAUTHORIZED)
  /\ (forall u, user request = AuthUser u ->
      CookbookViewSet_my_cookbooks request cdb =
      Response_ok (JArr (map (CookbookListSerializer_data cdb)
                           (my_cookbooks_queryset request cdb)))
      /\ (forall c, In c (my_cookbooks_queryset request cdb) <->
                    In c (cookbooks cdb) /\ cookbook_owner c = user_pk u)
      /\ List.length (my_cookbooks_queryset request cdb)
         = List.length (filter (fun c => cookbook_owner c =? user_pk u)
                          (cookbooks cdb))).
Proof.
  unfold CookbookViewSet_my_cookbooks, my_cookbooks_queryset. split.
  - intros ->. reflexivity.
  - intros u ->. cbn [is_authenticated negb owner_is_user].
    split; [reflexivity|]. split.
    + intros c. rewrite order_by_newest_In, filter_In, Nat.eqb_eq. reflexivity.
    + symmetry. apply Permutation_length. apply order_by_newest_perm.
Qed.

Example my_cookbooks_of_alice_and_bob :
  map cookbook_name (my_cookbooks_queryset (mkRequest (AuthUser alice) tt)
                       sample_cookbooks) = ["Weeknights"; "Secret"]
  /\ my_cookbooks_queryset (mkRequest (AuthUser bob) tt) sample_cookbooks = []
  /\ map cookbook_name (CookbookViewSet_get_queryset (mkRequest (AuthUser bob) tt)
                          sample_cookbooks) = ["Weeknights"].
Proof. repeat split; reflexivity. Qed.

(** ** Tokens *)

Lemma Token_objects_get_key (tdb : TokenDB) (t : Token) :
  NoDup (map token_key (tokens tdb)) -> In t (tokens tdb) ->
  objects_get (fun x => String.eqb (token_key x) (token_key t)) (tokens tdb) = Ok t.
Proof.
  intros Hnd Ht. apply (objects_get_unique token_key); auto.
  - apply String.eqb_refl.
  - intros y _ Hy. now apply String.eqb_eq.
Qed.

Lemma User_objects_get_pk (db : DB) (u : User) :
  NoDup (map user_pk (users db)) -> In u (users db) ->
  objects_get (fun x => user_pk x =? user_pk u) (users db) = Ok u.
Proof.
  intros Hnd Hu. apply (objects_get_unique user_pk); auto.
  - apply Nat.eqb_refl.
  - intros y _ Hy. now apply Nat.eqb_eq.
Qed.

(** X24.  A token that has just been created authenticates its account:
    after [create_auth_token] for a stored, active account with a key not
    yet in use, a header with the scheme [token] in any case and that key is
    resolved to the account; the uniqueness of keys and of tokens per account
    is kept, and every other key is resolved as before. *)
Theorem created_token_authenticates
    (is_active : User -> bool) (tdb : TokenDB) (u : User) (key scheme : string) :
  token_integrity tdb -> In u (users (token_base tdb)) -> is_active u = true ->
  (forall t, In t (tokens tdb) -> token_key t <> key /\ token_user t <> user_pk u) ->
  lower scheme = "token" ->
  exists tdb',
    create_auth_token u true key tdb = Ok tdb'
    /\ authenticate is_active [scheme; key] tdb'
       = Authenticated u (mkToken key (user_pk u))
    /\ token_integrity tdb'
    /\ (forall other, other <> key ->
        authenticate_credentials is_active other tdb'
        = authenticate_credentials is_active other tdb).
Proof.
  intros [Hk Hu Hpk] Hin Hact Hfresh Hscheme.
  set (new := mkToken key (user_pk u)).
  exists (mkTokenDB (token_base tdb) (tokens tdb ++ [new])).
  assert (Hk' : NoDup (map token_key (tokens tdb ++ [new]))).
  { apply NoDup_map_app_fresh; [exact Hk|]. intros y Hy. now apply Hfresh. }
  assert (Hu' : NoDup (map token_user (tokens tdb ++ [new]))).
  { apply NoDup_map_app_fresh; [exact Hu|]. intros y Hy. now apply Hfresh. }
  split; [|split; [|split]].
  - unfold create_auth_token.
    assert (He : existsb (fun t => String.eqb (token_key t) key
                                   || (token_user t =? user_pk u)) (tokens tdb)
                 = false).
    { destruct (existsb _ _) eqn:He; [|reflexivity].
      apply existsb_exists in He. destruct He as [y [Hy Hm]].
      destruct (Hfresh y Hy) as [H1 H2].
      apply orb_true_iff in Hm. destruct Hm as [Hm|Hm].
      - apply String.eqb_eq in Hm. contradiction.
      - apply Nat.eqb_eq in Hm. contradiction. }
    now rewrite He.
  - unfold authenticate. rewrite Hscheme. cbn [String.eqb negb].
    change (String.eqb "token" "token") with true. cbn [negb].
    unfold authenticate_credentials.
    change key with (token_key new) at 1.
    rewrite (Token_objects_get_key (mkTokenDB (token_base tdb) (tokens tdb ++ [new]))
               new Hk').
    + cbn [token_base new token_user].
      rewrite (User_objects_get_pk _ u Hpk Hin). now rewrite Hact.
    + cbn [tokens]. apply in_or_app. right. now left.
  - constructor; assumption.
  - intros other Hne. unfold authenticate_credentials, objects_get.
    cbn [tokens token_base]. rewrite filter_app. simpl.
    assert (Hno : String.eqb key other = false)
      by (apply String.eqb_neq; congruence).
    rewrite Hno, app_nil_r. reflexivity.
Qed.

Lemma sample_tokens_integrity : token_integrity sample_tokens.
Proof.
  constructor; simpl; repeat constructor; simpl; intuition discriminate.
Qed.

Lemma created_token_authenticates_witness :
  exists tdb',
    create_auth_token bob true "c0ffee" sample_tokens = Ok tdb'
    /\ authenticate (fun _ => true) ["Token"; "c0ffee"] tdb'
       = Authenticated bob (mkToken "c0ffee" 2).
Proof.
  destruct (created_token_authenticates (fun _ => true) sample_tokens bob "c0ffee"
              "Token" sample_tokens_integrity) as [tdb' [H1 [H2 _]]].
  - simpl. right. now left.
  - reflexivity.
  - simpl. intros t [<-|[]]. split; discriminate.
  - reflexivity.
  - exists tdb'. split; [exact H1|exact H2].
Defined.

(** X25.  Logging out revokes the token: after [logout_view] by an account
    that has a token, the answer is 200, the key no longer authenticates
    ("Invalid token"), the tokens of the other accounts are still there, and
    a second [logout_view] by the same account is answered with 400 and
    changes nothing. *)
Theorem logout_revokes_the_token
    (is_active : User -> bool) (tdb : TokenDB) (u : User) (t : Token)
    (scheme : string) :
  token_integrity tdb -> In t (tokens tdb) -> token_user t = user_pk u ->
  lower scheme = "token" ->
  let request := mkRequest (AuthUser u) tt in
  let out := logout_view request tdb in
  status_code (fst out) = HTTP_200_OK
  /\ authenticate is_active [scheme; token_key t] (snd out)
     = AuthenticationFailed "Invalid token"
  /\ (forall t', In t' (tokens tdb) -> t' <> t -> In t' (tokens (snd out)))
  /\ token_integrity (snd out)
  /\ status_code (fst (logout_view request (snd out))) = HTTP_400_BAD_REQUEST
  /\ snd (logout_view request (snd out)) = snd out.
Proof.
  intros [Hk Hu Hpk] Ht Huser Hscheme. cbv zeta.
  assert (Hget : objects_get (fun x => token_user x =? user_pk u) (tokens tdb) = Ok t).
  { apply (objects_get_unique token_user); auto.
    - rewrite Huser. apply Nat.eqb_refl.
    - intros y _ Hy. apply Nat.eqb_eq in Hy. congruence. }
  set (rest := filter (fun x => negb (String.eqb (token_key x) (token_key t)))
                 (tokens tdb)).
  assert (Hout : logout_view (mkRequest (AuthUser u) tt) tdb =
                 (Response_ok (JObj [("message", JStr "Successfully logged out")]),
                  mkTokenDB (token_base tdb) rest)).
  { unfold logout_view. cbn [user]. now rewrite Hget. }
  rewrite Hout. cbn [fst snd status_code].
  assert (Hrest : forall y, In y rest <-> In y (tokens tdb) /\ token_key y <> token_key t).
  { intros y. unfold rest. rewrite filter_In, negb_true_iff, String.eqb_neq.
    reflexivity. }
  assert (Hgone : forall y, In y rest -> token_user y <> user_pk u).
  { intros y Hy Heq. apply Hrest in Hy. destruct Hy as [Hy Hne]. apply Hne.
    f_equal. apply (NoDup_map_inj token_user (tokens tdb) y t Hu Hy Ht). congruence. }
  split; [reflexivity|]. split; [|split; [|split]].
  - unfold authenticate. rewrite Hscheme.
    change (String.eqb "token" "token") with true. cbn [negb].
    unfold authenticate_credentials. cbn [tokens].
    rewrite objects_get_missing; [reflexivity|].
    intros y Hy. apply Hrest in Hy. apply String.eqb_neq. tauto.
  - intros t' Ht' Hne. cbn [tokens]. apply Hrest. split; [exact Ht'|].
    intros Hkey. apply Hne.
    exact (NoDup_map_inj token_key (tokens tdb) t' t Hk Ht' Ht Hkey).
  - constructor; cbn [tokens token_base]; unfold rest;
      try apply NoDup_map_filter; assumption.
  - unfold logout_view. cbn [user tokens].
    rewrite objects_get_missing; [split; reflexivity|].
    intros y Hy. apply Nat.eqb_neq. now apply Hgone.
Qed.

Lemma logout_revokes_the_token_witness :
  let out := logout_view (mkRequest (AuthUser alice) tt) sample_tokens in
  status_code (fst out) = HTTP_200_OK
  /\ authenticate (fun _ => true) ["Token"; "9944b09199c62bcf"] (snd out)
     = AuthenticationFailed "Invalid token".
Proof.
  destruct (logout_revokes_the_token (fun _ => true) sample_tokens alice
              (mkToken "9944b09199c62bcf" 1) "Token" sample_tokens_integrity
              (or_introl eq_refl) eq_refl eq_refl) as [H1 [H2 _]].
  split; [exact H1|exact H2].
Defined.

Example authenticate_edge_cases :
  authenticate (fun _ => true) [] sample_tokens = NoCredentials
  /\ authenticate (fun _ => true) ["Bearer"; "9944b09199c62bcf"] sample_tokens
     = NoCredentials
  /\ authenticate (fun _ => true) ["TOKEN"; "9944b09199c62bcf"] sample_tokens
     = Authenticated alice (mkToken "9944b09199c62bcf" 1)
  /\ authenticate (fun _ => true) ["Token"] sample_tokens = IndexError
  /\ authenticate (fun _ => false) ["Token"; "9944b09199c62bcf"] sample_tokens
     = AuthenticationFailed "User inactive".
Proof. repeat split; reflexivity. Qed.

Example user_profile_of_bob_and_anonymous :
  user_profile (mkRequest (AuthUser bob) tt) sample_db
  = (Response_ok (UserSerializer_data bob), sample_db)
  /\ status_code (fst (user_profile (mkRequest AnonymousUser tt) sample_db))
     = HTTP_401_UNAUTHORIZED.
Proof. split; reflexivity. Qed.
